(** * pp_extract: source extraction with a pool of worker threads

    A shallow embedding of [src/pp_extract.py] (Photometry Pipeline,
    PP_EXTRACT v1.0): the set-up part of [extract_multiframe], the body of
    [extractor.run], and the queue / thread pool they share, followed by the
    properties of the batch that the specification states.

    Python values are modelled as far as the script touches them: strings,
    integers and floats (IEEE binary64, i.e. Rocq's primitive floats),
    dictionaries as [gmap], lists as [list].  Exceptions are explicit
    ([res]); the threads are a transition system whose steps are the
    synchronised operations of the script. *)

From Stdlib Require Import ZArith Floats Lia Ascii.
From stdpp Require Import base gmap strings list pretty fin_maps.

Local Open Scope Z_scope.

(** ** Python strings *)

Module PyString.

(** [s.startswith(p)] *)
Fixpoint startswith (p s : string) : bool :=
  match p, s with
  | EmptyString, _ => true
  | String a p', String b s' => if Ascii.eqb a b then startswith p' s' else false
  | String _ _, EmptyString => false
  end.

Fixpoint find_from (sub s : string) (i : Z) : Z :=
  if startswith sub s then i
  else match s with
       | EmptyString => -1
       | String _ s' => find_from sub s' (i + 1)
       end.

(** [s.find(sub)]: the lowest index where [sub] occurs, [-1] when it does
    not occur. *)
Definition find (s sub : string) : Z := find_from sub s 0.

(** [sub in s] *)
Fixpoint contains (sub s : string) : bool :=
  startswith sub s
  || match s with
     | EmptyString => false
     | String _ s' => contains sub s'
     end.

Fixpoint take (n : nat) (s : string) : string :=
  match n, s with
  | S n', String a s' => String a (take n' s')
  | _, _ => EmptyString
  end.

(** [s[:k]]: a negative [k] counts from the end. *)
Definition slice_to (s : string) (k : Z) : string :=
  if 0 <=? k then take (Z.to_nat k) s
  else take (Z.to_nat (Z.of_nat (String.length s) + k)) s.

(** [s.split(sep)] for a separator of one character. *)
Fixpoint split (sep : Ascii.ascii) (s : string) : list string :=
  match s with
  | EmptyString => [EmptyString]
  | String a s' =>
      if Ascii.eqb a sep then EmptyString :: split sep s'
      else match split sep s' with
           | w :: ws => String a w :: ws
           | [] => [String a EmptyString]
           end
  end.

(** [[c for c in s]]: the characters of [s], each a string. *)
Fixpoint chars (s : string) : list string :=
  match s with
  | EmptyString => []
  | String a s' => String a EmptyString :: chars s'
  end.

(** [sep.join(l)] *)
Fixpoint join (sep : string) (l : list string) : string :=
  match l with
  | [] => EmptyString
  | [x] => x
  | x :: xs => x +:+ sep +:+ join sep xs
  end.

End PyString.

(** ** Values, exceptions *)

Inductive pyval :=
| PyStr (s : string)
| PyInt (z : Z)
| PyFloat (f : float).

Inductive exn :=
| KeyError | IndexError | NameError | UnboundLocalError | ValueError
| TypeError | AttributeError | IOError | OSError | OverflowError.

Inductive res (A : Type) :=
| Ok (a : A)
| Raise (e : exn).
Arguments Ok {A} a.
Arguments Raise {A} e.

Definition res_bind {A B} (m : res A) (k : A -> res B) : res B :=
  match m with
  | Ok a => k a
  | Raise e => Raise e
  end.

Notation "'try!' x := m 'in' k" := (res_bind m (fun x => k))
  (at level 10, x name, m at level 100, k at level 200).

Definition of_option {A} (e : exn) (o : option A) : res A :=
  match o with
  | Some a => Ok a
  | None => Raise e
  end.

(** [l[i]] on a Python list *)
Definition index {A} (l : list A) (i : nat) : res A := of_option IndexError (l !! i).

Fixpoint mapM {A B} (f : A -> res B) (l : list A) : res (list B) :=
  match l with
  | [] => Ok []
  | x :: xs => try! y := f x in try! ys := mapM f xs in Ok (y :: ys)
  end.

(** The integer a finite float truncates to, as [%d] and [int()] compute it. *)
Definition trunc_float (f : float) : option Z :=
  match Prim2SF f with
  | S754_zero _ => Some 0
  | S754_finite s m e =>
      let mag := if 0 <=? e then Z.pos m * 2 ^ e else Z.pos m `quot` 2 ^ (- e) in
      Some (if s then - mag else mag)
  | S754_infinity _ => None
  | S754_nan => None
  end.

(** ** FITS headers and the files on disk *)

(** A header card: [header[key] = (value, comment)]. *)
Record card := { card_value : pyval; card_comment : string }.

Abbreviation header := (gmap string card).

(** The rows of an LDAC catalog, [catalog.data]. *)
Record catalog := { data : list (list pyval) }.

(** The files the batch touches: FITS images (their primary header) and LDAC
    catalogs, by path. *)
Record disk := {
  fits_files : gmap string header;
  ldac_files : gmap string catalog;
}.

(** ** Telescope configuration and batch parameters *)

(** An entry of [_pp_conf.telescope_parameters], with the keys this script
    reads. *)
Record obsparam := {
  obs_aprad_default : pyval;             (* 'aprad_default' *)
  obs_binning : string * string;         (* 'binning' *)
  obs_mask_file : gmap string string;    (* 'mask_file' *)
  obs_obsmidtime_jd : string;            (* 'obsmidtime_jd' *)
  obs_date_keyword : string;             (* 'date_keyword' *)
  obs_exptime : string;                  (* 'exptime' *)
  obs_sex_config_file : string;          (* 'sex-config-file' *)
}.

(** The value under [parameters['aprad']]: a scalar, a list, or a
    [numpy.ndarray]. *)
Inductive aprad_value :=
| ApScalar (v : pyval)
| ApList (l : list pyval)
| ApNdarray (l : list pyval).

(** The [parameters] dictionary.  A key that may be missing is an [option];
    [par_telescope = None] stands for both a missing key and the value
    [None]. *)
Record params := {
  par_telescope : option pyval;
  par_aprad : aprad_value;
  par_sex_snr : float;
  par_source_minarea : float;
  par_quiet : bool;
  par_paramfile : option string;
  par_obsparam : option obsparam;
  par_aperture_diam : option string;
  par_mask_file : option string;
}.

(** What the script logs and prints. *)
Inductive event :=
| Log_info_extract_sources (n : nat)
| Log_info_parameters
| Log_critical_no_tel_keyw (filename : string)
| Print_no_tel_keyw
| Print_unknown_telescope (t : option string)
| Log_critical_unknown_telescope (t : option string)
| Log_error_cannot_call
| Log_info_extracted (n : nat) (filename : string)
| Print_extracted (n : nat) (filename : string).

(** threading definitions *)
Definition nThreads : nat := 10.
Definition extractQueue_maxsize : Z := 10000.

(** ** What the script takes from outside

    The modules [_pp_conf], [toolbox] and [catalog], the interpreter's
    conversions between floats and text, and the Source Extractor binary are
    not part of this file; they are the fields of [environment]. *)
Record environment := {
  (** [_pp_conf.telescope_parameters] *)
  telescope_parameters : gmap string obsparam;
  (** the module-level name [telescope]: bound by the [__main__] block only
      (to [args.telescope], a string or [None]); [None] here when unbound *)
  module_telescope : option (option string);
  (** [toolbox.dateobs_to_jd] *)
  dateobs_to_jd : pyval -> res float;
  (** [float(s)] on a string; [None] is [ValueError] *)
  float_str : string -> option float;
  (** [float(n)] on an integer; [None] is [OverflowError] *)
  float_int : Z -> option float;
  (** [str(x)] on a float *)
  str_float : float -> string;
  (** ['%f' % x] *)
  format_f : float -> string;
  (** whether [subprocess.Popen(shlex.split(commandline), ...)] returns (or
      raises) *)
  Popen_launches : string -> bool;
  (** the catalog a run of the command line leaves at its CATALOG_NAME, if
      any *)
  sex_writes : string -> option catalog;
  (** whether [header[key] = (value, comment)] takes the value; astropy
      raises [ValueError] for what a FITS card cannot hold: a float that is
      nan or infinite, text that is not printable ASCII *)
  header_accepts : pyval -> bool;
}.

(** The values a dictionary [out] holds. *)
Inductive outval :=
| OStr (s : string)
| OParameters (p : params)
| OCatalog (c : catalog)
| OVal (v : pyval)
| OHeader (h : header).

(** Worker threads: where a thread of [extractor.run] stands, with its local
    variable [sex] ([None] while unbound, else the command line of the
    process it names). *)
Inductive thread :=
| T_get (sex : option string)
| T_append (sex : option string) (filename : string)
| T_process (sex : option string) (filename : string) (i : nat)
| T_exited
| T_died (filename : string) (i : nat) (e : exn).

(** Where [extract_multiframe] stands after its set-up. *)
Inductive coordinator :=
| C_populate (rest : list string)
| C_spawn (n : nat)
| C_join
| C_returned.

Record system := {
  extractQueue : list string;
  unfinished_tasks : nat;
  output : list (gmap string outval);
  threads : list thread;
  main : coordinator;
  filenames : list string;
  param : params;
  files : disk;
  events : list event;
}.

Inductive action :=
| Main
| Worker (tid : nat).

(** How the set-up part of [extract_multiframe] ends. *)
Inductive setup :=
| Setup_raise (ev : list event) (e : exn)
| Setup_return_empty_dict (ev : list event)
| Setup_ok (ev : list event) (p : params).

(** The state one pass of the loop of [extractor.run] works on: its [out],
    its local [sex], the files and the log. *)
Record job_state := {
  job_out : gmap string outval;
  job_sex : option string;
  job_files : disk;
  job_events : list event;
}.

(** Statements that change [job_state] and may raise; what was done before
    an exception stays done. *)
Definition job (A : Type) : Type := job_state -> job_state * res A.

Definition job_ret {A} (a : A) : job A := fun st => (st, Ok a).

Definition job_bind {A B} (m : job A) (k : A -> job B) : job B :=
  fun st =>
    match m st with
    | (st', Ok a) => k a st'
    | (st', Raise e) => (st', Raise e)
    end.

Notation "'do!' x := m 'in' k" := (job_bind m (fun x => k))
  (at level 10, x name, m at level 100, k at level 200).

Definition lift {A} (r : res A) : job A := fun st => (st, r).

Definition set_out (k : string) (v : outval) : job unit :=
  fun st =>
    ({| job_out := <[k := v]> (job_out st); job_sex := job_sex st;
        job_files := job_files st; job_events := job_events st |}, Ok tt).

Definition set_sex (c : string) : job unit :=
  fun st =>
    ({| job_out := job_out st; job_sex := Some c;
        job_files := job_files st; job_events := job_events st |}, Ok tt).

Definition get_sex : job (option string) := fun st => (st, Ok (job_sex st)).

Definition get_files : job disk := fun st => (st, Ok (job_files st)).

Definition set_files (d : disk) : job unit :=
  fun st =>
    ({| job_out := job_out st; job_sex := job_sex st;
        job_files := d; job_events := job_events st |}, Ok tt).

Definition emit (e : event) : job unit :=
  fun st =>
    ({| job_out := job_out st; job_sex := job_sex st;
        job_files := job_files st; job_events := job_events st ++ [e] |}, Ok tt).

Definition header_get (h : header) (k : string) : res pyval :=
  of_option KeyError (card_value <$> h !! k).

Definition header_set (k : string) (v : pyval) (comment : string) (h : header) : header :=
  <[k := {| card_value := v; card_comment := comment |}]> h.

(** [a + b] where one operand is a string *)
Definition str_add (a b : pyval) : res pyval :=
  match a, b with
  | PyStr x, PyStr y => Ok (PyStr (x +:+ y))
  | _, _ => Raise TypeError
  end.

(** [v.split()] *)
Definition py_split (v : pyval) : res (list string) :=
  match v with
  | PyStr s => Ok (String.words s)
  | _ => Raise AttributeError
  end.

(** [x * 2] *)
Definition times2 (v : pyval) : pyval :=
  match v with
  | PyStr s => PyStr (s +:+ s)
  | PyInt z => PyInt (z * 2)
  | PyFloat f => PyFloat (f * 2)%float
  end.

(** [filename[:filename.find('.fit')]+'.ldac'] *)
Definition ldacname_of (filename : string) : string :=
  PyString.slice_to filename (PyString.find filename ".fit") +:+ ".ldac".

Section Extract.

Variable E : environment.

(** [float(v)] *)
Definition py_float (v : pyval) : res float :=
  match v with
  | PyFloat f => Ok f
  | PyInt z => of_option OverflowError (float_int E z)
  | PyStr s => of_option ValueError (float_str E s)
  end.

(** [str(v)] *)
Definition py_str (v : pyval) : string :=
  match v with
  | PyStr s => s
  | PyInt z => pretty z
  | PyFloat f => str_float E f
  end.

(** [header[k] = (v, comment)] *)
Definition header_setitem (k : string) (v : pyval) (comment : string) (h : header)
  : res header :=
  if header_accepts E v then Ok (header_set k v comment h) else Raise ValueError.

(** ['%d' % v] *)
Definition format_d (v : pyval) : res string :=
  match v with
  | PyInt z => Ok (pretty z)
  | PyFloat f =>
      match Prim2SF f with
      | S754_nan => Raise ValueError
      | S754_infinity _ => Raise OverflowError
      | _ => of_option ValueError (pretty <$> trunc_float f)
      end
  | PyStr _ => Raise TypeError
  end.

(** *** [extract_multiframe], lines 188-243: set-up *)

(** Lines 213-224: the aperture diameters as a string; the first component
    is the new [parameters['aprad']]. *)
Definition set_aperture_diam (aprad : aprad_value) (obs : obsparam)
  : res (aprad_value * string) :=
  let use_default :=
    match aprad with
    | ApScalar (PyFloat f) => (f =? 0)%float
    | ApList [] => true
    | _ => false
    end in
  if use_default then Ok (aprad, py_str (times2 (obs_aprad_default obs)))
  else
    let aprad' :=
      match aprad with
      | ApScalar v => ApList [PyStr (py_str v)]
      | _ => aprad
      end in
    let rads :=
      match aprad' with
      | ApList l => l
      | ApNdarray l => l
      | ApScalar _ => []
      end in
    try! diams := mapM (fun rad => try! r := py_float rad in
                                   Ok (str_float E (r * 2)%float)) rads in
    Ok (aprad', PyString.join "," diams).

(** Lines 227-238: [binning_x] and [binning_y]; [None] when the statement
    assigns neither. *)
Definition read_binning (obs : obsparam) (hdr : header) : res (option (pyval * pyval)) :=
  let b0 := fst (obs_binning obs) in
  let b1 := snd (obs_binning obs) in
  if PyString.contains "_" b0 then
    if PyString.contains "_blank" b0 then
      try! k0 := index (PyString.split "_"%char b0) 0 in
      try! v0 := header_get hdr k0 in
      try! w0 := py_split v0 in
      try! x := index w0 0 in
      try! binning_x := py_float (PyStr x) in
      try! k1 := index (PyString.split "_"%char b1) 0 in
      try! v1 := header_get hdr k1 in
      try! w1 := py_split v1 in
      try! y := index w1 1 in
      try! binning_y := py_float (PyStr y) in
      Ok (Some (PyFloat binning_x, PyFloat binning_y))
    else Ok None
  else
    try! binning_x := header_get hdr b0 in
    try! binning_y := header_get hdr b1 in
    Ok (Some (binning_x, binning_y)).

(** Line 239: [bin_string = '%d,%d' % (binning_x, binning_y)] *)
Definition bin_string_of (b : option (pyval * pyval)) : res string :=
  match b with
  | None => Raise UnboundLocalError
  | Some (binning_x, binning_y) =>
      try! x := format_d binning_x in
      try! y := format_d binning_y in
      Ok (x +:+ "," +:+ y)
  end.

(** Lines 213-243, once [parameters['telescope']] and
    [parameters['obsparam']] are set. *)
Definition prepare (parameters : params) (t : pyval) (obs : obsparam) (hdr : header)
  : res params :=
  try! ad := set_aperture_diam (par_aprad parameters) obs in
  try! b := read_binning obs hdr in
  try! bin_string := bin_string_of b in
  Ok {| par_telescope := Some t;
        par_aprad := fst ad;
        par_sex_snr := par_sex_snr parameters;
        par_source_minarea := par_source_minarea parameters;
        par_quiet := par_quiet parameters;
        par_paramfile := par_paramfile parameters;
        par_obsparam := Some obs;
        par_aperture_diam := Some (snd ad);
        par_mask_file :=
          match obs_mask_file obs !! bin_string with
          | Some mask_file => Some mask_file
          | None => par_mask_file parameters
          end |}.

(** [_pp_conf.telescope_parameters[parameters['telescope']]] *)
Definition lookup_telescope (t : pyval) : option obsparam :=
  match t with
  | PyStr name => telescope_parameters E !! name
  | _ => None
  end.

(** Lines 196-198: [parameters['telescope']], read from the header of the
    first image when the key is missing or [None]. *)
Definition telescope_of (parameters : params) (hdr : header) : option pyval :=
  match par_telescope parameters with
  | Some t => Some t
  | None => card_value <$> hdr !! "TEL_KEYW"
  end.

Definition extract_multiframe_setup
  (filenames : list string) (parameters : params) (d : disk) : setup :=
  let ev := [Log_info_extract_sources (length filenames); Log_info_parameters] in
  match filenames with
  | [] => Setup_raise ev IndexError
  | first :: _ =>
      match fits_files d !! first with
      | None => Setup_raise ev IOError
      | Some hdr =>
          match telescope_of parameters hdr with
          | None =>
              Setup_return_empty_dict
                (ev ++ [Log_critical_no_tel_keyw first; Print_no_tel_keyw])
          | Some t =>
              match lookup_telescope t with
              | None =>
                  match module_telescope E with
                  | None => Setup_raise ev NameError
                  | Some g =>
                      Setup_return_empty_dict
                        (ev ++ [Print_unknown_telescope g;
                                Log_critical_unknown_telescope g])
                  end
              | Some obs =>
                  match prepare parameters t obs hdr with
                  | Ok p => Setup_ok ev p
                  | Raise e => Setup_raise ev e
                  end
              end
          end
      end
  end.

(** *** [extractor.run], lines 81-175: one frame *)

(** Lines 92-112 *)
Definition commandline_of (param : params) (filename ldacname : string) : res string :=
  try! aperture_diam := of_option KeyError (par_aperture_diam param) in
  let optionstring :=
    " -PHOT_APERTURES " +:+ aperture_diam +:+ " "
    +:+ " -BACKPHOTO_TYPE LOCAL "
    +:+ " -DETECT_MINAREA " +:+ format_f E (par_source_minarea param) +:+ " "
    +:+ " -DETECT_THRESH " +:+ format_f E (par_sex_snr param)
    +:+ " -ANALYSIS_THRESH " +:+ format_f E (par_sex_snr param) +:+ " "
    +:+ " -CATALOG_NAME " +:+ ldacname +:+ " "
    +:+ match par_mask_file param with
        | Some mask_file => " -WEIGHT_TYPE MAP_WEIGHT" +:+ " -WEIGHT_IMAGE " +:+ mask_file
        | None => ""
        end
    +:+ match par_paramfile param with
        | Some paramfile => " -PARAMETERS_NAME " +:+ paramfile
        | None => ""
        end in
  try! obs := of_option KeyError (par_obsparam param) in
  Ok ("sex -c " +:+ obs_sex_config_file obs +:+ " " +:+ optionstring +:+ " " +:+ filename).

(** Lines 134-149: observation midtime *)
Definition midtimjd_of (obs : obsparam) (hdr : header) : res pyval :=
  match hdr !! obs_obsmidtime_jd obs with
  | Some c => Ok (card_value c)
  | None =>
      if PyString.find (obs_date_keyword obs) "|" =? -1 then
        try! dateobs := header_get hdr (obs_date_keyword obs) in
        try! jd := dateobs_to_jd E dateobs in
        try! t := header_get hdr (obs_exptime obs) in
        try! exptime := py_float t in
        Ok (PyFloat (jd + exptime / 2 / 86400)%float)
      else
        try! k0 := index (PyString.split "|"%char (obs_date_keyword obs)) 0 in
        try! date := header_get hdr k0 in
        try! dateT := str_add date (PyStr "T") in
        try! k1 := index (PyString.split "|"%char (obs_date_keyword obs)) 1 in
        try! tm := header_get hdr k1 in
        try! datetime := str_add dateT tm in
        try! jd := dateobs_to_jd E datetime in
        try! t := header_get hdr (obs_exptime obs) in
        try! exptime := py_float t in
        Ok (PyFloat (jd + exptime / 2 / 86400)%float)
  end.

(** [",".join([str(aprad) for aprad in self.param['aprad']])]: a string is
    iterated by its characters, a number cannot be iterated. *)
Definition aprad_string (a : aprad_value) : res string :=
  match a with
  | ApList l => Ok (PyString.join "," (py_str <$> l))
  | ApNdarray l => Ok (PyString.join "," (py_str <$> l))
  | ApScalar (PyStr s) => Ok (PyString.join "," (PyString.chars s))
  | ApScalar _ => Raise TypeError
  end.

(** Modelled from the spec: the class [catalog] and its [read_ldac] are in
    the module [catalog], which is not part of this file; the spec's
    catalog reader is "read(path) -> rows; fails if file missing/corrupt". *)
Definition read_ldac (d : disk) (ldac_filename : string) : res catalog :=
  of_option IOError (ldac_files d !! ldac_filename).

(** The statements of the loop body after [self.output.append(out)] and
    before [extractQueue.task_done()]. *)
Definition process (param : params) (filename : string) : job unit :=
  let ldacname := ldacname_of filename in
  do! _ := set_out "fits_filename" (OStr filename) in
  do! _ := set_out "ldac_filename" (OStr ldacname) in
  do! _ := set_out "parameters" (OParameters param) in
  (* prepare running SEXTRACTOR *)
  do! d := get_files in
  do! _ := set_files {| fits_files := fits_files d;
                        ldac_files := delete ldacname (ldac_files d) |} in
  do! commandline := lift (commandline_of param filename ldacname) in
  (* run SEXTRACTOR and wait for it to finish *)
  do! _ := (if Popen_launches E commandline then
              do! _ := set_sex commandline in
              match sex_writes E commandline with
              | Some c =>
                  do! d := get_files in
                  set_files {| fits_files := fits_files d;
                               ldac_files := <[ldacname := c]> (ldac_files d) |}
              | None => job_ret tt
              end
            else emit Log_error_cannot_call) in
  do! sex := get_sex in
  do! _ := lift (of_option UnboundLocalError sex) in
  (* read in LDAC file *)
  let ldac_filename := ldacname_of filename in
  do! d := get_files in
  do! ldac_data := lift (read_ldac d ldac_filename) in
  do! _ := set_out "catalog_data" (OCatalog ldac_data) in
  (* update image header with aperture radius and other information *)
  do! hdr := lift (of_option IOError (fits_files d !! filename)) in
  do! obs := lift (of_option KeyError (par_obsparam param)) in
  do! midtimjd := lift (midtimjd_of obs hdr) in
  do! _ := set_out "time" (OVal midtimjd) in
  do! aprads := lift (aprad_string (par_aprad param)) in
  do! hdr := lift (header_setitem "APRAD" (PyStr aprads)
                     "aperture phot radius (px)" hdr) in
  do! hdr := lift (header_setitem "SEXSNR" (PyFloat (par_sex_snr param))
                     "Sextractor detection SNR threshold" hdr) in
  do! hdr := lift (header_setitem "SEXAREA" (PyFloat (par_source_minarea param))
                     "Sextractor source area threshold (px)" hdr) in
  do! _ := set_out "fits_header" (OHeader hdr) in
  do! _ := set_files {| fits_files := <[filename := hdr]> (fits_files d);
                        ldac_files := ldac_files d |} in
  let n := length (data ldac_data) in
  do! _ := emit (Log_info_extracted n filename) in
  if par_quiet param then job_ret tt else emit (Print_extracted n filename).

(** *** The queue, the threads and [extract_multiframe], lines 246-281

    A step is one operation of the main thread ([Main]: a [put], the start
    of a thread, the end of [join]) or of a worker ([Worker tid]: a [get],
    the append of a fresh [out], the rest of the loop body up to
    [task_done]).  [threadLock] has no state of its own here.  The rest of
    the loop body is one step although the lock is held at lines 89-91,
    163-165 and 169-175 only: between them the passes of two threads meet
    in nothing but the files, and there only when their frames share an
    image or a catalog path; what is said below of the catalogs of a batch
    is said of filenames with different catalog paths.  [None]: the
    operation cannot be taken (the thread is blocked or has ended). *)

Definition with_main (c : coordinator) (s : system) : system :=
  {| extractQueue := extractQueue s; unfinished_tasks := unfinished_tasks s;
     output := output s; threads := threads s; main := c;
     filenames := filenames s; param := param s; files := files s;
     events := events s |}.

Definition with_threads (ts : list thread) (s : system) : system :=
  {| extractQueue := extractQueue s; unfinished_tasks := unfinished_tasks s;
     output := output s; threads := ts; main := main s;
     filenames := filenames s; param := param s; files := files s;
     events := events s |}.

Definition with_queue (q : list string) (n : nat) (s : system) : system :=
  {| extractQueue := q; unfinished_tasks := n;
     output := output s; threads := threads s; main := main s;
     filenames := filenames s; param := param s; files := files s;
     events := events s |}.

Definition with_output (o : list (gmap string outval)) (s : system) : system :=
  {| extractQueue := extractQueue s; unfinished_tasks := unfinished_tasks s;
     output := o; threads := threads s; main := main s;
     filenames := filenames s; param := param s; files := files s;
     events := events s |}.

Definition with_world (d : disk) (ev : list event) (s : system) : system :=
  {| extractQueue := extractQueue s; unfinished_tasks := unfinished_tasks s;
     output := output s; threads := threads s; main := main s;
     filenames := filenames s; param := param s; files := d;
     events := ev |}.

(** The main thread, lines 250-267. *)
Definition main_step (s : system) : option system :=
  match main s with
  | C_populate [] =>
      Some (with_main (C_spawn (Nat.min nThreads (length (filenames s)))) s)
  | C_populate (filename :: rest) =>
      if Z.of_nat (length (extractQueue s)) <? extractQueue_maxsize
      then Some (with_main (C_populate rest)
                   (with_queue (extractQueue s ++ [filename])
                      (S (unfinished_tasks s)) s))
      else Some s
  | C_spawn (S n) =>
      Some (with_main (C_spawn n) (with_threads (threads s ++ [T_get None]) s))
  | C_spawn O => Some (with_main C_join s)
  | C_join =>
      match unfinished_tasks s with
      | O => Some (with_main C_returned s)
      | S _ => None
      end
  | C_returned => None
  end.

(** A worker, lines 68-177. *)
Definition worker_step (tid : nat) (s : system) : option system :=
  match threads s !! tid with
  | Some (T_get sex) =>
      match extractQueue s with
      | filename :: q =>
          Some (with_threads (<[tid := T_append sex filename]> (threads s))
                  (with_queue q (unfinished_tasks s) s))
      | [] => Some (with_threads (<[tid := T_exited]> (threads s)) s)
      end
  | Some (T_append sex filename) =>
      Some (with_threads
              (<[tid := T_process sex filename (length (output s))]> (threads s))
              (with_output (output s ++ [∅]) s))
  | Some (T_process sex filename i) =>
      match output s !! i with
      | None => None
      | Some out =>
          let '(st, r) :=
            process (param s) filename
              {| job_out := out; job_sex := sex; job_files := files s;
                 job_events := events s |} in
          let s' :=
            with_world (job_files st) (job_events st)
              (with_output (<[i := job_out st]> (output s)) s) in
          match r with
          | Raise e => Some (with_threads (<[tid := T_died filename i e]> (threads s)) s')
          | Ok _ =>
              match unfinished_tasks s with
              | O => Some (with_threads (<[tid := T_died filename i ValueError]> (threads s)) s')
              | S n =>
                  Some (with_threads (<[tid := T_get (job_sex st)]> (threads s))
                          (with_queue (extractQueue s) n s'))
              end
          end
      end
  | Some T_exited => None
  | Some (T_died _ _ _) => None
  | None => None
  end.

Definition step (a : action) (s : system) : option system :=
  match a with
  | Main => main_step s
  | Worker tid => worker_step tid s
  end.

Fixpoint run (schedule : list action) (s : system) : option system :=
  match schedule with
  | [] => Some s
  | a :: rest =>
      match step a s with
      | Some s' => run rest s'
      | None => None
      end
  end.

(** The state [extract_multiframe] is in when it reaches line 246, with the
    module's [extractQueue] as created at line 53. *)
Definition initial (names : list string) (p : params) (d : disk) (ev : list event) : system :=
  {| extractQueue := []; unfinished_tasks := 0; output := []; threads := [];
     main := C_populate names; filenames := names; param := p; files := d;
     events := ev |}.

Definition extract_multiframe_start
  (names : list string) (parameters : params) (d : disk) : option system :=
  match extract_multiframe_setup names parameters d with
  | Setup_ok ev p => Some (initial names p d ev)
  | Setup_raise _ _ => None
  | Setup_return_empty_dict _ => None
  end.

(** The states a call [extract_multiframe(names, parameters)] can be in. *)
Definition reachable (names : list string) (parameters : params) (d : disk) (s : system) : Prop :=
  exists s0 schedule,
    extract_multiframe_start names parameters d = Some s0 /\ run schedule s0 = Some s.

(** What [extract_multiframe] returns: [{}] (lines 204, 211) or [output]
    (line 281). *)
Inductive retval :=
| Ret_empty_dict
| Ret_output (o : list (gmap string outval)).

Definition returns (names : list string) (parameters : params) (d : disk) (v : retval) : Prop :=
  match v with
  | Ret_empty_dict =>
      exists ev, extract_multiframe_setup names parameters d = Setup_return_empty_dict ev
  | Ret_output o =>
      exists s, reachable names parameters d s /\ main s = C_returned /\ output s = o
  end.

(** ** The failures the specification names, as this script shows them

    The script has no exception classes of its own.  [EmptyBatch] is the
    [IndexError] of [filenames[0]] (line 194).  A failed telescope
    resolution is logged as critical and [extract_multiframe] returns [{}]
    (lines 199-204 and 208-211); the handler of the second case prints the
    module-level name [telescope] first, which is a [NameError] when the
    module was imported rather than run. *)
Inductive batch_failure :=
| MissingTelescopeTag
| UnknownTelescope.

Definition fails_with (r : setup) (b : batch_failure) : Prop :=
  match b, r with
  | MissingTelescopeTag, Setup_return_empty_dict ev =>
      exists first, Log_critical_no_tel_keyw first ∈ ev
  | UnknownTelescope, Setup_return_empty_dict ev =>
      exists g, Log_critical_unknown_telescope g ∈ ev
  | UnknownTelescope, Setup_raise _ NameError => module_telescope E = None
  | _, _ => False
  end.

Definition resolution_fails (parameters : params) (hdr : header) : Prop :=
  match telescope_of parameters hdr with
  | None => True
  | Some t => lookup_telescope t = None
  end.

(** The diameter string in the specification's words: twice each radius,
    joined by commas, in input order. *)
Definition diameters_spec (radii : list float) : string :=
  PyString.join "," ((fun r => str_float E (2 * r)%float) <$> radii).

(** Twice a number, as the specification says it of a radius; text has no
    double. *)
Definition twice (v : pyval) : option pyval :=
  match v with
  | PyInt z => Some (PyInt (2 * z))
  | PyFloat f => Some (PyFloat (2 * f)%float)
  | PyStr _ => None
  end.

(** [type(v) == float and v == 0] *)
Definition is_float_zero (v : pyval) : bool :=
  match v with
  | PyFloat f => (f =? 0)%float
  | _ => false
  end.

(** ** Set-up of a batch *)

Lemma not_reachable_without_start names parameters d :
  extract_multiframe_start names parameters d = None ->
  (forall s, ~ reachable names parameters d s)
  /\ (forall o, ~ returns names parameters d (Ret_output o)).
Proof.
  intros Hs. split.
  - intros s (s0 & sch & H0 & _). congruence.
  - intros o (s & (s0 & sch & H0 & _) & _). congruence.
Qed.

(** C7. The empty list of filenames: [filenames[0]] raises [IndexError]
    (the specification's EmptyBatch) right after the two log lines, before
    any image is opened, any telescope is looked up, or anything is queued;
    nothing is returned. *)
Theorem empty_batch_fails (parameters : params) (d : disk) :
  extract_multiframe_setup [] parameters d
    = Setup_raise [Log_info_extract_sources 0; Log_info_parameters] IndexError
  /\ extract_multiframe_start [] parameters d = None
  /\ (forall s, ~ reachable [] parameters d s)
  /\ (forall v, ~ returns [] parameters d v).
Proof.
  assert (Hs : extract_multiframe_start [] parameters d = None) by reflexivity.
  destruct (not_reachable_without_start _ _ _ Hs) as [Hr Ho].
  repeat split; try done.
  intros [|o]; [|apply Ho]. intros [ev Hev]. discriminate Hev.
Qed.

(** C6. When the telescope cannot be resolved, the batch ends in the
    set-up: with the critical log line of the failure and [return {}]
    (or, for an unknown telescope in an imported module, the [NameError] of
    the handler), no state of the queue or of a worker is ever reached and
    no output list is returned. *)
Theorem telescope_resolution_failure_aborts
  (first : string) (rest : list string) (parameters : params) (d : disk) (hdr : header) :
  fits_files d !! first = Some hdr ->
  resolution_fails parameters hdr ->
  (telescope_of parameters hdr = None ->
     fails_with (extract_multiframe_setup (first :: rest) parameters d) MissingTelescopeTag)
  /\ (is_Some (telescope_of parameters hdr) ->
     fails_with (extract_multiframe_setup (first :: rest) parameters d) UnknownTelescope)
  /\ extract_multiframe_start (first :: rest) parameters d = None
  /\ (forall s, ~ reachable (first :: rest) parameters d s)
  /\ (forall o, ~ returns (first :: rest) parameters d (Ret_output o)).
Proof.
  intros Hhdr Hfail. unfold resolution_fails in Hfail.
  assert (Hs : extract_multiframe_start (first :: rest) parameters d = None).
  { unfold extract_multiframe_start, extract_multiframe_setup. rewrite Hhdr.
    destruct (telescope_of parameters hdr) as [t|]; [|done].
    rewrite Hfail. by destruct (module_telescope E). }
  destruct (not_reachable_without_start _ _ _ Hs) as [Hr Ho].
  split; [|split; [|by auto]].
  - intros Hnone. unfold extract_multiframe_setup. rewrite Hhdr, Hnone. simpl.
    exists first. set_solver.
  - intros [t Ht]. rewrite Ht in Hfail.
    unfold extract_multiframe_setup. rewrite Hhdr, Ht, Hfail.
    destruct (module_telescope E) as [g|] eqn:Hg; simpl; [|done].
    exists g. set_solver.
Qed.

(** ** Aperture diameters *)

(** The diameter string of a batch, said without the statements of the
    script: the empty list and the float zero give twice the instrument's
    default, a single value; a list or an array of radii gives
    [diameters_spec] of its radii. *)
Definition aperture_diam_spec (aprad : aprad_value) (obs : obsparam) : option string :=
  match aprad with
  | ApList [] => py_str <$> twice (obs_aprad_default obs)
  | ApList l | ApNdarray l =>
      match mapM py_float l with
      | Ok radii => Some (diameters_spec radii)
      | Raise _ => None
      end
  | ApScalar v =>
      if is_float_zero v then py_str <$> twice (obs_aprad_default obs) else None
  end.

Lemma float_mul_comm (x y : float) : (x * y = y * x)%float.
Proof.
  apply Prim2SF_inj. rewrite !mul_spec. unfold SF64mul, SFmul.
  destruct (Prim2SF x) as [sx|sx| |sx mx ex], (Prim2SF y) as [sy|sy| |sy my ey];
    try reflexivity; rewrite (xorb_comm sx sy); try reflexivity.
  by rewrite (Pos.mul_comm mx my), (Z.add_comm ex ey).
Qed.

(** [x * 2] of a number is twice the number. *)
Lemma times2_twice (v w : pyval) : twice v = Some w -> times2 v = w.
Proof.
  destruct v as [x|z|f]; simpl; intros H; simplify_eq.
  - f_equal. lia.
  - by rewrite float_mul_comm.
Qed.

Lemma mapM_diameters (l : list pyval) :
  mapM (fun rad => try! r := py_float rad in Ok (str_float E (r * 2)%float)) l
  = try! radii := mapM py_float l in
    Ok ((fun r => str_float E (r * 2)%float) <$> radii).
Proof.
  induction l as [|rad l IH]; [done|]. simpl. rewrite IH.
  destruct (py_float rad); [|done]. simpl.
  by destruct (mapM py_float l).
Qed.

Lemma diameters_spec_join (radii : list float) :
  PyString.join "," ((fun r => str_float E (r * 2)%float) <$> radii)
  = diameters_spec radii.
Proof.
  unfold diameters_spec. f_equal. apply list_fmap_ext.
  intros _ r _. by rewrite float_mul_comm.
Qed.

Lemma prepare_aperture_diam parameters t obs hdr p :
  prepare parameters t obs hdr = Ok p ->
  exists aprad' diam,
    set_aperture_diam (par_aprad parameters) obs = Ok (aprad', diam)
    /\ par_aprad p = aprad' /\ par_aperture_diam p = Some diam.
Proof.
  unfold prepare. intros H.
  destruct (set_aperture_diam (par_aprad parameters) obs) as [[a s]|] eqn:Ha; [|done].
  simpl in H.
  destruct (read_binning obs hdr) as [b|]; [|done]. simpl in H.
  destruct (bin_string_of b); [|done]. simpl in H.
  injection H as <-. by exists a, s.
Qed.

(** X26. For a list or an array of radii that [float] reads, the diameter
    string is twice each radius, joined by commas in input order; for the
    empty list and for the float zero it is the single value twice the
    instrument's default, a number.  The set-up stores that string under
    ['aperture_diam'] and leaves ['aprad'] as it was. *)
Theorem aperture_diam_string (aprad : aprad_value) (obs : obsparam) (s : string) :
  aperture_diam_spec aprad obs = Some s ->
  set_aperture_diam aprad obs = Ok (aprad, s)
  /\ forall parameters t hdr p,
       par_aprad parameters = aprad ->
       prepare parameters t obs hdr = Ok p ->
       par_aperture_diam p = Some s /\ par_aprad p = aprad.
Proof.
  intros Hspec.
  assert (Hset : set_aperture_diam aprad obs = Ok (aprad, s)).
  { unfold set_aperture_diam, aperture_diam_spec in *.
    destruct aprad as [v|l|l].
    - destruct v as [x|z|f]; simpl in *; try done.
      destruct (f =? 0)%float; [|done].
      destruct (twice (obs_aprad_default obs)) as [w|] eqn:Hw; simplify_eq/=.
      by rewrite (times2_twice _ _ Hw).
    - destruct l as [|rad l].
      + destruct (twice (obs_aprad_default obs)) as [w|] eqn:Hw; simplify_eq/=.
        by rewrite (times2_twice _ _ Hw).
      + rewrite mapM_diameters.
        destruct (mapM py_float (rad :: l)) as [radii|]; simplify_eq/=.
        by rewrite diameters_spec_join.
    - rewrite mapM_diameters.
      destruct (mapM py_float l) as [radii|]; simplify_eq/=.
      by rewrite diameters_spec_join. }
  split; [done|].
  intros parameters t hdr p Hap Hp.
  destruct (prepare_aperture_diam _ _ _ _ _ Hp) as (a & diam & Hs & Ha & Hd).
  rewrite Hap, Hset in Hs. by simplify_eq.
Qed.

(** C10, as the script has it.  A scalar radius other than the float zero
    is replaced by the one-element list of its [str], and the diameter
    string is that of this list: twice the number [float] reads from the
    text, or the [ValueError] of [float] when it cannot read it.  When the
    text reads back as the number the scalar stands for, the string is
    twice the scalar. *)
Theorem scalar_aprad_is_wrapped (v : pyval) (obs : obsparam) :
  is_float_zero v = false ->
  set_aperture_diam (ApScalar v) obs
  = match float_str E (py_str v) with
    | Some y => Ok (ApList [PyStr (py_str v)], diameters_spec [y])
    | None => Raise ValueError
    end
  /\ forall x,
       py_float v = Ok x ->
       float_str E (py_str v) = Some x ->
       set_aperture_diam (ApScalar v) obs
       = Ok (ApList [PyStr (py_str v)], diameters_spec [x]).
Proof.
  intros Hz.
  assert (Hset : set_aperture_diam (ApScalar v) obs
                 = match float_str E (py_str v) with
                   | Some y => Ok (ApList [PyStr (py_str v)], diameters_spec [y])
                   | None => Raise ValueError
                   end).
  { unfold set_aperture_diam, diameters_spec.
    destruct v as [x|z|f]; simpl in *; rewrite ?Hz; simpl;
      match goal with |- context [float_str E ?t] => destruct (float_str E t) end;
      simpl; by rewrite 1?float_mul_comm. }
  split; [done|]. intros x _ Hx. by rewrite Hset, Hx.
Qed.

(** ** Binning and mask *)

(** A binning key with an underscore but without ["_blank"] assigns
    neither [binning_x] nor [binning_y], and line 239 raises. *)
Lemma binning_unassigned (obs : obsparam) (hdr : header) :
  PyString.contains "_" (fst (obs_binning obs)) = true ->
  PyString.contains "_blank" (fst (obs_binning obs)) = false ->
  read_binning obs hdr = Ok None
  /\ (try! b := read_binning obs hdr in bin_string_of b) = Raise UnboundLocalError.
Proof.
  intros H1 H2. unfold read_binning. by rewrite H1, H2.
Qed.

(** With keys read directly, the mask file of the set-up is the entry of
    the instrument's mapping for ['%d,%d' % (binning_x, binning_y)], if
    there is one, and is left alone otherwise. *)
Lemma direct_binning_mask parameters t obs hdr p cx cy x y :
  PyString.contains "_" (fst (obs_binning obs)) = false ->
  hdr !! fst (obs_binning obs) = Some cx ->
  hdr !! snd (obs_binning obs) = Some cy ->
  format_d (card_value cx) = Ok x ->
  format_d (card_value cy) = Ok y ->
  prepare parameters t obs hdr = Ok p ->
  par_mask_file p
  = match obs_mask_file obs !! (x +:+ "," +:+ y) with
    | Some mask_file => Some mask_file
    | None => par_mask_file parameters
    end.
Proof.
  intros Hu Hx Hy Hfx Hfy. unfold prepare, read_binning, header_get.
  rewrite Hu, Hx, Hy. simpl. rewrite Hfx, Hfy. simpl.
  destruct (set_aperture_diam (par_aprad parameters) obs); [|done]. simpl.
  intros H. by simplify_eq.
Qed.

(** ** Observation mid-time *)

Local Arguments Ascii.eqb : simpl never.











(** Runs the statements of [process] in a hypothesis, one case per way
    through them. *)
Ltac run_process H :=
  unfold process, job_bind, set_out, set_files, get_files, get_sex, set_sex,
    lift, emit, job_ret, header_setitem in H;
  simpl in H;
  repeat (case_match; simplify_eq/=).

Lemma of_option_Ok {A} e (o : option A) a : of_option e o = Ok a -> o = Some a.
Proof. destruct o; simpl; congruence. Qed.



(** ** The queue and the threads: what holds in every state *)

(** The filename a thread has taken from the queue and not marked done. *)
Definition holds (t : thread) : list string :=
  match t with
  | T_append _ filename => [filename]
  | T_process _ filename _ => [filename]
  | T_died filename _ _ => [filename]
  | T_get _ => []
  | T_exited => []
  end.

Definition in_flight (ts : list thread) : list string := ts ≫= holds.

(** The index of the [out] a thread appended to the output list. *)
Definition slot (t : thread) : list nat :=
  match t with
  | T_process _ _ i => [i]
  | T_died _ i _ => [i]
  | T_append _ _ => []
  | T_get _ => []
  | T_exited => []
  end.

(** The frames whose success was logged (line 170). *)
Definition logged (e : event) : list string :=
  match e with
  | Log_info_extracted _ filename => [filename]
  | _ => []
  end.

Definition extracted (ev : list event) : list string := ev ≫= logged.

Definition to_put (c : coordinator) : list string :=
  match c with
  | C_populate rest => rest
  | _ => []
  end.

Record invariant (s : system) : Prop := {
  inv_unfinished :
    unfinished_tasks s
    = (length (extractQueue s) + length (in_flight (threads s)))%nat;
  inv_files :
    filenames s
    ≡ₚ to_put (main s) ++ extractQueue s ++ in_flight (threads s)
       ++ extracted (events s);
  inv_returned : main s = C_returned -> unfinished_tasks s = 0%nat;
  inv_output :
    length (output s)
    = (length (threads s ≫= slot) + length (extracted (events s)))%nat;
  inv_slot_bound :
    forall tid t i, threads s !! tid = Some t -> i ∈ slot t ->
                    (i < length (output s))%nat;
  inv_slot_inj :
    forall a b ta tb i,
      threads s !! a = Some ta -> threads s !! b = Some tb ->
      i ∈ slot ta -> i ∈ slot tb -> a = b;
  inv_died :
    forall tid filename i e,
      threads s !! tid = Some (T_died filename i e) ->
      exists out, output s !! i = Some out
                  /\ out !! "fits_filename" = Some (OStr filename);
}.

Lemma bind_insert {A B} (g : A -> list B) (l : list A) (i : nat) (x y : A) :
  l !! i = Some x ->
  exists l1 l2, l ≫= g = l1 ++ g x ++ l2 /\ <[i:=y]> l ≫= g = l1 ++ g y ++ l2.
Proof.
  intros Hx. exists (take i l ≫= g), (drop (S i) l ≫= g). split.
  - rewrite <- (take_drop_middle l i x) at 1 by done.
    by rewrite bind_app, bind_cons.
  - rewrite insert_take_drop by (by eapply lookup_lt_Some).
    by rewrite bind_app, bind_cons.
Qed.

Lemma process_logged param filename st st' r :
  process param filename st = (st', r) ->
  extracted (job_events st')
  = extracted (job_events st) ++ match r with Ok _ => [filename] | Raise _ => [] end.
Proof.
  intros H. unfold extracted. run_process H;
    rewrite ?bind_app, ?bind_cons; simpl; by rewrite ?app_nil_r.
Qed.

Lemma process_fits_filename param filename st st' r :
  process param filename st = (st', r) ->
  job_out st' !! "fits_filename" = Some (OStr filename).
Proof.
  intros H. run_process H;
    by repeat (first [apply lookup_insert_eq | rewrite lookup_insert_ne by done]).
Qed.

Lemma initial_invariant names p d ev :
  extracted ev = [] -> invariant (initial names p d ev).
Proof.
  intros Hev. split; simpl; try done.
  - by rewrite Hev, app_nil_r.
  - by rewrite Hev.
Qed.
Lemma main_step_invariant s s' :
  invariant s -> main_step s = Some s' -> invariant s'.
Proof.
  intros [Hu Hf Hr Ho Hb Hi Hd]. unfold main_step.
  destruct (main s) as [[|filename rest]|[|n]| |] eqn:Hm; intros Hs;
    simplify_eq/=.
  - split; simpl; try done.
  - case_match; simplify_eq; [|by split; rewrite ?Hm].
    split; simpl; try done.
    + rewrite Hu, length_app. simpl. lia.
    + rewrite Hf. simpl. solve_Permutation.
  - split; simpl; try done.
  - split; simpl; try done.
    + unfold in_flight in *. rewrite bind_app. simpl. by rewrite app_nil_r.
    + unfold in_flight in *. rewrite bind_app. simpl. by rewrite app_nil_r, Hf.
    + rewrite bind_app. simpl. by rewrite app_nil_r.
    + intros tid t i [[_ Ht]|[_ <-]]%lookup_snoc_Some Hin; [eauto|].
      by apply elem_of_nil in Hin.
    + intros a b ta tb i [[_ Ha]|[_ <-]]%lookup_snoc_Some
        [[_ Hb']|[_ <-]]%lookup_snoc_Some Hia Hib;
        try (by apply elem_of_nil in Hia); try (by apply elem_of_nil in Hib).
      eauto.
    + intros tid filename i e [[_ Ht]|[_ ?]]%lookup_snoc_Some; [eauto|done].
  - destruct (unfinished_tasks s) eqn:Hn; simplify_eq.
    split; simpl; try done.
    by rewrite Hn.
Qed.
Lemma slot_bound_insert (ts : list thread) (k n n' : nat) (t' : thread) :
  (forall tid t i, ts !! tid = Some t -> i ∈ slot t -> (i < n)%nat) ->
  (forall i, i ∈ slot t' -> (i < n')%nat) ->
  (n <= n')%nat ->
  forall tid t i, <[k:=t']> ts !! tid = Some t -> i ∈ slot t -> (i < n')%nat.
Proof.
  intros Hb Hnew Hle tid t i [(-> & <- & _)|[_ Ht]]%list_lookup_insert_Some Hi.
  - by apply Hnew.
  - specialize (Hb _ _ _ Ht Hi). lia.
Qed.

Lemma slot_inj_insert (ts : list thread) (k : nat) (t0 t' : thread) :
  (forall a b ta tb i,
      ts !! a = Some ta -> ts !! b = Some tb ->
      i ∈ slot ta -> i ∈ slot tb -> a = b) ->
  ts !! k = Some t0 ->
  (forall i, i ∈ slot t' ->
             i ∈ slot t0 \/ forall b tb, ts !! b = Some tb -> i ∉ slot tb) ->
  forall a b ta tb i,
    <[k:=t']> ts !! a = Some ta -> <[k:=t']> ts !! b = Some tb ->
    i ∈ slot ta -> i ∈ slot tb -> a = b.
Proof.
  intros Hinj Hk Hnew a b ta tb i
    [(-> & <- & _)|[Ha Hta]]%list_lookup_insert_Some
    [(-> & <- & _)|[Hb Htb]]%list_lookup_insert_Some Hia Hib; try done.
  - destruct (Hnew _ Hia) as [H0|Hfresh].
    + by apply (Hinj _ _ _ _ _ Hk Htb H0 Hib).
    + by destruct (Hfresh _ _ Htb).
  - destruct (Hnew _ Hib) as [H0|Hfresh].
    + by apply (Hinj _ _ _ _ _ Hta Hk Hia H0).
    + by destruct (Hfresh _ _ Hta).
  - by apply (Hinj _ _ _ _ _ Hta Htb Hia Hib).
Qed.

Lemma worker_step_invariant tid s s' :
  invariant s -> worker_step tid s = Some s' -> invariant s'.
Proof.
  intros [Hu Hf Hr Ho Hb Hi Hd]. unfold worker_step.
  destruct (threads s !! tid) as [t|] eqn:Ht; [|done].
  destruct (bind_insert holds _ _ _ T_exited Ht) as (h1 & h2 & Hh & _).
  destruct (bind_insert slot _ _ _ T_exited Ht) as (k1 & k2 & Hk & _).
  unfold in_flight in *.
  destruct t as [sex|sex filename|sex filename i| |]; [| | |done|done].
  - (* extractQueue.get(True,1) *)
    destruct (extractQueue s) as [|filename q] eqn:Hq; intros ?; simplify_eq.
    + destruct (bind_insert holds _ _ _ T_exited Ht) as (h1' & h2' & Hh1 & Hh2).
      destruct (bind_insert slot _ _ _ T_exited Ht) as (k1' & k2' & Hk1 & Hk2).
      simpl in Hh1, Hh2, Hk1, Hk2.
      split; simpl; unfold in_flight; rewrite ?Hq, ?Hh2, ?Hk2, <- ?Hh1, <- ?Hk1; try done.
      * apply (slot_bound_insert _ _ _ _ _ Hb); [by intros ? ?%elem_of_nil|lia].
      * apply (slot_inj_insert _ _ _ _ Hi Ht); by intros ? ?%elem_of_nil.
      * intros tid' f' i' e' [(_ & ? & _)|[_ Ht']]%list_lookup_insert_Some;
          [done|eauto].
    + destruct (bind_insert holds _ _ _ (T_append sex filename) Ht)
        as (h1' & h2' & Hh1 & Hh2).
      destruct (bind_insert slot _ _ _ (T_append sex filename) Ht)
        as (k1' & k2' & Hk1 & Hk2).
      simpl in Hh1, Hh2, Hk1, Hk2.
      split; simpl; unfold in_flight; rewrite ?Hh2, ?Hk2, <- ?Hk1; try done.
      * rewrite Hu, Hh1, !length_app. simpl. lia.
      * rewrite Hf, Hh1. simpl. solve_Permutation.
      * apply (slot_bound_insert _ _ _ _ _ Hb); [by intros ? ?%elem_of_nil|lia].
      * apply (slot_inj_insert _ _ _ _ Hi Ht); by intros ? ?%elem_of_nil.
      * intros tid' f' i' e' [(_ & ? & _)|[_ Ht']]%list_lookup_insert_Some;
          [done|eauto].
  - (* self.output.append(out) *)
    intros ?; simplify_eq.
    destruct (bind_insert holds _ _ _ (T_process sex filename (length (output s))) Ht)
      as (h1' & h2' & Hh1 & Hh2).
    destruct (bind_insert slot _ _ _ (T_process sex filename (length (output s))) Ht)
      as (k1' & k2' & Hk1 & Hk2).
      simpl in Hh1, Hh2, Hk1, Hk2.
    split; simpl; unfold in_flight; rewrite ?Hh2, ?Hk2; try done.
    + by rewrite Hu, Hh1.
    + by rewrite Hf, Hh1.
    + rewrite length_app, Ho, Hk1, !length_app. simpl. lia.
    + apply (slot_bound_insert _ _ _ _ _ Hb).
      * intros i ->%list_elem_of_singleton. rewrite length_app. simpl. lia.
      * rewrite length_app. lia.
    + apply (slot_inj_insert _ _ _ _ Hi Ht).
      intros i ->%list_elem_of_singleton. right. intros b tb Hb' Hin.
      specialize (Hb _ _ _ Hb' Hin). lia.
    + intros tid' f' i' e' [(_ & ? & _)|[_ Ht']]%list_lookup_insert_Some; [done|].
      destruct (Hd _ _ _ _ Ht') as (out & Hout & Hname).
      exists out. split; [|done]. by apply lookup_app_l_Some.
  - (* the frame is processed; extractQueue.task_done() *)
    assert (Hlt : (i < length (output s))%nat).
    { eapply Hb; [done|]. simpl. set_solver. }
    destruct (output s !! i) as [out|] eqn:Hout; [|done].
    destruct (process (param s) filename _) as [st r] eqn:Hp.
    pose proof (process_logged _ _ _ _ _ Hp) as Hlog. simpl in Hlog.
    pose proof (process_fits_filename _ _ _ _ _ Hp) as Hname.
    assert (Hother :
      forall tid' f' i' e',
        tid' <> tid -> threads s !! tid' = Some (T_died f' i' e') ->
        exists o, <[i:=job_out st]> (output s) !! i' = Some o
                  /\ o !! "fits_filename" = Some (OStr f')).
    { intros tid' f' i' e' Hne Ht'.
      destruct (Hd _ _ _ _ Ht') as (o & Ho' & Hn'). exists o. split; [|done].
      rewrite list_lookup_insert_ne; [done|]. intros Heq. apply Hne.
      apply (Hi _ _ _ _ i Ht' Ht); simpl; set_solver. }
    destruct r as [[]|e].
    + destruct (unfinished_tasks s) as [|n] eqn:Hn.
      { rewrite Hh in Hu. rewrite !length_app in Hu. simpl in Hu. lia. }
      intros ?; simplify_eq.
      destruct (bind_insert holds _ _ _ (T_get (job_sex st)) Ht)
        as (h1' & h2' & Hh1 & Hh2).
      destruct (bind_insert slot _ _ _ (T_get (job_sex st)) Ht)
        as (k1' & k2' & Hk1 & Hk2).
      simpl in Hh1, Hh2, Hk1, Hk2.
      split; simpl; unfold in_flight; rewrite ?Hh2, ?Hk2, ?Hlog, ?length_insert; try done.
      * rewrite Hh1, !length_app in Hu. rewrite length_app. simpl in *. lia.
      * rewrite Hf, Hh1. simpl. solve_Permutation.
      * intros Hret. specialize (Hr Hret). done.
      * rewrite Ho, Hk1, !length_app. simpl. lia.
      * apply (slot_bound_insert _ _ _ _ _ Hb); [by intros ? ?%elem_of_nil|lia].
      * apply (slot_inj_insert _ _ _ _ Hi Ht); by intros ? ?%elem_of_nil.
      * intros tid' f' i' e' [(_ & ? & _)|[Hne Ht']]%list_lookup_insert_Some;
          [done|by eauto].
    + intros ?; simplify_eq.
      destruct (bind_insert holds _ _ _ (T_died filename i e) Ht)
        as (h1' & h2' & Hh1 & Hh2).
      destruct (bind_insert slot _ _ _ (T_died filename i e) Ht)
        as (k1' & k2' & Hk1 & Hk2).
      simpl in Hh1, Hh2, Hk1, Hk2.
      split; simpl; unfold in_flight; rewrite ?Hh2, ?Hk2, ?Hlog, ?app_nil_r, ?length_insert,
        <- ?Hh1, <- ?Hk1; try done.
      * apply (slot_bound_insert _ _ _ _ _ Hb); [|lia].
        intros ? ->%list_elem_of_singleton. done.
      * apply (slot_inj_insert _ _ _ _ Hi Ht). intros ? Hin. by left.
      * intros tid' f' i' e' [(-> & ? & _)|[Hne Ht']]%list_lookup_insert_Some;
          [|by eauto].
        simplify_eq. exists (job_out st). split; [|done].
        by apply list_lookup_insert_eq.
Qed.

Lemma step_invariant a s s' : invariant s -> step a s = Some s' -> invariant s'.
Proof.
  destruct a as [|tid]; simpl; eauto using main_step_invariant, worker_step_invariant.
Qed.

Lemma run_invariant schedule s s' :
  invariant s -> run schedule s = Some s' -> invariant s'.
Proof.
  revert s. induction schedule as [|a schedule IH]; simpl; intros s Hs H.
  - by simplify_eq.
  - destruct (step a s) as [s1|] eqn:Hstep; [|done].
    eauto using step_invariant.
Qed.

Lemma step_filenames a s s' : step a s = Some s' -> filenames s' = filenames s.
Proof.
  destruct a as [|tid]; simpl.
  - unfold main_step. intros H. repeat (case_match; simplify_eq/=); done.
  - unfold worker_step. intros H. repeat (case_match; simplify_eq/=); done.
Qed.

Lemma run_filenames schedule s s' :
  run schedule s = Some s' -> filenames s' = filenames s.
Proof.
  revert s. induction schedule as [|a schedule IH]; simpl; intros s H.
  - by simplify_eq.
  - destruct (step a s) as [s1|] eqn:Hstep; [|done].
    rewrite (IH _ H). by eapply step_filenames.
Qed.

Lemma setup_ok_events names parameters d ev p :
  extract_multiframe_setup names parameters d = Setup_ok ev p ->
  ev = [Log_info_extract_sources (length names); Log_info_parameters].
Proof.
  unfold extract_multiframe_setup. intros H.
  repeat (case_match; simplify_eq/=); done.
Qed.

Lemma reachable_invariant names parameters d s :
  reachable names parameters d s -> invariant s /\ filenames s = names.
Proof.
  intros (s0 & schedule & Hstart & Hrun).
  unfold extract_multiframe_start in Hstart.
  destruct (extract_multiframe_setup names parameters d) as [| |ev p] eqn:Hsetup;
    simplify_eq.
  apply setup_ok_events in Hsetup as ->. split.
  - eapply run_invariant; [|done]. by apply initial_invariant.
  - by rewrite (run_filenames _ _ _ Hrun).
Qed.

Lemma slot_le_holds (ts : list thread) :
  (length (ts ≫= slot) <= length (ts ≫= holds))%nat.
Proof.
  induction ts as [|t ts IH]; [done|].
  rewrite !bind_cons, !length_app. destruct t; simpl; lia.
Qed.

(** C2. When [extract_multiframe] has returned, the queue holds no item,
    [unfinished_tasks] is zero, no worker holds a filename it took from the
    queue, and the frames whose success was logged (the log line of the
    statement before [task_done]) are exactly the filenames of the batch. *)
Theorem queue_drained_at_return names parameters d s :
  reachable names parameters d s ->
  main s = C_returned ->
  extractQueue s = []
  /\ unfinished_tasks s = 0%nat
  /\ in_flight (threads s) = []
  /\ extracted (events s) ≡ₚ names.
Proof.
  intros [[Hu Hf Hr Ho Hb Hi Hd] Hnames]%reachable_invariant Hret.
  specialize (Hr Hret). rewrite Hr in Hu.
  assert (Hq : extractQueue s = []).
  { apply length_zero_iff_nil. lia. }
  assert (Hfl : in_flight (threads s) = []).
  { apply length_zero_iff_nil. lia. }
  repeat split; try done.
  by rewrite <- Hnames, Hf, Hret, Hq, Hfl.
Qed.

(** X25. A frame whose processing raised has its [out] in the output
    list, with its filename in it, and the batch has not returned; the
    output list never has more records than the batch has filenames, and
    has exactly as many when the batch returns. *)
Theorem failed_frame_keeps_its_record names parameters d s :
  reachable names parameters d s ->
  (forall tid filename i e,
      threads s !! tid = Some (T_died filename i e) ->
      (exists out, output s !! i = Some out
                   /\ out !! "fits_filename" = Some (OStr filename))
      /\ main s <> C_returned)
  /\ (length (output s) <= length names)%nat
  /\ (main s = C_returned -> length (output s) = length names).
Proof.
  intros [[Hu Hf Hr Ho Hb Hi Hd] Hnames]%reachable_invariant.
  pose proof (slot_le_holds (threads s)) as Hle.
  apply Permutation_length in Hf. rewrite Hnames, !length_app in Hf.
  unfold in_flight in *.
  split; [|split].
  - intros tid filename i e Ht. split; [by eauto|].
    intros Hret. specialize (Hr Hret).
    destruct (bind_insert holds _ _ _ T_exited Ht) as (h1 & h2 & Hh & _).
    rewrite Hh, !length_app in Hu. simpl in Hu. lia.
  - lia.
  - intros Hret. specialize (Hr Hret). rewrite Hret in Hf. simpl in Hf. lia.
Qed.

(** ** A tool that leaves no catalog *)

Lemma process_fails_without_catalog param filename st st' r :
  (forall c, Popen_launches E c = true -> sex_writes E c = None) ->
  process param filename st = (st', r) ->
  exists e, r = Raise e.
Proof.
  intros Hnone H. run_process H; eauto;
    try match goal with
        | H1 : Popen_launches E ?c = true, H2 : sex_writes E ?c = Some _ |- _ =>
            rewrite (Hnone _ H1) in H2; discriminate H2
        end;
    unfold read_ldac in *; simpl in *;
    match goal with
    | H : of_option _ (delete ?k ?m !! ?k) = Ok _ |- _ =>
        rewrite lookup_delete_eq in H; discriminate H
    end.
Qed.

Lemma step_never_logged a s s' :
  (forall c, Popen_launches E c = true -> sex_writes E c = None) ->
  step a s = Some s' -> extracted (events s') = extracted (events s).
Proof.
  intros Hnone. destruct a as [|tid]; simpl.
  - unfold main_step. intros H. repeat (case_match; simplify_eq/=); done.
  - unfold worker_step. intros H.
    destruct (threads s !! tid) as [[sex|sex f|sex f i| |]|]; simplify_eq/=;
      try (repeat (case_match; simplify_eq/=); done).
    destruct (output s !! i) as [out|]; [|done].
    destruct (process (param s) f _) as [st r] eqn:Hp.
    destruct (process_fails_without_catalog _ _ _ _ _ Hnone Hp) as [e ->].
    apply process_logged in Hp. simpl in Hp. rewrite app_nil_r in Hp.
    by simplify_eq/=.
Qed.

(** If the tool never leaves a catalog (it cannot be launched, or writes
    none), nothing is ever logged as extracted and a batch of at least one
    filename never returns. *)
Lemma no_catalog_no_return names parameters d s :
  (forall c, Popen_launches E c = true -> sex_writes E c = None) ->
  names <> [] ->
  reachable names parameters d s ->
  extracted (events s) = [] /\ main s <> C_returned.
Proof.
  intros Hnone Hne Hreach.
  assert (Hex : extracted (events s) = []).
  { destruct Hreach as (s0 & schedule & Hstart & Hrun).
    unfold extract_multiframe_start in Hstart.
    destruct (extract_multiframe_setup names parameters d) as [| |ev p] eqn:Hsetup;
      simplify_eq.
    apply setup_ok_events in Hsetup as ->.
    remember (initial _ _ _ _) as s0 eqn:Hs0.
    assert (H0 : extracted (events s0) = []) by by subst.
    clear Hs0. revert s0 H0 Hrun.
    induction schedule as [|a schedule IH]; simpl; intros s0 H0 Hrun.
    - by simplify_eq.
    - destruct (step a s0) as [s1|] eqn:Hstep; [|done].
      apply (IH s1); [|done].
      by rewrite (step_never_logged _ _ _ Hnone Hstep). }
  split; [done|]. intros Hret.
  apply reachable_invariant in Hreach as [[Hu Hf Hr _ _ _ _] Hnames].
  specialize (Hr Hret). rewrite Hr in Hu.
  apply Permutation_length in Hf.
  rewrite Hnames, Hret, Hex, !length_app in Hf. simpl in Hf.
  destruct names; [done|]. simpl in Hf. lia.
Qed.

End Extract.

(** * Concrete batches

    An instrument, two frames and stand-ins for what [environment] leaves
    open, on which the script can be run. *)

(** [str] of a float, right on the integral values below 1e12. *)
Definition demo_str_float (f : float) : string :=
  match trunc_float f with
  | Some z => pretty z +:+ ".0"
  | None => "nan"
  end.

(** [float] of the few strings the examples use. *)
Definition demo_float_str (s : string) : option float :=
  (list_to_map
     [("2", 2%float); ("3", 3%float); ("3.0", 3%float); ("4", 4%float);
      ("5.0", 5%float)] : gmap string float) !! s.

Definition demo_float_int (z : Z) : option float :=
  if (0 <=? z) && (z <? 2 ^ 53) then Some (PrimFloat.of_uint63 (Uint63.of_Z z))
  else None.

Definition demo_dateobs_to_jd (v : pyval) : res float :=
  match v with
  | PyStr s =>
      if String.eqb s "2016-01-01T00:00:00" then Ok 2457388.5%float
      else Raise ValueError
  | _ => Raise TypeError
  end.

Definition demo_obs (binning : string * string) (date_keyword : string) : obsparam :=
  {| obs_aprad_default := PyFloat 5;
     obs_binning := binning;
     obs_mask_file := {["2,2" := "mask_2x2.fits"]};
     obs_obsmidtime_jd := "MIDTIMJD";
     obs_date_keyword := date_keyword;
     obs_exptime := "EXPTIME";
     obs_sex_config_file := "demo.sex" |}.

Definition demo_telescopes : gmap string obsparam :=
  {[ "DEMO" := demo_obs ("CCDBIN1", "CCDBIN2") "DATE-OBS";
     "DEMO2" := demo_obs ("BIN_X", "BIN_Y") "DATE-OBS";
     "DEMO3" := demo_obs ("CCDSUM_blank0", "CCDSUM_blank1") "DATE|UT" ]}.

(** A card takes every integer and string and the floats that are finite. *)
Definition demo_header_accepts (v : pyval) : bool :=
  match v with
  | PyFloat f => negb (PrimFloat.is_nan f) && negb (PrimFloat.is_infinity f)
  | _ => true
  end.

Definition demo_env (launches : string -> bool) (writes : string -> option catalog)
  : environment :=
  {| telescope_parameters := demo_telescopes;
     module_telescope := Some None;
     dateobs_to_jd := demo_dateobs_to_jd;
     float_str := demo_float_str;
     float_int := demo_float_int;
     str_float := demo_str_float;
     format_f := fun f => demo_str_float f +:+ "00000";
     Popen_launches := launches;
     sex_writes := writes;
     header_accepts := demo_header_accepts |}.

Definition demo_card (v : pyval) : card := {| card_value := v; card_comment := "" |}.

Definition demo_header : header :=
  list_to_map
    [("TEL_KEYW", demo_card (PyStr "DEMO"));
     ("CCDBIN1", demo_card (PyInt 2)); ("CCDBIN2", demo_card (PyInt 2));
     ("BIN_X", demo_card (PyInt 2)); ("BIN_Y", demo_card (PyInt 2));
     ("CCDSUM", demo_card (PyStr "2 2"));
     ("DATE-OBS", demo_card (PyStr "2016-01-01T00:00:00"));
     ("DATE", demo_card (PyStr "2016-01-01"));
     ("UT", demo_card (PyStr "00:00:00"));
     ("EXPTIME", demo_card (PyFloat 172800))].

Definition demo_disk : disk :=
  {| fits_files := {[ "a.fits" := demo_header; "b.fits" := demo_header;
                      "image.fts" := demo_header ]};
     ldac_files := ∅ |}.

Definition demo_parameters (telescope : option pyval) (aprad : aprad_value) : params :=
  {| par_telescope := telescope; par_aprad := aprad;
     par_sex_snr := 2; par_source_minarea := 3; par_quiet := true;
     par_paramfile := None; par_obsparam := None; par_aperture_diam := None;
     par_mask_file := None |}.

Definition demo_catalog : catalog := {| data := [[PyFloat 1]; [PyFloat 2]] |}.

(** The tool runs and leaves a catalog of two sources. *)
Definition env_ok : environment := demo_env (fun _ => true) (fun _ => Some demo_catalog).

(** The tool runs and leaves no catalog. *)
Definition env_no_catalog : environment := demo_env (fun _ => true) (fun _ => None).

(** The tool cannot be launched. *)
Definition env_no_launch : environment :=
  demo_env (fun _ => false) (fun _ => Some demo_catalog).

(** The tool can be launched on ["a.fits"] only. *)
Definition env_launch_a : environment :=
  demo_env (PyString.contains "a.fits") (fun _ => Some demo_catalog).

Definition demo_batch : params := demo_parameters None (ApList [PyFloat 3; PyFloat 5]).

(** The state of the batch after the steps of [schedule], if they can all
    be taken. *)
Definition demo_state (env : environment) (names : list string) (schedule : list action)
  : option system :=
  match extract_multiframe_start env names demo_batch demo_disk with
  | Some s0 => run env schedule s0
  | None => None
  end.

Definition the_state (o : option system) : system :=
  default (initial [] demo_batch demo_disk []) o.

(** Both filenames are queued, two threads are started, each takes one
    frame; the thread of ["b.fits"] appends its [out] first. *)
Definition two_frames : list action :=
  [Main; Main; Main; Main; Main; Main;
   Worker 0; Worker 1; Worker 1; Worker 0; Worker 0; Worker 1].

(** Both filenames are queued, two threads are started, the first one
    takes both frames in turn. *)
Definition one_worker : list action :=
  [Main; Main; Main; Main; Main; Main;
   Worker 0; Worker 0; Worker 0; Worker 0; Worker 0; Worker 0].

Definition returned_state : system :=
  the_state (demo_state env_ok ["a.fits"; "b.fits"] (two_frames ++ [Main])).

Definition no_catalog_state : system :=
  the_state (demo_state env_no_catalog ["a.fits"; "b.fits"] two_frames).

Definition no_launch_state : system :=
  the_state (demo_state env_no_launch ["a.fits"; "b.fits"]
               [Main; Main; Main; Main; Main; Main; Worker 0; Worker 0; Worker 0]).

Definition stale_sex_state : system :=
  the_state (demo_state env_launch_a ["a.fits"; "b.fits"] one_worker).

(** The state in which the worker of the first example has appended its
    [out] for ["a.fits"], and the set-up's parameters. *)
Definition demo_prepared : params :=
  match extract_multiframe_setup env_ok ["a.fits"] demo_batch demo_disk with
  | Setup_ok _ p => p
  | _ => demo_batch
  end.

Definition demo_job : job_state :=
  {| job_out := ∅; job_sex := None; job_files := demo_disk; job_events := [] |}.

Lemma demo_state_reachable env names schedule s :
  demo_state env names schedule = Some s ->
  reachable env names demo_batch demo_disk s.
Proof.
  unfold demo_state, reachable. intros H.
  destruct (extract_multiframe_start env names demo_batch demo_disk) as [s0|];
    [|done].
  by exists s0, schedule.
Qed.


(** ** The claims on these batches *)

Lemma telescope_resolution_failure_witness :
  fits_files demo_disk !! "a.fits" = Some demo_header
  /\ resolution_fails env_ok (demo_parameters (Some (PyStr "NOPE")) (ApList [])) demo_header
  /\ fails_with env_ok
       (extract_multiframe_setup env_ok ["a.fits"; "b.fits"]
          (demo_parameters (Some (PyStr "NOPE")) (ApList [])) demo_disk)
       UnknownTelescope
  /\ extract_multiframe_start env_ok ["a.fits"; "b.fits"]
       (demo_parameters (Some (PyStr "NOPE")) (ApList [])) demo_disk = None.
Proof.
  assert (H1 : fits_files demo_disk !! "a.fits" = Some demo_header)
    by (vm_compute; reflexivity).
  assert (H2 : resolution_fails env_ok
                 (demo_parameters (Some (PyStr "NOPE")) (ApList [])) demo_header)
    by (vm_compute; reflexivity).
  destruct (telescope_resolution_failure_aborts env_ok "a.fits" ["b.fits"] _ _ _ H1 H2)
    as (_ & Hunknown & Hstart & _).
  split; [exact H1|]. split; [exact H2|]. split; [|exact Hstart].
  apply Hunknown. eexists. reflexivity.
Defined.

Lemma aperture_diam_string_witness :
  aperture_diam_spec env_ok (ApList [PyFloat 3; PyFloat 5])
    (demo_obs ("CCDBIN1", "CCDBIN2") "DATE-OBS") = Some "6.0,10.0"
  /\ set_aperture_diam env_ok (ApList [PyFloat 3; PyFloat 5])
       (demo_obs ("CCDBIN1", "CCDBIN2") "DATE-OBS")
     = Ok (ApList [PyFloat 3; PyFloat 5], "6.0,10.0")
  /\ aperture_diam_spec env_ok (ApList []) (demo_obs ("CCDBIN1", "CCDBIN2") "DATE-OBS")
     = Some "10.0"
  /\ set_aperture_diam env_ok (ApList []) (demo_obs ("CCDBIN1", "CCDBIN2") "DATE-OBS")
     = Ok (ApList [], "10.0")
  /\ aperture_diam_spec env_ok (ApNdarray [PyInt 4; PyStr "3.0"])
       (demo_obs ("CCDBIN1", "CCDBIN2") "DATE-OBS") = Some "8.0,6.0"
  /\ set_aperture_diam env_ok (ApNdarray [PyInt 4; PyStr "3.0"])
       (demo_obs ("CCDBIN1", "CCDBIN2") "DATE-OBS")
     = Ok (ApNdarray [PyInt 4; PyStr "3.0"], "8.0,6.0").
Proof.
  assert (H1 : aperture_diam_spec env_ok (ApList [PyFloat 3; PyFloat 5])
                 (demo_obs ("CCDBIN1", "CCDBIN2") "DATE-OBS") = Some "6.0,10.0")
    by (vm_compute; reflexivity).
  assert (H2 : aperture_diam_spec env_ok (ApList [])
                 (demo_obs ("CCDBIN1", "CCDBIN2") "DATE-OBS") = Some "10.0")
    by (vm_compute; reflexivity).
  assert (H3 : aperture_diam_spec env_ok (ApNdarray [PyInt 4; PyStr "3.0"])
                 (demo_obs ("CCDBIN1", "CCDBIN2") "DATE-OBS") = Some "8.0,6.0")
    by (vm_compute; reflexivity).
  split; [exact H1|].
  split; [exact (proj1 (aperture_diam_string env_ok _ _ _ H1))|].
  split; [exact H2|].
  split; [exact (proj1 (aperture_diam_string env_ok _ _ _ H2))|].
  split; [exact H3|].
  exact (proj1 (aperture_diam_string env_ok _ _ _ H3)).
Defined.

(** C5 on an array without radii.  The empty list and the float zero take
    the instrument's default (here 5, so ["10.0"]); the empty
    [numpy.ndarray] is neither, goes the way of the arrays and gets the
    empty string: the set-up goes through, and the command line of a frame
    has [-PHOT_APERTURES] without a value. *)
Theorem empty_array_aprad_is_not_default :
  set_aperture_diam env_ok (ApList []) (demo_obs ("CCDBIN1", "CCDBIN2") "DATE-OBS")
  = Ok (ApList [], "10.0")
  /\ set_aperture_diam env_ok (ApScalar (PyFloat 0))
       (demo_obs ("CCDBIN1", "CCDBIN2") "DATE-OBS")
     = Ok (ApScalar (PyFloat 0), "10.0")
  /\ set_aperture_diam env_ok (ApNdarray []) (demo_obs ("CCDBIN1", "CCDBIN2") "DATE-OBS")
     = Ok (ApNdarray [], "")
  /\ exists ev p,
       extract_multiframe_setup env_ok ["a.fits"] (demo_parameters None (ApNdarray []))
         demo_disk = Setup_ok ev p
       /\ par_aprad p = ApNdarray []
       /\ par_aperture_diam p = Some ""
       /\ commandline_of env_ok p "a.fits" (ldacname_of "a.fits")
          = Ok ("sex -c demo.sex  -PHOT_APERTURES   -BACKPHOTO_TYPE LOCAL "
                +:+ " -DETECT_MINAREA 3.000000  -DETECT_THRESH 2.000000"
                +:+ " -ANALYSIS_THRESH 2.000000  -CATALOG_NAME a.ldac "
                +:+ " -WEIGHT_TYPE MAP_WEIGHT -WEIGHT_IMAGE mask_2x2.fits a.fits").
Proof.
  split; [vm_compute; reflexivity|]. split; [vm_compute; reflexivity|].
  split; [vm_compute; reflexivity|].
  eexists _, _. split; [vm_compute; reflexivity|].
  split; [vm_compute; reflexivity|]. split; vm_compute; reflexivity.
Qed.

Lemma scalar_aprad_is_wrapped_witness :
  is_float_zero (PyFloat 3) = false
  /\ py_float env_ok (PyFloat 3) = Ok 3%float
  /\ float_str env_ok (py_str env_ok (PyFloat 3)) = Some 3%float
  /\ set_aperture_diam env_ok (ApScalar (PyFloat 3))
       (demo_obs ("CCDBIN1", "CCDBIN2") "DATE-OBS")
     = Ok (ApList [PyStr "3.0"], "6.0").
Proof.
  assert (H1 : is_float_zero (PyFloat 3) = false) by reflexivity.
  assert (H2 : py_float env_ok (PyFloat 3) = Ok 3%float) by reflexivity.
  assert (H3 : float_str env_ok (py_str env_ok (PyFloat 3)) = Some 3%float)
    by (vm_compute; reflexivity).
  split; [exact H1|]. split; [exact H2|]. split; [exact H3|].
  exact (proj2 (scalar_aprad_is_wrapped env_ok (PyFloat 3)
                  (demo_obs ("CCDBIN1", "CCDBIN2") "DATE-OBS") H1) _ H2 H3).
Defined.

(** [str] of Python 2 keeps twelve significant digits of a float.  The
    stand-ins below are right on the radius [0.1234567890124], on the
    number its text reads back as, and on twice each of them. *)
Definition long_radius : float := 0x1.f9add374705a9p-4.

Definition long_radius_read_back : float := 0x1.f9add37469512p-4.

Definition py2_str_float (f : float) : string :=
  if (f =? long_radius)%float then "0.123456789012"
  else if (f =? long_radius_read_back)%float then "0.123456789012"
  else if (f =? 2 * long_radius)%float then "0.246913578025"
  else if (f =? 2 * long_radius_read_back)%float then "0.246913578024"
  else demo_str_float f.

Definition py2_float_str (s : string) : option float :=
  if String.eqb s "0.123456789012" then Some long_radius_read_back
  else demo_float_str s.

Definition env_py2 : environment :=
  {| telescope_parameters := demo_telescopes;
     module_telescope := Some None;
     dateobs_to_jd := demo_dateobs_to_jd;
     float_str := py2_float_str;
     float_int := demo_float_int;
     str_float := py2_str_float;
     format_f := fun f => demo_str_float f +:+ "00000";
     Popen_launches := fun _ => true;
     sex_writes := fun _ => Some demo_catalog;
     header_accepts := demo_header_accepts |}.

(** C10, as the specification states it, fails.  A radius of thirteen
    digits is cut to twelve by [str] before it is doubled: the string is
    ["0.246913578024"], where twice the radius is printed
    ["0.246913578025"].  The default of the script's [-aprad], the empty
    string, is a scalar too and ends with the [ValueError] of [float]. *)
Lemma scalar_aprad_is_not_twice_the_scalar :
  set_aperture_diam env_py2 (ApScalar (PyFloat long_radius))
    (demo_obs ("CCDBIN1", "CCDBIN2") "DATE-OBS")
  = Ok (ApList [PyStr "0.123456789012"], "0.246913578024")
  /\ diameters_spec env_py2 [long_radius] = "0.246913578025"
  /\ (long_radius_read_back =? long_radius)%float = false
  /\ is_float_zero (PyStr "") = false
  /\ set_aperture_diam env_ok (ApScalar (PyStr ""))
       (demo_obs ("CCDBIN1", "CCDBIN2") "DATE-OBS")
     = Raise ValueError.
Proof.
  split; [vm_compute; reflexivity|]. split; [vm_compute; reflexivity|].
  split; [vm_compute; reflexivity|]. split; vm_compute; reflexivity.
Qed.


Lemma queue_drained_at_return_witness :
  reachable env_ok ["a.fits"; "b.fits"] demo_batch demo_disk returned_state
  /\ main returned_state = C_returned
  /\ extractQueue returned_state = []
  /\ unfinished_tasks returned_state = 0%nat
  /\ in_flight (threads returned_state) = []
  /\ extracted (events returned_state) ≡ₚ ["a.fits"; "b.fits"].
Proof.
  assert (H1 : reachable env_ok ["a.fits"; "b.fits"] demo_batch demo_disk returned_state).
  { apply (demo_state_reachable _ _ (two_frames ++ [Main])). vm_compute. reflexivity. }
  assert (H2 : main returned_state = C_returned) by (vm_compute; reflexivity).
  split; [exact H1|]. split; [exact H2|].
  exact (queue_drained_at_return env_ok _ _ _ _ H1 H2).
Defined.

Lemma failed_frame_keeps_its_record_witness :
  reachable env_no_catalog ["a.fits"; "b.fits"] demo_batch demo_disk no_catalog_state
  /\ threads no_catalog_state !! 0%nat = Some (T_died "a.fits" 1 IOError)
  /\ (exists out, output no_catalog_state !! 1%nat = Some out
                  /\ out !! "fits_filename" = Some (OStr "a.fits"))
  /\ main no_catalog_state <> C_returned
  /\ (length (output no_catalog_state) <= 2)%nat.
Proof.
  assert (H1 : reachable env_no_catalog ["a.fits"; "b.fits"] demo_batch demo_disk
                 no_catalog_state).
  { apply (demo_state_reachable _ _ two_frames). vm_compute. reflexivity. }
  assert (H2 : threads no_catalog_state !! 0%nat = Some (T_died "a.fits" 1 IOError))
    by (vm_compute; reflexivity).
  destruct (failed_frame_keeps_its_record env_no_catalog _ _ _ _ H1)
    as (Hdied & Hle & _).
  destruct (Hdied _ _ _ _ H2) as [Hout Hmain].
  split; [exact H1|]. split; [exact H2|]. split; [exact Hout|].
  split; [exact Hmain|exact Hle].
Defined.

(** A tool that leaves no catalog, on two frames: both fail when their
    catalog is read ([IOError]), the output list holds a record for each of
    them under its filename, and the call never returns. *)
Lemma failed_frames_stay_in_output :
  reachable env_no_catalog ["a.fits"; "b.fits"] demo_batch demo_disk no_catalog_state
  /\ threads no_catalog_state
     = [T_died "a.fits" 1 IOError; T_died "b.fits" 0 IOError]
  /\ (fun out : gmap string outval => out !! "fits_filename") <$> output no_catalog_state
     = [Some (OStr "b.fits"); Some (OStr "a.fits")]
  /\ (forall s, reachable env_no_catalog ["a.fits"; "b.fits"] demo_batch demo_disk s ->
                main s <> C_returned)
  /\ (forall o, ~ returns env_no_catalog ["a.fits"; "b.fits"] demo_batch demo_disk
                   (Ret_output o)).
Proof.
  assert (Hnever : forall s,
             reachable env_no_catalog ["a.fits"; "b.fits"] demo_batch demo_disk s ->
             main s <> C_returned).
  { intros s Hs.
    refine (proj2 (no_catalog_no_return env_no_catalog _ _ _ s
                     (fun _ _ => eq_refl) _ Hs)). done. }
  split; [|split; [|split; [|split]]].
  - apply (demo_state_reachable _ _ two_frames). vm_compute. reflexivity.
  - vm_compute. reflexivity.
  - vm_compute. reflexivity.
  - exact Hnever.
  - intros o (s & Hs & Hret & _). by apply (Hnever s).
Qed.

(** C8 on a batch of two frames whose tool cannot be launched: the thread
    that took ["a.fits"] logs the error, then [sex.wait()] finds [sex]
    unbound and the thread ends; it takes no further step, ["b.fits"] stays
    in the queue for the other thread, [task_done] is not called and the
    batch never returns. *)
Theorem launch_failure_ends_worker :
  reachable env_no_launch ["a.fits"; "b.fits"] demo_batch demo_disk no_launch_state
  /\ threads no_launch_state = [T_died "a.fits" 0 UnboundLocalError; T_get None]
  /\ events no_launch_state
     = [Log_info_extract_sources 2; Log_info_parameters; Log_error_cannot_call]
  /\ extractQueue no_launch_state = ["b.fits"]
  /\ unfinished_tasks no_launch_state = 2%nat
  /\ step env_no_launch (Worker 0) no_launch_state = None
  /\ (forall s, reachable env_no_launch ["a.fits"; "b.fits"] demo_batch demo_disk s ->
                main s <> C_returned).
Proof.
  assert (Hnever : forall s,
             reachable env_no_launch ["a.fits"; "b.fits"] demo_batch demo_disk s ->
             main s <> C_returned).
  { intros s Hs.
    refine (proj2 (no_catalog_no_return env_no_launch _ _ _ s
                     (fun _ H => False_ind _ (Bool.diff_false_true H)) _ Hs)).
    done. }
  split; [|split; [|split; [|split; [|split; [|split]]]]].
  - apply (demo_state_reachable _ _
             [Main; Main; Main; Main; Main; Main; Worker 0; Worker 0; Worker 0]).
    vm_compute. reflexivity.
  - vm_compute. reflexivity.
  - vm_compute. reflexivity.
  - vm_compute. reflexivity.
  - vm_compute. reflexivity.
  - vm_compute. reflexivity.
  - exact Hnever.
Qed.

(** C8, second case: the tool can be launched on ["a.fits"] only and one
    thread takes both frames.  At ["b.fits"] the launch fails and is logged,
    [sex] still names the process of ["a.fits"], so [sex.wait()] returns and
    the thread goes on with the same frame until the missing catalog ends
    it. *)
Lemma launch_failure_with_stale_sex :
  threads stale_sex_state !! 0%nat = Some (T_died "b.fits" 1 IOError)
  /\ events stale_sex_state
     = [Log_info_extract_sources 2; Log_info_parameters;
        Log_info_extracted 2 "a.fits"; Log_error_cannot_call]
  /\ unfinished_tasks stale_sex_state = 1%nat
  /\ main stale_sex_state = C_join
  /\ step env_launch_a Main stale_sex_state = None.
Proof.
  split; [|split; [|split; [|split]]]; vm_compute; reflexivity.
Qed.

(** C9 on an instrument whose binning keys are ["BIN_X"] and ["BIN_Y"]:
    the keys hold an underscore and not ["_blank"], the header has both
    cards, [binning_x] and [binning_y] stay unassigned and the set-up raises
    at line 239.  With ["CCDSUM_blank0"] / ["CCDSUM_blank1"] and the card
    ["2 2"], and with the direct keys, the set-up goes through and takes the
    mask of binning ["2,2"]. *)
Theorem underscore_binning_key_unassigned :
  PyString.contains "_" "BIN_X" = true
  /\ is_Some (demo_header !! "BIN_X") /\ is_Some (demo_header !! "BIN_Y")
  /\ read_binning env_ok (demo_obs ("BIN_X", "BIN_Y") "DATE-OBS") demo_header = Ok None
  /\ extract_multiframe_setup env_ok ["a.fits"]
       (demo_parameters (Some (PyStr "DEMO2")) (ApList [PyFloat 3])) demo_disk
     = Setup_raise [Log_info_extract_sources 1; Log_info_parameters] UnboundLocalError
  /\ (exists ev p,
        extract_multiframe_setup env_ok ["a.fits"]
          (demo_parameters (Some (PyStr "DEMO3")) (ApList [PyFloat 3])) demo_disk
        = Setup_ok ev p /\ par_mask_file p = Some "mask_2x2.fits")
  /\ (exists ev p,
        extract_multiframe_setup env_ok ["a.fits"]
          (demo_parameters (Some (PyStr "DEMO")) (ApList [PyFloat 3])) demo_disk
        = Setup_ok ev p /\ par_mask_file p = Some "mask_2x2.fits").
Proof.
  split; [reflexivity|].
  split; [eexists; vm_compute; reflexivity|].
  split; [eexists; vm_compute; reflexivity|].
  split; [vm_compute; reflexivity|].
  split; [vm_compute; reflexivity|].
  split; eexists _, _; (split; [vm_compute; reflexivity|vm_compute; reflexivity]).
Qed.

(** C4 on filenames that do not end the way the slice expects: without
    [".fit"] in the name [find] gives [-1] and the slice drops the last
    character; with an earlier [".fit"] the name is cut there.  The record
    of the frame ["image.fts"], processed without an exception, has the
    catalog path ["image.ft.ldac"]. *)
Theorem ldacname_not_suffix_replacement :
  ldacname_of "image.fits" = "image.ldac"
  /\ ldacname_of "image.fts" = "image.ft.ldac"
  /\ ldacname_of "night.fit1/image.fits" = "night.ldac"
  /\ snd (process env_ok demo_prepared "image.fts" demo_job) = Ok tt
  /\ job_out (fst (process env_ok demo_prepared "image.fts" demo_job)) !! "ldac_filename"
     = Some (OStr "image.ft.ldac").
Proof.
  split; [|split; [|split; [|split]]]; vm_compute; reflexivity.
Qed.

(** * Further properties of the script *)

(** ** The catalog path of a frame, lines 82 and 126 *)

Local Arguments Ascii.eqb : simpl never.

Lemma take_app_length (a b : string) :
  PyString.take (String.length a) (a +:+ b) = a.
Proof.
  induction a as [|x a IH]; simpl; [by destruct b|by rewrite IH].
Qed.

Lemma length_append (a b : string) :
  String.length (a +:+ b) = (String.length a + String.length b)%nat.
Proof.
  induction a as [|x a IH]; simpl; [done|by rewrite IH].
Qed.

Lemma find_from_absent (sub s : string) (i : Z) :
  PyString.contains sub s = false -> PyString.find_from sub s i = -1.
Proof.
  revert i. induction s as [|a s IH]; simpl; intros i H.
  - apply orb_false_iff in H as [-> _]. done.
  - apply orb_false_iff in H as [-> H]. by apply IH.
Qed.

(** An occurrence of [".fit"] that starts inside [base] lies inside
    [base]: no character of [".fit"] after the first is a dot. *)
Lemma startswith_fit_inside (a : ascii) (base rest : string) :
  PyString.startswith ".fit" (String a base +:+ ".fit" +:+ rest)
  = PyString.startswith ".fit" (String a base).
Proof.
  destruct base as [|a2 [|a3 [|a4 base]]]; simpl;
    repeat (match goal with
            | |- context [Ascii.eqb ?x ?y] =>
                is_var y; destruct (Ascii.eqb x y); [|reflexivity]
            end);
    reflexivity.
Qed.

Lemma find_from_fit (base rest : string) (i : Z) :
  PyString.contains ".fit" base = false ->
  PyString.find_from ".fit" (base +:+ ".fit" +:+ rest) i
  = i + Z.of_nat (String.length base).
Proof.
  revert i. induction base as [|a base IH]; intros i H.
  - simpl. lia.
  - change (PyString.contains ".fit" (String a base))
      with (PyString.startswith ".fit" (String a base)
            || PyString.contains ".fit" base) in H.
    apply orb_false_iff in H as [H1 H2].
    change (PyString.find_from ".fit" (String a base +:+ ".fit" +:+ rest) i)
      with (if PyString.startswith ".fit" (String a base +:+ ".fit" +:+ rest)
            then i
            else PyString.find_from ".fit" (base +:+ ".fit" +:+ rest) (i + 1)).
    rewrite startswith_fit_inside, H1, IH by done.
    simpl String.length. lia.
Qed.

(** X1. The catalog path of a frame is its filename cut at the first
    [".fit"], with [".ldac"] put there: whatever follows the first
    [".fit"] (["s"], ["s.gz"], a directory and a name) is dropped. *)
Theorem ldacname_cut_at_first_fit (base rest : string) :
  PyString.contains ".fit" base = false ->
  ldacname_of (base +:+ ".fit" +:+ rest) = base +:+ ".ldac".
Proof.
  intros H. unfold ldacname_of, PyString.find, PyString.slice_to.
  rewrite find_from_fit by done.
  rewrite (proj2 (Z.leb_le 0 (0 + Z.of_nat (String.length base)))) by lia.
  replace (Z.to_nat (0 + Z.of_nat (String.length base)))
    with (String.length base) by lia.
  by rewrite take_app_length.
Qed.

(** X2. A filename in which [".fit"] does not occur loses its last
    character: [find] gives [-1], which the slice reads as an index from
    the end. *)
Theorem ldacname_without_fit (s : string) (c : ascii) :
  PyString.contains ".fit" (s +:+ String c "") = false ->
  ldacname_of (s +:+ String c "") = s +:+ ".ldac".
Proof.
  intros H. unfold ldacname_of, PyString.find, PyString.slice_to.
  rewrite find_from_absent by done. simpl (0 <=? -1).
  cbv iota.
  replace (Z.to_nat (Z.of_nat (String.length (s +:+ String c "")) + -1))
    with (String.length s).
  - by rewrite take_app_length.
  - rewrite length_append. simpl. lia.
Qed.

Section Properties.

Variable E : environment.

(** ** What a successful set-up leaves in [parameters] *)

Lemma prepare_fields parameters t obs hdr p :
  prepare E parameters t obs hdr = Ok p ->
  par_telescope p = Some t
  /\ par_obsparam p = Some obs
  /\ is_Some (par_aperture_diam p)
  /\ par_sex_snr p = par_sex_snr parameters
  /\ par_source_minarea p = par_source_minarea parameters
  /\ par_quiet p = par_quiet parameters
  /\ par_paramfile p = par_paramfile parameters.
Proof.
  unfold prepare. intros H.
  destruct (set_aperture_diam E (par_aprad parameters) obs) as [ad|]; [|done].
  simpl in H.
  destruct (read_binning E obs hdr) as [b|]; [|done]. simpl in H.
  destruct (bin_string_of b) as [bin_string|]; [|done]. simpl in H.
  injection H as <-. simpl. by eauto 10.
Qed.

(** X3. When the set-up goes through, there is a first filename, its
    image could be opened, and [parameters] names a telescope of
    [_pp_conf.telescope_parameters] with its entry under ['obsparam']: the
    telescope given by the caller if there is one, the card [TEL_KEYW] of
    the first image only otherwise.  ['aperture_diam'] is set, and the
    thresholds, ['quiet'] and ['paramfile'] are the caller's. *)
Theorem setup_ok_parameters names parameters d ev p :
  extract_multiframe_setup E names parameters d = Setup_ok ev p ->
  exists first rest hdr name obs,
    names = first :: rest
    /\ fits_files d !! first = Some hdr
    /\ (par_telescope parameters = Some (PyStr name)
        \/ (par_telescope parameters = None
            /\ card_value <$> hdr !! "TEL_KEYW" = Some (PyStr name)))
    /\ telescope_parameters E !! name = Some obs
    /\ par_telescope p = Some (PyStr name)
    /\ par_obsparam p = Some obs
    /\ is_Some (par_aperture_diam p)
    /\ par_sex_snr p = par_sex_snr parameters
    /\ par_source_minarea p = par_source_minarea parameters
    /\ par_quiet p = par_quiet parameters
    /\ par_paramfile p = par_paramfile parameters.
Proof.
  unfold extract_multiframe_setup. intros H.
  destruct names as [|first rest]; [done|].
  destruct (fits_files d !! first) as [hdr|] eqn:Hhdr; [|done].
  destruct (telescope_of parameters hdr) as [t|] eqn:Ht; [|done].
  destruct (lookup_telescope E t) as [obs|] eqn:Hobs;
    [|by destruct (module_telescope E)].
  destruct (prepare E parameters t obs hdr) as [q|] eqn:Hq; [|done].
  injection H as <- <-.
  destruct t as [name|z|f]; try done. simpl in Hobs.
  exists first, rest, hdr, name, obs.
  split; [done|]. split; [done|]. split.
  { unfold telescope_of in Ht.
    destruct (par_telescope parameters) as [t'|]; [left; congruence|by right]. }
  split; [done|]. by apply prepare_fields in Hq.
Qed.

(** ** Binning and mask, lines 227-243 *)

(** X4. When the binning keys are read directly and the two cards hold
    integers, the mask of the batch is the entry of the instrument's
    ['mask_file'] under ["x,y"]; without such an entry
    [parameters['mask_file']] is what it was before the call. *)
Theorem mask_file_for_binning parameters t obs hdr p cx cy (x y : Z) :
  PyString.contains "_" (fst (obs_binning obs)) = false ->
  hdr !! fst (obs_binning obs) = Some cx -> card_value cx = PyInt x ->
  hdr !! snd (obs_binning obs) = Some cy -> card_value cy = PyInt y ->
  prepare E parameters t obs hdr = Ok p ->
  par_mask_file p
  = match obs_mask_file obs !! (pretty x +:+ "," +:+ pretty y) with
    | Some mask_file => Some mask_file
    | None => par_mask_file parameters
    end.
Proof.
  intros Hu Hx Hvx Hy Hvy. unfold prepare, read_binning, header_get.
  rewrite Hu, Hx, Hy. simpl. rewrite Hvx, Hvy. simpl.
  destruct (set_aperture_diam E (par_aprad parameters) obs); [|done]. simpl.
  intros H. by simplify_eq.
Qed.

Lemma contains_underscore (k r : string) :
  PyString.contains "_" (k +:+ "_" +:+ r) = true.
Proof.
  induction k as [|a k IH]; [done|].
  change (PyString.contains "_" (String a k +:+ "_" +:+ r))
    with (PyString.startswith "_" (String a (k +:+ "_" +:+ r))
          || PyString.contains "_" (k +:+ "_" +:+ r)).
  rewrite IH. apply orb_true_r.
Qed.

Lemma split_underscore_head (k r : string) :
  PyString.contains "_" k = false ->
  PyString.split "_" (k +:+ "_" +:+ r) !! 0%nat = Some k.
Proof.
  induction k as [|a k IH]; intros H; [done|].
  change (PyString.contains "_" (String a k))
    with (PyString.startswith "_" (String a k) || PyString.contains "_" k) in H.
  apply orb_false_iff in H as [Ha Hk]. specialize (IH Hk).
  simpl in Ha. rewrite Ascii.eqb_sym in Ha.
  destruct (Ascii.eqb a "_") eqn:Heq; [done|].
  simpl. rewrite Heq.
  destruct (PyString.split "_" (k +:+ "_" +:+ r)) as [|w ws]; [done|].
  simpl in *. by simplify_eq.
Qed.

(** X5. For binning keys of the form [KEY_blank...], the binning of the
    first axis is the first word of the card named by the part of the
    first key before its underscore, that of the second axis the second
    word of the card named likewise by the second key, both read as
    floats. *)
Theorem blank_binning_reads_words obs hdr k0 r0 k1 r1 s0 s1 x y fx fy :
  obs_binning obs = (k0 +:+ "_" +:+ r0, k1 +:+ "_" +:+ r1) ->
  PyString.contains "_" k0 = false ->
  PyString.contains "_" k1 = false ->
  PyString.contains "_blank" (k0 +:+ "_" +:+ r0) = true ->
  card_value <$> hdr !! k0 = Some (PyStr s0) ->
  card_value <$> hdr !! k1 = Some (PyStr s1) ->
  String.words s0 !! 0%nat = Some x ->
  String.words s1 !! 1%nat = Some y ->
  float_str E x = Some fx ->
  float_str E y = Some fy ->
  read_binning E obs hdr = Ok (Some (PyFloat fx, PyFloat fy)).
Proof.
  intros Hb H0 H1 Hblank Hc0 Hc1 Hx Hy Hfx Hfy.
  unfold read_binning, index, header_get. rewrite Hb. simpl fst. simpl snd.
  rewrite contains_underscore, Hblank.
  rewrite (split_underscore_head k0 r0 H0). simpl.
  rewrite Hc0. simpl. rewrite Hx. simpl. rewrite Hfx. simpl.
  rewrite (split_underscore_head k1 r1 H1). simpl.
  rewrite Hc1. simpl. rewrite Hy. simpl. by rewrite Hfy.
Qed.

(** X6. An image without one of the binning cards ends the set-up with a
    [KeyError] (it is not caught, unlike the missing [TEL_KEYW]): nothing
    is returned and no file is queued. *)
Theorem missing_binning_card_raises first rest parameters d hdr t obs ad :
  fits_files d !! first = Some hdr ->
  telescope_of parameters hdr = Some t ->
  lookup_telescope E t = Some obs ->
  set_aperture_diam E (par_aprad parameters) obs = Ok ad ->
  PyString.contains "_" (fst (obs_binning obs)) = false ->
  hdr !! fst (obs_binning obs) = None \/ hdr !! snd (obs_binning obs) = None ->
  extract_multiframe_setup E (first :: rest) parameters d
  = Setup_raise [Log_info_extract_sources (length (first :: rest)); Log_info_parameters]
      KeyError
  /\ extract_multiframe_start E (first :: rest) parameters d = None.
Proof.
  intros Hhdr Ht Hobs Had Hu Hnone.
  assert (Hs : extract_multiframe_setup E (first :: rest) parameters d
               = Setup_raise [Log_info_extract_sources (length (first :: rest));
                              Log_info_parameters] KeyError).
  { unfold extract_multiframe_setup. rewrite Hhdr, Ht, Hobs.
    unfold prepare, read_binning, header_get. rewrite Had, Hu. simpl.
    destruct Hnone as [Hn|Hn]; rewrite Hn; simpl; [done|].
    by destruct (hdr !! fst (obs_binning obs)). }
  split; [done|]. unfold extract_multiframe_start. by rewrite Hs.
Qed.

(** ** A radius that is not a number *)

Lemma mapM_py_float_raise (l1 l2 : list pyval) (s : string) (radii : list float) :
  mapM (py_float E) l1 = Ok radii ->
  float_str E s = None ->
  mapM (py_float E) (l1 ++ PyStr s :: l2) = Raise ValueError.
Proof.
  revert radii. induction l1 as [|rad l1 IH]; intros radii Hok Hs; simpl in *.
  - by rewrite Hs.
  - destruct (py_float E rad) as [r|]; [|done]. simpl in *.
    destruct (mapM (py_float E) l1) as [rs|]; [|done].
    by rewrite (IH rs).
Qed.

(** X7. A list of radii in which the first entry [float] cannot read is a
    string ends the set-up with the [ValueError] of line 223, before the
    binning is looked at: nothing is returned and no file is queued. *)
Theorem unreadable_radius_raises
  (l1 l2 : list pyval) (s : string) (radii : list float)
  (parameters : params) (t : pyval) (obs : obsparam) (hdr : header) :
  mapM (py_float E) l1 = Ok radii ->
  float_str E s = None ->
  par_aprad parameters = ApList (l1 ++ PyStr s :: l2) ->
  set_aperture_diam E (par_aprad parameters) obs = Raise ValueError
  /\ prepare E parameters t obs hdr = Raise ValueError.
Proof.
  intros Hok Hs Hap.
  assert (Hset : set_aperture_diam E (par_aprad parameters) obs = Raise ValueError).
  { rewrite Hap. unfold set_aperture_diam.
    destruct (l1 ++ PyStr s :: l2) as [|rad l] eqn:Hl.
    { by destruct l1. }
    rewrite <- Hl, mapM_diameters, (mapM_py_float_raise _ _ _ _ Hok Hs). done. }
  split; [done|]. unfold prepare. by rewrite Hset.
Qed.

(** ** One frame, lines 81-175 *)

(** The header [extractor.run] writes back: the three cards of lines
    152-160 put on the header it read. *)
Definition updated_header (param : params) (aprads : string) (hdr : header) : header :=
  header_set "SEXAREA" (PyFloat (par_source_minarea param))
    "Sextractor source area threshold (px)"
    (header_set "SEXSNR" (PyFloat (par_sex_snr param))
       "Sextractor detection SNR threshold"
       (header_set "APRAD" (PyStr aprads) "aperture phot radius (px)" hdr)).

(** The lines a frame processed without exception adds to the log and to
    the terminal. *)
Definition success_lines (param : params) (c : catalog) (filename : string) : list event :=
  Log_info_extracted (length (data c)) filename
  :: (if par_quiet param then [] else [Print_extracted (length (data c)) filename]).

Ltac run_frame H :=
  unfold process, job_bind, set_out, set_files, get_files, get_sex, set_sex,
    lift, emit, job_ret, header_setitem in H;
  simpl in H;
  repeat (case_match; simplify_eq/=).

Ltac stale_catalog :=
  match goal with
  | H : read_ldac {| fits_files := _; ldac_files := delete ?k _ |} ?k = Ok _ |- _ =>
      unfold read_ldac in H; simpl in H; rewrite lookup_delete_eq in H; discriminate H
  end.

(** The header takes the three cards of lines 152-160. *)
Definition cards_accepted (param : params) (aprads : string) : Prop :=
  header_accepts E (PyStr aprads) = true
  /\ header_accepts E (PyFloat (par_sex_snr param)) = true
  /\ header_accepts E (PyFloat (par_source_minarea param)) = true.

(** What a pass without exception has done, statement by statement. *)
Lemma process_ok param filename st st' :
  process E param filename st = (st', Ok tt) ->
  exists commandline c hdr obs midtimjd aprads,
    commandline_of E param filename (ldacname_of filename) = Ok commandline
    /\ Popen_launches E commandline = true
    /\ sex_writes E commandline = Some c
    /\ fits_files (job_files st) !! filename = Some hdr
    /\ par_obsparam param = Some obs
    /\ midtimjd_of E obs hdr = Ok midtimjd
    /\ aprad_string E (par_aprad param) = Ok aprads
    /\ st' = {| job_out :=
                  <["fits_header" := OHeader (updated_header param aprads hdr)]>
                    (<["time" := OVal midtimjd]>
                       (<["catalog_data" := OCatalog c]>
                          (<["parameters" := OParameters param]>
                             (<["ldac_filename" := OStr (ldacname_of filename)]>
                                (<["fits_filename" := OStr filename]> (job_out st))))));
                job_sex := Some commandline;
                job_files :=
                  {| fits_files :=
                       <[filename := updated_header param aprads hdr]>
                         (fits_files (job_files st));
                     ldac_files :=
                       <[ldacname_of filename := c]>
                         (delete (ldacname_of filename) (ldac_files (job_files st))) |};
                job_events := job_events st ++ success_lines param c filename |}.
Proof.
  intros H. run_frame H; try stale_catalog;
    repeat match goal with
           | H : of_option _ _ = Ok _ |- _ => apply of_option_Ok in H
           end.
  all: eexists _, _, _, _, _, _.
  all: repeat (split; [eassumption|]).
  all: unfold read_ldac in *; simpl in *.
  all: repeat match goal with
           | H : of_option _ _ = Ok _ |- _ => apply of_option_Ok in H
           end.
  all: try rewrite lookup_insert_eq in *; simplify_eq.
  all: unfold success_lines, updated_header; simpl.
  all: repeat match goal with H : par_quiet _ = _ |- _ => rewrite H end.
  all: by rewrite <- ?(assoc_L (++)).
Qed.

Lemma process_ok_cards param filename st st' aprads :
  process E param filename st = (st', Ok tt) ->
  aprad_string E (par_aprad param) = Ok aprads ->
  cards_accepted param aprads.
Proof.
  intros H Ha. run_frame H; by simplify_eq.
Qed.

Lemma process_raise param filename st st' e :
  process E param filename st = (st', Raise e) ->
  fits_files (job_files st') = fits_files (job_files st)
  /\ (forall l, l <> ldacname_of filename ->
        ldac_files (job_files st') !! l = ldac_files (job_files st) !! l)
  /\ (forall c, ldac_files (job_files st') !! ldacname_of filename = Some c ->
        exists commandline,
          commandline_of E param filename (ldacname_of filename) = Ok commandline
          /\ Popen_launches E commandline = true
          /\ sex_writes E commandline = Some c)
  /\ (job_events st' = job_events st
      \/ job_events st' = job_events st ++ [Log_error_cannot_call]).
Proof.
  intros H. run_frame H.
  all: split; [done|].
  all: split;
    [intros l Hl; rewrite ?lookup_insert_ne by done; by rewrite ?lookup_delete_ne by done|].
  all: split; [|by auto].
  all: intros c0; rewrite ?lookup_insert_eq, ?lookup_delete_eq; intros ?; simplify_eq.
  all: by eauto.
Qed.

(** X8. The record of a frame processed without exception holds the six
    documented entries and nothing else new: the filename, the catalog path
    derived from it, the parameters of the batch, the catalog (the one found
    at that path when the pass ends), the mid-time and the header (the one
    the image has on disk when the pass ends). *)
Theorem processed_record param filename st st' :
  process E param filename st = (st', Ok tt) ->
  exists c midtimjd hdr,
    job_out st' !! "fits_filename" = Some (OStr filename)
    /\ job_out st' !! "ldac_filename" = Some (OStr (ldacname_of filename))
    /\ job_out st' !! "parameters" = Some (OParameters param)
    /\ job_out st' !! "catalog_data" = Some (OCatalog c)
    /\ job_out st' !! "time" = Some (OVal midtimjd)
    /\ job_out st' !! "fits_header" = Some (OHeader hdr)
    /\ ldac_files (job_files st') !! ldacname_of filename = Some c
    /\ fits_files (job_files st') !! filename = Some hdr
    /\ forall k,
         k ∉ ["fits_filename"; "ldac_filename"; "parameters"; "catalog_data";
              "time"; "fits_header"] ->
         job_out st' !! k = job_out st !! k.
Proof.
  intros H.
  destruct (process_ok _ _ _ _ H)
    as (cmd & c & hdr & obs & m & aprads & _ & _ & _ & _ & _ & _ & _ & ->).
  exists c, m, (updated_header param aprads hdr). simpl.
  repeat (split; [by simplify_map_eq|]).
  intros k Hk. rewrite !lookup_insert_ne; [done|..]; intros <-; set_solver.
Qed.

(** X9. A frame processed without exception leaves its image with the
    cards [APRAD] (the radii of ['aprad'], each as [str], joined by
    commas), [SEXSNR] and [SEXAREA], each with its comment; every other
    card of the header is as it was. *)
Theorem header_update param filename st st' :
  process E param filename st = (st', Ok tt) ->
  exists hdr hdr' aprads,
    fits_files (job_files st) !! filename = Some hdr
    /\ fits_files (job_files st') !! filename = Some hdr'
    /\ aprad_string E (par_aprad param) = Ok aprads
    /\ hdr' !! "APRAD"
       = Some {| card_value := PyStr aprads;
                 card_comment := "aperture phot radius (px)" |}
    /\ hdr' !! "SEXSNR"
       = Some {| card_value := PyFloat (par_sex_snr param);
                 card_comment := "Sextractor detection SNR threshold" |}
    /\ hdr' !! "SEXAREA"
       = Some {| card_value := PyFloat (par_source_minarea param);
                 card_comment := "Sextractor source area threshold (px)" |}
    /\ forall k, k <> "APRAD" -> k <> "SEXSNR" -> k <> "SEXAREA" ->
                 hdr' !! k = hdr !! k.
Proof.
  intros H.
  destruct (process_ok _ _ _ _ H)
    as (cmd & c & hdr & obs & m & aprads & _ & _ & _ & Hhdr & _ & _ & Ha & ->).
  exists hdr, (updated_header param aprads hdr), aprads. simpl.
  split; [done|]. split; [by rewrite lookup_insert_eq|]. split; [done|].
  unfold updated_header, header_set.
  repeat (split; [by simplify_map_eq|]).
  intros k H1 H2 H3. by rewrite !lookup_insert_ne.
Qed.

(** X10. A pass of the loop touches the image and the catalog path of its
    own frame only: every other image and every other catalog on disk is as
    before, whether the pass ends with an exception or not; and when it
    ends with an exception, the image of the frame itself is unchanged too
    (all statements that can raise come before the header is written). *)
Theorem other_files_untouched param filename st st' r :
  process E param filename st = (st', r) ->
  (forall f, f <> filename ->
     fits_files (job_files st') !! f = fits_files (job_files st) !! f)
  /\ (forall l, l <> ldacname_of filename ->
        ldac_files (job_files st') !! l = ldac_files (job_files st) !! l)
  /\ (forall e, r = Raise e -> fits_files (job_files st') = fits_files (job_files st)).
Proof.
  intros H. destruct r as [[]|e].
  - destruct (process_ok _ _ _ _ H)
      as (cmd & c & hdr & obs & m & aprads & _ & _ & _ & _ & _ & _ & _ & ->).
    simpl. split; [|split; [|done]].
    + intros f Hf. by rewrite lookup_insert_ne.
    + intros l Hl. by rewrite lookup_insert_ne, lookup_delete_ne.
  - destruct (process_raise _ _ _ _ _ H) as (Hf & Hl & _ & _).
    split; [|split; [done|]].
    + intros f _. by rewrite Hf.
    + by intros e' _.
Qed.

(** X11. A catalog left at the frame's catalog path by an earlier run is
    never used: whatever catalog is at that path after a pass, and whatever
    catalog a record holds, was written by the tool in this pass. *)
Theorem catalog_is_fresh param filename st st' r c :
  process E param filename st = (st', r) ->
  ldac_files (job_files st') !! ldacname_of filename = Some c
  \/ (r = Ok tt /\ job_out st' !! "catalog_data" = Some (OCatalog c)) ->
  exists commandline,
    commandline_of E param filename (ldacname_of filename) = Ok commandline
    /\ Popen_launches E commandline = true
    /\ sex_writes E commandline = Some c.
Proof.
  intros H Hc. destruct r as [[]|e].
  - destruct (process_ok _ _ _ _ H)
      as (cmd & c' & hdr & obs & m & aprads & Hcmd & Hl & Hw & _ & _ & _ & _ & ->).
    simpl in Hc. exists cmd.
    assert (c = c') as ->; [|done].
    destruct Hc as [Hc|[_ Hc]]; by simplify_map_eq.
  - destruct (process_raise _ _ _ _ _ H) as (_ & _ & Hfresh & _).
    destruct Hc as [Hc|[? _]]; [by apply Hfresh|done].
Qed.

(** X12. What a pass of the loop logs: after a pass without exception, the
    line with the number of rows of the frame's catalog, followed by the
    same line on the terminal unless ['quiet'] is set; after a pass that
    raised, nothing but, possibly, the error line of a failed launch (the
    exception itself is not logged). *)
Theorem frame_log_lines param filename st st' r :
  process E param filename st = (st', r) ->
  match r with
  | Ok _ =>
      exists c,
        job_out st' !! "catalog_data" = Some (OCatalog c)
        /\ job_events st'
           = job_events st
             ++ Log_info_extracted (length (data c)) filename
             :: (if par_quiet param then []
                 else [Print_extracted (length (data c)) filename])
  | Raise _ =>
      job_events st' = job_events st
      \/ job_events st' = job_events st ++ [Log_error_cannot_call]
  end.
Proof.
  intros H. destruct r as [[]|e].
  - destruct (process_ok _ _ _ _ H)
      as (cmd & c & hdr & obs & m & aprads & _ & _ & _ & _ & _ & _ & _ & ->).
    exists c. simpl. split; [by simplify_map_eq|done].
  - by destruct (process_raise _ _ _ _ _ H) as (_ & _ & _ & ?).
Qed.

(** The conditions of a pass without exception are enough for one. *)
Lemma process_succeeds param filename st commandline c hdr obs midtimjd aprads :
  commandline_of E param filename (ldacname_of filename) = Ok commandline ->
  Popen_launches E commandline = true ->
  sex_writes E commandline = Some c ->
  fits_files (job_files st) !! filename = Some hdr ->
  par_obsparam param = Some obs ->
  midtimjd_of E obs hdr = Ok midtimjd ->
  aprad_string E (par_aprad param) = Ok aprads ->
  cards_accepted param aprads ->
  exists st', process E param filename st = (st', Ok tt).
Proof.
  intros Hcmd Hl Hw Hhdr Hobs Hm Ha (Hc1 & Hc2 & Hc3).
  unfold process, job_bind, set_out, set_files, get_files, get_sex, set_sex,
    lift, emit, job_ret, read_ldac, header_setitem.
  simpl. rewrite Hcmd. simpl. rewrite Hl, Hw. simpl.
  rewrite lookup_insert_eq. simpl. rewrite Hhdr. simpl. rewrite Hobs. simpl.
  rewrite Hm. simpl. rewrite Ha. simpl. rewrite Hc1, Hc2, Hc3. simpl.
  destruct (par_quiet param); eauto.
Qed.

(** X13. A pass of the loop ends without exception exactly when the
    command line of the frame can be built, the tool can be launched on it
    and leaves a catalog, the image can be opened, its mid-time can be
    computed, ['aprad'] can be iterated and the header takes the three
    cards (a threshold that is nan or infinite is refused). *)
Theorem frame_succeeds_iff param filename st :
  (exists st', process E param filename st = (st', Ok tt))
  <-> exists commandline c hdr obs midtimjd aprads,
        commandline_of E param filename (ldacname_of filename) = Ok commandline
        /\ Popen_launches E commandline = true
        /\ sex_writes E commandline = Some c
        /\ fits_files (job_files st) !! filename = Some hdr
        /\ par_obsparam param = Some obs
        /\ midtimjd_of E obs hdr = Ok midtimjd
        /\ aprad_string E (par_aprad param) = Ok aprads
        /\ cards_accepted param aprads.
Proof.
  split.
  - intros [st' H].
    destruct (process_ok _ _ _ _ H)
      as (cmd & c & hdr & obs & m & aprads & ? & ? & ? & ? & ? & ? & Ha & _).
    exists cmd, c, hdr, obs, m, aprads.
    repeat (split; [done|]). by apply (process_ok_cards _ _ _ _ _ H).
  - intros (cmd & c & hdr & obs & m & aprads & Hcmd & Hl & Hw & Hhdr & Hobs & Hm & Ha & Hc).
    by eapply process_succeeds.
Qed.

(** ** The batch: what every state of a call has *)

(** A property that holds when line 246 is reached and that every step
    keeps, holds in every state of the call. *)
Lemma reachable_ind (P : system -> Prop) names parameters d :
  (forall ev p,
      extract_multiframe_setup E names parameters d = Setup_ok ev p ->
      P (initial names p d ev)) ->
  (forall a s s', invariant s -> P s -> step E a s = Some s' -> P s') ->
  forall s, reachable E names parameters d s -> P s.
Proof.
  intros Hinit Hstep s (s0 & schedule & Hstart & Hrun).
  unfold extract_multiframe_start in Hstart.
  destruct (extract_multiframe_setup E names parameters d) as [| |ev p] eqn:Hsetup;
    simplify_eq.
  assert (H0 : invariant (initial names p d ev) /\ P (initial names p d ev)).
  { split; [|by eauto]. apply initial_invariant.
    by rewrite (setup_ok_events _ _ _ _ _ _ Hsetup). }
  clear Hsetup Hinit. revert H0 Hrun. generalize (initial names p d ev).
  induction schedule as [|a schedule IH]; simpl; intros s0 [Hi HP] Hrun.
  - by simplify_eq.
  - destruct (step E a s0) as [s1|] eqn:Hs; [|done].
    apply (IH s1); [|done]. split; [by eapply step_invariant|by eauto].
Qed.

(** The moves of a worker, one per synchronised operation of
    [extractor.run]. *)
Inductive worker_move (tid : nat) (s : system) : system -> Prop :=
| Move_exit sex :
    threads s !! tid = Some (T_get sex) ->
    extractQueue s = [] ->
    worker_move tid s (with_threads (<[tid := T_exited]> (threads s)) s)
| Move_get sex filename q :
    threads s !! tid = Some (T_get sex) ->
    extractQueue s = filename :: q ->
    worker_move tid s
      (with_threads (<[tid := T_append sex filename]> (threads s))
         (with_queue q (unfinished_tasks s) s))
| Move_append sex filename :
    threads s !! tid = Some (T_append sex filename) ->
    worker_move tid s
      (with_threads (<[tid := T_process sex filename (length (output s))]> (threads s))
         (with_output (output s ++ [∅]) s))
| Move_done sex filename i out st n :
    threads s !! tid = Some (T_process sex filename i) ->
    output s !! i = Some out ->
    process E (param s) filename
      {| job_out := out; job_sex := sex; job_files := files s;
         job_events := events s |} = (st, Ok tt) ->
    unfinished_tasks s = S n ->
    worker_move tid s
      (with_threads (<[tid := T_get (job_sex st)]> (threads s))
         (with_queue (extractQueue s) n
            (with_world (job_files st) (job_events st)
               (with_output (<[i := job_out st]> (output s)) s))))
| Move_die sex filename i out st e :
    threads s !! tid = Some (T_process sex filename i) ->
    output s !! i = Some out ->
    process E (param s) filename
      {| job_out := out; job_sex := sex; job_files := files s;
         job_events := events s |} = (st, Raise e) ->
    worker_move tid s
      (with_threads (<[tid := T_died filename i e]> (threads s))
         (with_world (job_files st) (job_events st)
            (with_output (<[i := job_out st]> (output s)) s))).

Lemma holds_length (ts : list thread) (tid : nat) (t : thread) :
  ts !! tid = Some t -> (length (holds t) <= length (in_flight ts))%nat.
Proof.
  intros Ht. destruct (bind_insert holds _ _ _ T_exited Ht) as (h1 & h2 & Hh & _).
  unfold in_flight. rewrite Hh, !length_app. lia.
Qed.

Lemma worker_step_move tid s s' :
  invariant s -> worker_step E tid s = Some s' -> worker_move tid s s'.
Proof.
  intros Hinv. unfold worker_step.
  destruct (threads s !! tid) as [[sex|sex filename|sex filename i| |]|] eqn:Ht;
    try done.
  - destruct (extractQueue s) as [|filename q] eqn:Hq; intros ?; simplify_eq.
    + by eapply Move_exit.
    + by eapply Move_get.
  - intros ?; simplify_eq. by eapply Move_append.
  - destruct (output s !! i) as [out|] eqn:Hout; [|done].
    destruct (process E (param s) filename _) as [st r] eqn:Hp.
    destruct r as [[]|e]; [|intros ?; simplify_eq; by eapply Move_die].
    destruct (unfinished_tasks s) as [|n] eqn:Hn.
    { pose proof (holds_length _ _ _ Ht) as Hle. simpl in Hle.
      rewrite (inv_unfinished _ Hinv) in Hn. lia. }
    intros ?; simplify_eq. by eapply Move_done.
Qed.

(** The moves of [extract_multiframe] from line 250 on. *)
Inductive main_move (s : system) : system -> Prop :=
| Move_put filename rest :
    main s = C_populate (filename :: rest) ->
    Z.of_nat (length (extractQueue s)) < extractQueue_maxsize ->
    main_move s
      (with_main (C_populate rest)
         (with_queue (extractQueue s ++ [filename]) (S (unfinished_tasks s)) s))
| Move_sleep filename rest :
    main s = C_populate (filename :: rest) ->
    extractQueue_maxsize <= Z.of_nat (length (extractQueue s)) ->
    main_move s s
| Move_populated :
    main s = C_populate [] ->
    main_move s (with_main (C_spawn (Nat.min nThreads (length (filenames s)))) s)
| Move_start n :
    main s = C_spawn (S n) ->
    main_move s (with_main (C_spawn n) (with_threads (threads s ++ [T_get None]) s))
| Move_started :
    main s = C_spawn 0 ->
    main_move s (with_main C_join s)
| Move_return :
    main s = C_join ->
    unfinished_tasks s = 0%nat ->
    main_move s (with_main C_returned s).

Lemma main_step_move s s' : main_step s = Some s' -> main_move s s'.
Proof.
  unfold main_step.
  destruct (main s) as [[|filename rest]|[|n]| |] eqn:Hm; intros ?; simplify_eq.
  - by apply Move_populated.
  - destruct (Z.ltb_spec (Z.of_nat (length (extractQueue s))) extractQueue_maxsize);
      simplify_eq.
    + by eapply Move_put.
    + by eapply Move_sleep.
  - by apply Move_started.
  - by apply Move_start.
  - destruct (unfinished_tasks s) eqn:Hn; simplify_eq. by apply Move_return.
Qed.

(** *** The pool of threads and the queue, lines 250-262 *)

Local Arguments Nat.min : simpl never.

Record shape (s : system) : Prop := {
  shape_pool :
    match main s with
    | C_populate rest =>
        threads s = [] /\ output s = [] /\ extractQueue s ++ rest = filenames s
    | C_spawn n =>
        (length (threads s) + n = Nat.min nThreads (length (filenames s)))%nat
    | C_join | C_returned =>
        length (threads s) = Nat.min nThreads (length (filenames s))
    end;
  shape_queue : Z.of_nat (length (extractQueue s)) <= extractQueue_maxsize;
}.

Lemma step_shape a s s' : invariant s -> shape s -> step E a s = Some s' -> shape s'.
Proof.
  intros Hinv [Hp Hq]. destruct a as [|tid]; simpl.
  - intros Hm%main_step_move.
    destruct Hm as [f rest Hm Hlt|f rest Hm Hge|Hm|n Hm|Hm|Hm Hn];
      rewrite Hm in Hp; split; simpl; try done; try lia.
    + destruct Hp as (Ht & Ho & Hf). rewrite <- Hf.
      by rewrite <- (assoc_L (++)).
    + rewrite length_app. simpl. lia.
    + by rewrite Hm.
    + destruct Hp as (Ht & _ & _). rewrite Ht. simpl. lia.
    + rewrite length_app. simpl. lia.
  - intros Hw%(worker_step_move _ _ _ Hinv).
    assert (Hpop : forall rest, main s = C_populate rest -> False).
    { intros rest Hm. rewrite Hm in Hp. destruct Hp as (Ht & _).
      destruct Hw as [sex Ht' _|sex f q Ht' _|sex f Ht'|sex f i out st n Ht' _ _ _
                     |sex f i out st e Ht' _ _]; by rewrite Ht in Ht'. }
    destruct Hw as [sex Ht Hq'|sex f q Ht Hq'|sex f Ht|sex f i out st n Ht Ho Hpr Hn
                   |sex f i out st e Ht Ho Hpr];
      split; simpl; rewrite ?length_insert; try done;
      try (destruct (main s) eqn:Hm; [by destruct (Hpop _ eq_refl)|done..]).
    rewrite Hq' in Hq. simpl in Hq. lia.
Qed.

Lemma reachable_shape names parameters d s :
  reachable E names parameters d s -> shape s.
Proof.
  apply reachable_ind.
  - intros ev p _. split; simpl; [done|]. by vm_compute.
  - intros a s0 s1. apply step_shape.
Qed.

(** X14. The pool never has more threads than [nThreads] or than the batch
    has filenames; it has exactly the smaller of the two once all threads
    are started; and no thread exists, and the output list is empty, while
    the queue is being filled. *)
Theorem thread_pool_size names parameters d s :
  reachable E names parameters d s ->
  (length (threads s) <= Nat.min nThreads (length names))%nat
  /\ (main s = C_join \/ main s = C_returned ->
      length (threads s) = Nat.min nThreads (length names))
  /\ (forall rest, main s = C_populate rest -> threads s = [] /\ output s = []).
Proof.
  intros Hr. destruct (reachable_invariant _ _ _ _ _ Hr) as [_ Hnames].
  destruct (reachable_shape _ _ _ _ Hr) as [Hp _]. rewrite Hnames in Hp.
  split; [|split].
  - destruct (main s); try lia. destruct Hp as (-> & _). simpl. lia.
  - intros [Hm|Hm]; by rewrite Hm in Hp.
  - intros rest Hm. rewrite Hm in Hp. by destruct Hp as (? & ? & _).
Qed.

(** X15. The queue never holds more than its 10000 places, and it is
    filled in the order of [filenames]: while [extract_multiframe] is still
    putting, the queue followed by the names not yet put is the list of
    filenames. *)
Theorem queue_within_capacity names parameters d s :
  reachable E names parameters d s ->
  Z.of_nat (length (extractQueue s)) <= extractQueue_maxsize
  /\ forall rest, main s = C_populate rest -> extractQueue s ++ rest = names.
Proof.
  intros Hr. destruct (reachable_invariant _ _ _ _ _ Hr) as [_ Hnames].
  destruct (reachable_shape _ _ _ _ Hr) as [Hp Hq]. rewrite Hnames in Hp.
  split; [done|]. intros rest Hm. rewrite Hm in Hp. by destruct Hp as (_ & _ & ?).
Qed.

(** X16. A batch of more than 10000 filenames never gets past line 257:
    the queue is filled before any thread is started, so once it is full
    [extract_multiframe] sleeps for ever; in every state of the call it is
    still putting, no thread has been started and the output list is
    empty. *)
Theorem oversized_batch_never_starts names parameters d s :
  extractQueue_maxsize < Z.of_nat (length names) ->
  reachable E names parameters d s ->
  exists filename rest,
    main s = C_populate (filename :: rest)
    /\ threads s = [] /\ output s = []
    /\ extractQueue s ++ filename :: rest = names.
Proof.
  intros Hbig Hr.
  destruct (reachable_invariant _ _ _ _ _ Hr) as [_ Hnames].
  destruct (reachable_shape _ _ _ _ Hr) as [Hp Hq].
  assert (Hpop : exists rest, main s = C_populate rest /\ shape s
                              /\ filenames s = names).
  { clear Hnames Hp Hq. revert s Hr. apply reachable_ind.
    - intros ev p _. exists names. split; [done|]. split; [|done].
      split; simpl; [done|]. by vm_compute.
    - intros a s0 s1 Hinv (rest & Hm & Hsh & Hnames) Hs.
      pose proof (step_shape _ _ _ Hinv Hsh Hs) as Hsh1.
      pose proof (step_filenames _ _ _ _ Hs) as Hf1. rewrite Hnames in Hf1.
      destruct Hsh as [Hp Hq]. rewrite Hm in Hp. destruct Hp as (Ht & Ho & Hf).
      destruct a as [|tid]; simpl in Hs.
      + apply main_step_move in Hs.
        destruct Hs as [f' rest' Hm' Hlt|f' rest' Hm' Hge|Hm'|n Hm'|Hm'|Hm' Hn];
          rewrite Hm in Hm'; simplify_eq; simpl; eauto.
        rewrite app_nil_r in Hf. rewrite <- Hf in Hbig. lia.
      + apply (worker_step_move _ _ _ Hinv) in Hs.
        destruct Hs; simpl; eauto. }
  destruct Hpop as (rest & Hm & _ & _). rewrite Hm in Hp.
  destruct Hp as (Ht & Ho & Hf). rewrite Hnames in Hf.
  destruct rest as [|filename rest].
  { rewrite app_nil_r in Hf. rewrite <- Hf in Hbig. lia. }
  by exists filename, rest.
Qed.

(** *** The records of the output list *)

(** The [out] of a frame, as lines 75-161 fill it. *)
Definition frame_record (param : params) (filename : string) (c : catalog)
  (midtimjd : pyval) (hdr : header) : gmap string outval :=
  <["fits_header" := OHeader hdr]>
    (<["time" := OVal midtimjd]>
       (<["catalog_data" := OCatalog c]>
          (<["parameters" := OParameters param]>
             (<["ldac_filename" := OStr (ldacname_of filename)]>
                (<["fits_filename" := OStr filename]> ∅))))).

(** The filename a record carries, if any. *)
Definition record_file (out : gmap string outval) : list string :=
  match out !! "fits_filename" with
  | Some (OStr filename) => [filename]
  | _ => []
  end.

(** The frame on which a thread ended with an exception. *)
Definition died_file (t : thread) : list string :=
  match t with
  | T_died filename _ _ => [filename]
  | _ => []
  end.

(** A complete record: the six entries, for some frame, with the catalog
    the tool wrote on that frame's command line. *)
Definition complete (p : params) (out : gmap string outval) : Prop :=
  exists filename commandline c midtimjd hdr,
    out = frame_record p filename c midtimjd hdr
    /\ commandline_of E p filename (ldacname_of filename) = Ok commandline
    /\ sex_writes E commandline = Some c.

Record records (s : system) : Prop := {
  rec_fresh :
    forall tid sex filename i,
      threads s !! tid = Some (T_process sex filename i) -> output s !! i = Some ∅;
  rec_complete :
    forall i out,
      output s !! i = Some out -> i ∈ threads s ≫= slot \/ complete (param s) out;
  rec_files :
    output s ≫= record_file ≡ₚ (threads s ≫= died_file) ++ extracted (events s);
}.

Lemma elem_of_slots (ts : list thread) (i : nat) :
  i ∈ ts ≫= slot <-> exists tid t, ts !! tid = Some t /\ i ∈ slot t.
Proof.
  rewrite list_elem_of_bind. split.
  - intros (t & Hi & [tid Ht]%list_elem_of_lookup_1). eauto.
  - intros (tid & t & Ht%list_elem_of_lookup_2 & Hi). eauto.
Qed.

(** A slot stays taken when the thread that changes keeps its slot, or had
    another one. *)
Lemma slots_insert (ts : list thread) (tid : nat) (t t' : thread) (i : nat) :
  ts !! tid = Some t ->
  (i ∈ slot t -> i ∈ slot t') ->
  i ∈ ts ≫= slot -> i ∈ <[tid := t']> ts ≫= slot.
Proof.
  intros Ht Hkeep. rewrite !elem_of_slots. intros (tid' & t0 & Ht0 & Hi).
  destruct (decide (tid' = tid)) as [->|Hne].
  - exists tid, t'. simplify_eq. split; [|by auto].
    apply list_lookup_insert_eq. by eapply lookup_lt_Some.
  - exists tid', t0. by rewrite list_lookup_insert_ne.
Qed.

Lemma process_lookup_other (ts : list thread) (tid : nat) (t' : thread) tid' sex f i :
  (forall sex' f' i', t' <> T_process sex' f' i') ->
  <[tid := t']> ts !! tid' = Some (T_process sex f i) ->
  tid' <> tid /\ ts !! tid' = Some (T_process sex f i).
Proof.
  intros Hno [(-> & Heq & _)|[Hne Ht]]%list_lookup_insert_Some; [|done].
  by destruct (Hno sex f i).
Qed.

Lemma record_file_frame p filename c midtimjd hdr :
  record_file (frame_record p filename c midtimjd hdr) = [filename].
Proof. reflexivity. Qed.

Lemma main_step_records s s' : records s -> main_step s = Some s' -> records s'.
Proof.
  intros [Hf Hc Hp] Hm%main_step_move.
  destruct Hm as [f rest Hm Hlt|f rest Hm Hge|Hm|n Hm|Hm|Hm Hn];
    try (split; simpl; done).
  split; simpl.
  - intros tid sex f i [[_ Ht]|[_ ?]]%lookup_snoc_Some; [by eauto|done].
  - intros i out Ho. destruct (Hc _ _ Ho) as [Hi|Hi]; [left|by right].
    rewrite bind_app. apply elem_of_app. by left.
  - rewrite bind_app. simpl. by rewrite app_nil_r.
Qed.

Lemma worker_step_records tid s s' :
  invariant s -> records s -> worker_step E tid s = Some s' -> records s'.
Proof.
  intros Hinv [Hf Hc Hp] Hw%(worker_step_move _ _ _ Hinv).
  destruct Hw as [sex Ht Hq|sex f q Ht Hq|sex f Ht|sex f i out st n Ht Ho Hpr Hn
                 |sex f i out st e Ht Ho Hpr].
  - (* the thread ends *)
    destruct (bind_insert died_file _ _ _ T_exited Ht) as (d1 & d2 & Hd1 & Hd2);
      simpl in Hd1, Hd2.
    split; simpl.
    + intros tid' sex' f' i' [_ Ht']%process_lookup_other; by eauto.
    + intros i out Ho. destruct (Hc _ _ Ho) as [Hi|Hi]; [left|by right].
      by apply (slots_insert _ _ _ _ _ Ht).
    + by rewrite Hd2, <- Hd1.
  - (* get *)
    destruct (bind_insert died_file _ _ _ (T_append sex f) Ht)
      as (d1 & d2 & Hd1 & Hd2); simpl in Hd1, Hd2.
    split; simpl.
    + intros tid' sex' f' i' [_ Ht']%process_lookup_other; by eauto.
    + intros i out Ho. destruct (Hc _ _ Ho) as [Hi|Hi]; [left|by right].
      by apply (slots_insert _ _ _ _ _ Ht).
    + by rewrite Hd2, <- Hd1.
  - (* append *)
    destruct (bind_insert died_file _ _ _ (T_process sex f (length (output s))) Ht)
      as (d1 & d2 & Hd1 & Hd2); simpl in Hd1, Hd2.
    split; simpl.
    + intros tid' sex' f' i' [(-> & Heq & _)|[Hne Ht']]%list_lookup_insert_Some.
      * simplify_eq. by rewrite lookup_app_r, Nat.sub_diag.
      * apply lookup_app_l_Some. by eauto.
    + intros i out [Ho|[Hle Hi]]%lookup_app_Some.
      * destruct (Hc _ _ Ho) as [Hi|Hi]; [left|by right].
        apply (slots_insert _ _ _ _ _ Ht); [by intros ?%elem_of_nil|done].
      * left. apply elem_of_slots. exists tid, (T_process sex f (length (output s))).
        split; [apply list_lookup_insert_eq; by eapply lookup_lt_Some|].
        simpl. apply list_elem_of_singleton.
        apply lookup_lt_Some in Hi. simpl in Hi. lia.
    + rewrite bind_app. simpl. by rewrite app_nil_r, Hd2, <- Hd1.
  - (* the frame is done *)
    pose proof (Hf _ _ _ _ Ht) as Hempty. simplify_eq.
    destruct (bind_insert died_file _ _ _ (T_get (job_sex st)) Ht)
      as (d1 & d2 & Hd1 & Hd2); simpl in Hd1, Hd2.
    destruct (bind_insert record_file _ _ _ (job_out st) Ho) as (r1 & r2 & Hr1 & Hr2).
    pose proof (process_logged _ _ _ _ _ _ Hpr) as Hlog. simpl in Hlog.
    destruct (process_ok _ _ _ _ Hpr)
      as (cmd & c & hdr & obs & m & aprads & Hcmd & Hl & Hw & _ & _ & _ & _ & Hst).
    split; simpl.
    + intros tid' sex' f' i' [Hne Ht']%process_lookup_other; [|done].
      rewrite list_lookup_insert_ne; [by eauto|]. intros <-. apply Hne.
      apply (inv_slot_inj _ Hinv _ _ _ _ i Ht' Ht); simpl; set_solver.
    + intros j o [(-> & <- & _)|[Hne Hj]]%list_lookup_insert_Some.
      * right. exists f, cmd, c, m, (updated_header (param s) aprads hdr).
        split; [|done]. by rewrite Hst.
      * destruct (Hc _ _ Hj) as [Hi|Hi]; [left|by right].
        apply (slots_insert _ _ _ _ _ Ht); [|done].
        simpl. intros ->%list_elem_of_singleton. done.
    + assert (Hrf : record_file (job_out st) = [f]).
      { unfold record_file.
        by rewrite (process_fits_filename _ _ _ _ _ _ Hpr). }
      rewrite Hr2, Hd2, Hlog, Hrf. rewrite Hr1, Hd1 in Hp.
      change (record_file ∅) with (@nil string) in Hp. simpl in Hp.
      transitivity ([f] ++ (r1 ++ r2)); [solve_Permutation|].
      rewrite Hp. solve_Permutation.
  - (* the thread dies on the frame *)
    pose proof (Hf _ _ _ _ Ht) as Hempty. simplify_eq.
    destruct (bind_insert died_file _ _ _ (T_died f i e) Ht)
      as (d1 & d2 & Hd1 & Hd2); simpl in Hd1, Hd2.
    destruct (bind_insert record_file _ _ _ (job_out st) Ho) as (r1 & r2 & Hr1 & Hr2).
    pose proof (process_logged _ _ _ _ _ _ Hpr) as Hlog. simpl in Hlog.
    pose proof (process_fits_filename _ _ _ _ _ _ Hpr) as Hname.
    split; simpl.
    + intros tid' sex' f' i' [Hne Ht']%process_lookup_other; [|done].
      rewrite list_lookup_insert_ne; [by eauto|]. intros <-. apply Hne.
      apply (inv_slot_inj _ Hinv _ _ _ _ i Ht' Ht); simpl; set_solver.
    + intros j o [(-> & <- & _)|[Hne Hj]]%list_lookup_insert_Some.
      * left. apply elem_of_slots. exists tid, (T_died f j e).
        split; [apply list_lookup_insert_eq; by eapply lookup_lt_Some|].
        simpl. set_solver.
      * destruct (Hc _ _ Hj) as [Hi|Hi]; [left|by right].
        by apply (slots_insert _ _ _ _ _ Ht).
    + assert (Hrf : record_file (job_out st) = [f]).
      { unfold record_file. by rewrite Hname. }
      rewrite Hr2, Hd2, Hlog, Hrf, app_nil_r. rewrite Hr1, Hd1 in Hp.
      change (record_file ∅) with (@nil string) in Hp. simpl in Hp.
      transitivity ([f] ++ (r1 ++ r2)); [solve_Permutation|].
      rewrite Hp. solve_Permutation.
Qed.

Lemma reachable_records names parameters d s :
  reachable E names parameters d s -> records s.
Proof.
  apply reachable_ind.
  - intros ev p Hs. split; simpl; try done.
    by rewrite (setup_ok_events _ _ _ _ _ _ Hs).
  - intros [|tid] s0 s1 Hinv Hr Hs; simpl in Hs.
    + by eapply main_step_records.
    + by eapply worker_step_records.
Qed.

Lemma step_param a s s' : step E a s = Some s' -> param s' = param s.
Proof.
  destruct a as [|tid]; simpl.
  - unfold main_step. intros H. repeat (case_match; simplify_eq/=); done.
  - unfold worker_step. intros H. repeat (case_match; simplify_eq/=); done.
Qed.

(** Every frame is processed with the parameters the set-up prepared. *)
Lemma reachable_param names parameters d s ev p :
  extract_multiframe_setup E names parameters d = Setup_ok ev p ->
  reachable E names parameters d s -> param s = p.
Proof.
  intros Hs Hr. revert ev p Hs. revert s Hr.
  apply (reachable_ind
           (fun s => forall ev p,
                extract_multiframe_setup E names parameters d = Setup_ok ev p ->
                param s = p)).
  - intros ev p H1 ev' p' H2. simpl. congruence.
  - intros a s0 s1 _ IH Hstep ev p Hs. rewrite (step_param _ _ _ Hstep). by eauto.
Qed.

Lemma reachable_setup names parameters d s :
  reachable E names parameters d s ->
  exists ev p, extract_multiframe_setup E names parameters d = Setup_ok ev p.
Proof.
  intros (s0 & schedule & Hstart & _). unfold extract_multiframe_start in Hstart.
  destruct (extract_multiframe_setup E names parameters d); by eauto.
Qed.

Lemma died_le_holds (ts : list thread) :
  (length (ts ≫= died_file) <= length (ts ≫= holds))%nat.
Proof.
  induction ts as [|t ts IH]; [done|].
  rewrite !bind_cons, !length_app. destruct t; simpl; lia.
Qed.

(** When the call has returned no thread holds a frame or a slot. *)
Lemma returned_idle s :
  invariant s -> main s = C_returned ->
  extractQueue s = [] /\ threads s ≫= holds = []
  /\ threads s ≫= slot = [] /\ threads s ≫= died_file = [].
Proof.
  intros Hinv Hret.
  pose proof (inv_unfinished _ Hinv) as Hu.
  rewrite (inv_returned _ Hinv Hret) in Hu. unfold in_flight in Hu.
  pose proof (slot_le_holds (threads s)). pose proof (died_le_holds (threads s)).
  repeat split; apply length_zero_iff_nil; lia.
Qed.

(** *** The catalogs on disk *)

(** The catalog of a record is the one on disk at the record's catalog
    path. *)
Definition on_disk (d : disk) (out : gmap string outval) : Prop :=
  forall filename c,
    out !! "fits_filename" = Some (OStr filename) ->
    out !! "catalog_data" = Some (OCatalog c) ->
    ldac_files d !! ldacname_of filename = Some c.

Lemma process_on_disk param filename st st' r :
  process E param filename st = (st', r) ->
  job_out st !! "catalog_data" = None ->
  on_disk (job_files st') (job_out st').
Proof.
  intros H Hnone f c Hf Hc.
  pose proof (process_fits_filename _ _ _ _ _ _ H) as Hname.
  rewrite Hname in Hf. simplify_eq.
  destruct r as [[]|e].
  - destruct (process_ok _ _ _ _ H)
      as (cmd & c' & hdr & obs & m & aprads & _ & _ & _ & _ & _ & _ & _ & ->).
    simpl in *. by simplify_map_eq.
  - run_frame H; simplify_map_eq; try done;
      unfold read_ldac in *; simpl in *;
      repeat match goal with
             | H : of_option _ _ = Ok _ |- _ => apply of_option_Ok in H
             end;
      by simplify_map_eq.
Qed.

Lemma process_ldac_other param filename st st' r l :
  process E param filename st = (st', r) ->
  l <> ldacname_of filename ->
  ldac_files (job_files st') !! l = ldac_files (job_files st) !! l.
Proof.
  intros H Hl. destruct r as [[]|e].
  - destruct (process_ok _ _ _ _ H)
      as (cmd & c & hdr & obs & m & aprads & _ & _ & _ & _ & _ & _ & _ & ->).
    simpl. by rewrite lookup_insert_ne, lookup_delete_ne.
  - destruct (process_raise _ _ _ _ _ H) as (_ & Hother & _). by apply Hother.
Qed.

Lemma fmap_apart {A B} (h : A -> B) (l1 l2 : list A) (x y : A) :
  NoDup (h <$> (l1 ++ l2)) -> x ∈ l1 -> y ∈ l2 -> h x <> h y.
Proof.
  rewrite fmap_app. intros (_ & Hd & _)%NoDup_app Hx Hy Heq.
  apply (Hd (h x)); [by apply list_elem_of_fmap_2|].
  rewrite Heq. by apply list_elem_of_fmap_2.
Qed.

(** Two threads hold frames of different catalog paths when all catalog
    paths in flight differ. *)
Lemma holds_apart {B} (h : string -> B) (ts : list thread) (a b : nat) ta tb x y :
  NoDup (h <$> (ts ≫= holds)) ->
  ts !! a = Some ta -> ts !! b = Some tb -> a <> b ->
  x ∈ holds ta -> y ∈ holds tb -> h x <> h y.
Proof.
  revert a b. induction ts as [|t ts IH]; intros a b Hnd Ha Hb Hne Hx Hy; [done|].
  rewrite bind_cons in Hnd.
  destruct a as [|a], b as [|b]; simpl in Ha, Hb; simplify_eq.
  - apply (fmap_apart h _ _ _ _ Hnd Hx).
    apply list_elem_of_bind. exists tb. split; [done|by eapply list_elem_of_lookup_2].
  - intros Heq. symmetry in Heq. revert Heq.
    apply (fmap_apart h _ _ _ _ Hnd Hy).
    apply list_elem_of_bind. exists ta. split; [done|by eapply list_elem_of_lookup_2].
  - rewrite fmap_app in Hnd. apply NoDup_app in Hnd as (_ & _ & Hnd).
    apply (IH a b); try done. congruence.
Qed.

Lemma died_file_holds (t : thread) (f : string) : f ∈ died_file t -> f ∈ holds t.
Proof. destruct t; simpl; try done; by intros ?%elem_of_nil. Qed.

(** Every record that has a catalog has it on disk. *)
Definition kept (s : system) : Prop := Forall (on_disk (files s)) (output s).

Lemma worker_step_kept tid s s' :
  NoDup (ldacname_of <$> filenames s) ->
  invariant s -> records s -> kept s -> worker_step E tid s = Some s' -> kept s'.
Proof.
  intros Hnd Hinv [Hf Hc Hp] Hk Hw%(worker_step_move _ _ _ Hinv).
  assert (Hmove : forall sex f i out st r,
             threads s !! tid = Some (T_process sex f i) ->
             output s !! i = Some out ->
             process E (param s) f
               {| job_out := out; job_sex := sex; job_files := files s;
                  job_events := events s |} = (st, r) ->
             Forall (on_disk (job_files st)) (<[i := job_out st]> (output s))).
  { intros sex f i out st r Ht Ho Hpr.
    pose proof (Hf _ _ _ _ Ht) as Hempty. simplify_eq.
    apply Forall_lookup.
    intros j o [(-> & <- & _)|[Hne Hj]]%list_lookup_insert_Some.
    { by apply (process_on_disk _ _ _ _ _ Hpr). }
    intros f' c' Hf' Hc'.
    rewrite (process_ldac_other _ _ _ _ _ _ Hpr); simpl.
    { by apply (proj1 (Forall_lookup _ _) Hk j o Hj). }
    (* the frame of the other record is not the one in this thread's hands *)
    assert (Hin : f' ∈ output s ≫= record_file).
    { apply list_elem_of_bind. exists o. split; [|by eapply list_elem_of_lookup_2].
      unfold record_file. rewrite Hf'. by apply list_elem_of_here. }
    rewrite Hp in Hin.
    pose proof (inv_files _ Hinv) as Hfiles.
    rewrite Hfiles, !fmap_app in Hnd.
    apply NoDup_app in Hnd as (_ & _ & Hnd).
    apply NoDup_app in Hnd as (_ & _ & Hnd).
    rewrite <- fmap_app in Hnd. unfold in_flight in Hnd.
    apply elem_of_app in Hin as [Hin|Hin].
    - apply list_elem_of_bind in Hin as (t' & Hd' & [tid' Ht']%list_elem_of_lookup_1).
      rewrite fmap_app in Hnd. apply NoDup_app in Hnd as (Hnd & _).
      apply (holds_apart ldacname_of _ tid' tid _ _ _ _ Hnd Ht' Ht).
      + intros ->. rewrite Ht in Ht'. simplify_eq. by apply elem_of_nil in Hd'.
      + by apply died_file_holds.
      + simpl. by apply list_elem_of_here.
    - intros Heq. symmetry in Heq. revert Heq.
      apply (fmap_apart ldacname_of _ _ _ _ Hnd); [|done].
      apply list_elem_of_bind. exists (T_process sex f i).
      split; [simpl; by apply list_elem_of_here|by eapply list_elem_of_lookup_2]. }
  destruct Hw as [sex Ht Hq|sex f q Ht Hq|sex f Ht|sex f i out st n Ht Ho Hpr Hn
                 |sex f i out st e Ht Ho Hpr]; unfold kept; simpl; try done.
  - apply Forall_app. split; [done|]. apply Forall_singleton.
    intros f' c' Hf'. by rewrite lookup_empty in Hf'.
  - by eapply Hmove.
  - by eapply Hmove.
Qed.

Lemma reachable_kept names parameters d s :
  NoDup (ldacname_of <$> names) ->
  reachable E names parameters d s -> kept s.
Proof.
  intros Hnd Hr.
  cut (filenames s = names /\ records s /\ kept s); [by intros (_ & _ & ?)|].
  revert s Hr. apply reachable_ind.
  - intros ev p Hs. split; [done|]. split; [|by apply Forall_nil].
    split; simpl; try done. by rewrite (setup_ok_events _ _ _ _ _ _ Hs).
  - intros a s0 s1 Hinv (Hn & Hrec & Hk) Hs.
    split; [by rewrite (step_filenames _ _ _ _ Hs)|].
    destruct a as [|tid]; simpl in Hs.
    + split; [by eapply main_step_records|].
      apply main_step_move in Hs. by destruct Hs.
    + split; [by eapply worker_step_records|].
      eapply worker_step_kept; try done. by rewrite Hn.
Qed.

(** A record whose catalog is the one on disk at its catalog path. *)
Definition catalog_on_disk (d : disk) (out : gmap string outval) : Prop :=
  exists filename c,
    out !! "fits_filename" = Some (OStr filename)
    /\ out !! "catalog_data" = Some (OCatalog c)
    /\ ldac_files d !! ldacname_of filename = Some c.

(** X17. What [extract_multiframe] returns for filenames whose catalog
    paths are all different: a list of complete records (the six entries
    each, with the parameters the set-up prepared and the catalog the tool
    wrote for the frame), whose filenames are the filenames of the batch;
    the order is that of the threads' appends, not necessarily that of
    [filenames].  The catalog of every record is the one on disk at its
    catalog path.  (Frames that share a catalog path write and read one
    file outside [threadLock]; nothing is said of them.) *)
Theorem returned_records names parameters d s :
  NoDup (ldacname_of <$> names) ->
  reachable E names parameters d s ->
  main s = C_returned ->
  exists ev p,
    extract_multiframe_setup E names parameters d = Setup_ok ev p
    /\ Forall (complete p) (output s)
    /\ output s ≫= record_file ≡ₚ names
    /\ Forall (catalog_on_disk (files s)) (output s).
Proof.
  intros Hnd Hr Hret.
  destruct (reachable_setup _ _ _ _ Hr) as (ev & p & Hs). exists ev, p.
  split; [done|].
  destruct (reachable_invariant _ _ _ _ _ Hr) as [Hinv Hnames].
  destruct (reachable_records _ _ _ _ Hr) as [Hf Hc Hp].
  pose proof (reachable_kept _ _ _ _ Hnd Hr) as Hk.
  destruct (returned_idle _ Hinv Hret) as (Hq & Hh & Hsl & Hd).
  rewrite (reachable_param _ _ _ _ _ _ Hs Hr) in Hc.
  assert (Hall : Forall (complete p) (output s)).
  { apply Forall_lookup. intros i out Ho.
    destruct (Hc _ _ Ho) as [Hi|Hi]; [|done].
    rewrite Hsl in Hi. by apply elem_of_nil in Hi. }
  split; [done|]. split.
  - rewrite Hp, Hd. simpl.
    pose proof (inv_files _ Hinv) as Hfiles.
    unfold in_flight in Hfiles. rewrite Hret, Hq, Hh in Hfiles. simpl in Hfiles.
    by rewrite <- Hnames, Hfiles.
  - apply Forall_lookup. intros i out Ho.
    pose proof (proj1 (Forall_lookup _ _) Hall i out Ho)
      as (f & cmd & c & m & hdr & -> & _ & _).
    exists f, c. split; [done|]. split; [done|].
    by apply (proj1 (Forall_lookup _ _) Hk i _ Ho).
Qed.

(** *** Failed frames and the returned list *)




(** *** After the return *)

Lemma returned_step a s s' :
  invariant s -> main s = C_returned -> step E a s = Some s' ->
  main s' = C_returned /\ output s' = output s /\ files s' = files s
  /\ events s' = events s /\ extractQueue s' = extractQueue s
  /\ exists tid sex,
       a = Worker tid /\ threads s !! tid = Some (T_get sex)
       /\ threads s' = <[tid := T_exited]> (threads s).
Proof.
  intros Hinv Hret Hs.
  destruct (returned_idle _ Hinv Hret) as (Hq & Hh & _ & _).
  destruct a as [|tid]; simpl in Hs.
  { unfold main_step in Hs. by rewrite Hret in Hs. }
  apply (worker_step_move _ _ _ Hinv) in Hs.
  destruct Hs as [sex Ht Hq'|sex f q Ht Hq'|sex f Ht|sex f i out st n Ht Ho Hpr Hn
                 |sex f i out st e Ht Ho Hpr];
    try (by rewrite Hq in Hq');
    try (pose proof (holds_length _ _ _ Ht) as Hle; unfold in_flight in Hle;
         rewrite Hh in Hle; simpl in Hle; lia).
  simpl. by eauto 10.
Qed.

(** X18. Once [extract_multiframe] has returned, the threads that are
    still in their loop can only leave it (their [get] times out on the
    empty queue): the list that was returned, the files and the log are
    never changed again. *)
Theorem returned_is_final names parameters d s schedule s' :
  reachable E names parameters d s ->
  main s = C_returned ->
  run E schedule s = Some s' ->
  main s' = C_returned /\ output s' = output s /\ files s' = files s
  /\ events s' = events s /\ extractQueue s' = []
  /\ length (threads s') = length (threads s).
Proof.
  intros [Hinv _]%reachable_invariant Hret.
  destruct (returned_idle _ Hinv Hret) as (Hq & _).
  rewrite <- Hq. clear Hq. revert s Hinv Hret.
  induction schedule as [|a schedule IH]; simpl; intros s Hinv Hret Hrun.
  - by simplify_eq.
  - destruct (step E a s) as [s1|] eqn:Hs; [|done].
    destruct (returned_step _ _ _ Hinv Hret Hs)
      as (Hm & Ho & Hf & He & Hq & tid & sex & _ & _ & Ht).
    destruct (IH s1 (step_invariant _ _ _ _ Hinv Hs) Hm Hrun)
      as (? & ? & ? & ? & ? & ?).
    rewrite <- Ho, <- Hf, <- He, <- Hq.
    repeat split; try done.
    replace (length (threads s)) with (length (threads s1)); [done|].
    by rewrite Ht, length_insert.
Qed.

(** *** The images on disk *)

(** An image that has the cards of lines 152-160 for the parameters [p]. *)
Definition carries (p : params) (hdr : header) : Prop :=
  exists aprads,
    aprad_string E (par_aprad p) = Ok aprads
    /\ hdr !! "APRAD"
       = Some {| card_value := PyStr aprads;
                 card_comment := "aperture phot radius (px)" |}
    /\ hdr !! "SEXSNR"
       = Some {| card_value := PyFloat (par_sex_snr p);
                 card_comment := "Sextractor detection SNR threshold" |}
    /\ hdr !! "SEXAREA"
       = Some {| card_value := PyFloat (par_source_minarea p);
                 card_comment := "Sextractor source area threshold (px)" |}.

Definition updated (s : system) : Prop :=
  forall filename,
    filename ∈ extracted (events s) ->
    exists hdr, fits_files (files s) !! filename = Some hdr /\ carries (param s) hdr.

Lemma step_updated a s s' : invariant s -> updated s -> step E a s = Some s' -> updated s'.
Proof.
  intros Hinv Hu. destruct a as [|tid]; simpl.
  - intros Hm%main_step_move. by destruct Hm.
  - intros Hw%(worker_step_move _ _ _ Hinv).
    destruct Hw as [sex Ht Hq'|sex f q Ht Hq'|sex f Ht|sex f i out st n Ht Ho Hpr Hn
                   |sex f i out st e Ht Ho Hpr]; try done.
    + pose proof (process_logged _ _ _ _ _ _ Hpr) as Hlog. simpl in Hlog.
      destruct (process_ok _ _ _ _ Hpr)
        as (cmd & c & hdr & obs & m & aprads & _ & _ & _ & _ & _ & _ & Ha & Hst).
      intros g. unfold updated in Hu. simpl. rewrite Hlog, Hst. simpl.
      intros Hg. destruct (decide (g = f)) as [->|Hne].
      * exists (updated_header (param s) aprads hdr).
        split; [by rewrite lookup_insert_eq|]. exists aprads.
        unfold updated_header, header_set. split; [done|].
        repeat split; by simplify_map_eq.
      * rewrite lookup_insert_ne by done. apply Hu.
        apply elem_of_app in Hg as [Hg|Hg%list_elem_of_singleton]; done.
    + pose proof (process_logged _ _ _ _ _ _ Hpr) as Hlog. simpl in Hlog.
      destruct (process_raise _ _ _ _ _ Hpr) as (Hfits & _).
      intros g. unfold updated in Hu. simpl. rewrite Hlog, app_nil_r, Hfits.
      apply Hu.
Qed.

(** X19. When [extract_multiframe] has returned, the image of every
    filename of the batch has the cards [APRAD], [SEXSNR] and [SEXAREA] of
    the batch's parameters on disk. *)
Theorem images_updated_at_return names parameters d s filename :
  reachable E names parameters d s ->
  main s = C_returned ->
  filename ∈ names ->
  exists hdr,
    fits_files (files s) !! filename = Some hdr /\ carries (param s) hdr.
Proof.
  intros Hr Hret Hin.
  destruct (reachable_invariant _ _ _ _ _ Hr) as [Hinv Hnames].
  destruct (returned_idle _ Hinv Hret) as (Hq & Hh & _ & _).
  assert (Hu : updated s).
  { clear Hret Hinv Hnames Hq Hh. revert s Hr. apply reachable_ind.
    - intros ev p Hs g. simpl. rewrite (setup_ok_events _ _ _ _ _ _ Hs). simpl.
      by intros ?%elem_of_nil.
    - intros a s0 s1. apply step_updated. }
  apply Hu.
  pose proof (inv_files _ Hinv) as Hfiles. unfold in_flight in Hfiles.
  rewrite Hret, Hq, Hh in Hfiles. simpl in Hfiles.
  by rewrite <- Hfiles, Hnames.
Qed.

(** *** Batches that cannot end *)

(** If no frame can be processed with the prepared parameters, nothing is
    ever logged as extracted and the call does not return. *)
Lemma failing_batch names parameters d s ev p :
  extract_multiframe_setup E names parameters d = Setup_ok ev p ->
  (forall filename st, exists e, snd (process E p filename st) = Raise e) ->
  reachable E names parameters d s ->
  extracted (events s) = [] /\ main s <> C_returned.
Proof.
  intros Hs Hfail Hr.
  assert (Hex : param s = p /\ extracted (events s) = []).
  { revert s Hr. apply reachable_ind.
    - intros ev' p' Hs'. simpl. rewrite (setup_ok_events _ _ _ _ _ _ Hs').
      split; [congruence|done].
    - intros a s0 s1 Hinv [Hp H0] Hstep.
      split; [by rewrite (step_param _ _ _ Hstep)|].
      destruct a as [|tid]; simpl in Hstep.
      + apply main_step_move in Hstep. by destruct Hstep.
      + apply (worker_step_move _ _ _ Hinv) in Hstep.
        destruct Hstep as [sex Ht Hq'|sex f q Ht Hq'|sex f Ht
                          |sex f i out st n Ht Ho Hpr Hn
                          |sex f i out st e Ht Ho Hpr]; try done.
        * rewrite Hp in Hpr.
          destruct (Hfail f {| job_out := out; job_sex := sex; job_files := files s0;
                               job_events := events s0 |}) as [e He].
          by rewrite Hpr in He.
        * apply process_logged in Hpr. simpl in *. by rewrite Hpr, H0. }
  split; [apply Hex|]. intros Hret.
  destruct (reachable_invariant _ _ _ _ _ Hr) as [Hinv Hnames].
  destruct (returned_idle _ Hinv Hret) as (Hq & Hh & _ & _).
  pose proof (inv_files _ Hinv) as Hfiles. unfold in_flight in Hfiles.
  rewrite Hret, Hq, Hh, (proj2 Hex), Hnames in Hfiles. simpl in Hfiles.
  apply Permutation_nil_r in Hfiles. by rewrite Hfiles in Hs.
Qed.

(** X20. With the float zero as ['aprad'] the set-up takes the
    instrument's default diameter and leaves ['aprad'] the float it is;
    line 153 then iterates over that float, so every pass of the loop ends
    with an exception: no frame is ever logged as extracted and the call
    does not return. *)
Theorem float_zero_aprad_never_returns names parameters d s (f : float) :
  par_aprad parameters = ApScalar (PyFloat f) ->
  (f =? 0)%float = true ->
  reachable E names parameters d s ->
  par_aprad (param s) = ApScalar (PyFloat f)
  /\ extracted (events s) = []
  /\ main s <> C_returned.
Proof.
  intros Hap Hz Hr.
  destruct (reachable_setup _ _ _ _ Hr) as (ev & p & Hs).
  assert (Hp : par_aprad p = ApScalar (PyFloat f)).
  { unfold extract_multiframe_setup in Hs.
    repeat (case_match; simplify_eq/=).
    match goal with H : prepare _ _ _ _ _ = Ok _ |- _ =>
      apply prepare_aperture_diam in H as (a & diam & Hset & <- & _) end.
    unfold set_aperture_diam in Hset. rewrite Hap, Hz in Hset. by simplify_eq. }
  rewrite (reachable_param _ _ _ _ _ _ Hs Hr). split; [done|].
  apply (failing_batch _ _ _ _ _ _ Hs); [|done].
  intros filename st.
  destruct (process E p filename st) as [st' [[]|e]] eqn:Hpr; [|by eauto].
  destruct (process_ok _ _ _ _ Hpr)
    as (cmd & c & hdr & obs & m & aprads & _ & _ & _ & _ & _ & _ & Ha & _).
  by rewrite Hp in Ha.
Qed.

(** The images of a batch in which no frame can be processed stay as they
    were. *)
Lemma failing_batch_images names parameters d s ev p :
  extract_multiframe_setup E names parameters d = Setup_ok ev p ->
  (forall filename st, exists e, snd (process E p filename st) = Raise e) ->
  reachable E names parameters d s ->
  fits_files (files s) = fits_files d.
Proof.
  intros Hs Hfail Hr.
  cut (param s = p /\ fits_files (files s) = fits_files d); [by intros [_ ?]|].
  revert s Hr. apply reachable_ind.
  - intros ev' p' Hs'. simpl. split; [congruence|done].
  - intros a s0 s1 Hinv [Hp H0] Hstep.
    split; [by rewrite (step_param _ _ _ Hstep)|].
    destruct a as [|tid]; simpl in Hstep.
    + apply main_step_move in Hstep. by destruct Hstep.
    + apply (worker_step_move _ _ _ Hinv) in Hstep.
      destruct Hstep as [sex Ht Hq'|sex f q Ht Hq'|sex f Ht
                        |sex f i out st n Ht Ho Hpr Hn
                        |sex f i out st e Ht Ho Hpr]; try done.
      * rewrite Hp in Hpr.
        destruct (Hfail f {| job_out := out; job_sex := sex; job_files := files s0;
                             job_events := events s0 |}) as [e He].
        by rewrite Hpr in He.
      * destruct (process_raise _ _ _ _ _ Hpr) as (Hfits & _). simpl in *.
        by rewrite Hfits.
Qed.

(** X27. A threshold the header refuses (for astropy a ['sex_snr'] or a
    ['source_minarea'] that is nan or infinite) makes line 155 or 158 raise
    in every pass of the loop: no frame is ever logged as extracted, no
    image is changed and the call does not return. *)
Theorem refused_threshold_never_returns names parameters d s :
  header_accepts E (PyFloat (par_sex_snr parameters)) = false
  \/ header_accepts E (PyFloat (par_source_minarea parameters)) = false ->
  reachable E names parameters d s ->
  extracted (events s) = []
  /\ main s <> C_returned
  /\ fits_files (files s) = fits_files d.
Proof.
  intros Hno Hr.
  destruct (reachable_setup _ _ _ _ Hr) as (ev & p & Hs).
  assert (Hp : par_sex_snr p = par_sex_snr parameters
               /\ par_source_minarea p = par_source_minarea parameters).
  { pose proof Hs as Hs'. unfold extract_multiframe_setup in Hs'.
    repeat (case_match; simplify_eq/=).
    match goal with
    | H : prepare _ _ _ _ _ = Ok _ |- _ =>
        by apply prepare_fields in H as (_ & _ & _ & ? & ? & _)
    end. }
  destruct Hp as [Hsnr Harea].
  assert (Hfail : forall filename st, exists e, snd (process E p filename st) = Raise e).
  { intros filename st.
    destruct (process E p filename st) as [st' [[]|e]] eqn:Hpr; [|by eauto].
    destruct (process_ok _ _ _ _ Hpr)
      as (cmd & c & hdr & obs & m & aprads & _ & _ & _ & _ & _ & _ & Ha & _).
    destruct (process_ok_cards _ _ _ _ _ Hpr Ha) as (_ & H1 & H2).
    rewrite Hsnr in H1. rewrite Harea in H2. destruct Hno; congruence. }
  destruct (failing_batch _ _ _ _ _ _ Hs Hfail Hr) as [Hex Hret].
  split; [done|]. split; [done|].
  by apply (failing_batch_images _ _ _ _ _ _ Hs Hfail Hr).
Qed.

(** *** What is printed *)

(** The frames for which the line of line 173 was printed. *)
Definition printed (ev : list event) : list string :=
  ev ≫= fun e => match e with Print_extracted _ filename => [filename] | _ => [] end.

Lemma step_printed a s s' :
  invariant s ->
  printed (events s) = (if par_quiet (param s) then [] else extracted (events s)) ->
  step E a s = Some s' ->
  printed (events s') = (if par_quiet (param s') then [] else extracted (events s')).
Proof.
  intros Hinv Hp. destruct a as [|tid]; simpl.
  - intros Hm%main_step_move. by destruct Hm.
  - intros Hw%(worker_step_move _ _ _ Hinv).
    destruct Hw as [sex Ht Hq'|sex f q Ht Hq'|sex f Ht|sex f i out st n Ht Ho Hpr Hn
                   |sex f i out st e Ht Ho Hpr]; try done; simpl.
    + destruct (process_ok _ _ _ _ Hpr)
        as (cmd & c & hdr & obs & m & aprads & _ & _ & _ & _ & _ & _ & _ & ->).
      simpl. unfold printed, extracted, success_lines in *.
      rewrite !bind_app, Hp.
      destruct (par_quiet (param s)); simpl; by rewrite ?app_nil_r.
    + pose proof (process_logged _ _ _ _ _ _ Hpr) as Hlog. simpl in Hlog.
      rewrite Hlog, app_nil_r.
      destruct (process_raise _ _ _ _ _ Hpr) as (_ & _ & _ & [->| ->]); simpl; [done|].
      unfold printed in *. rewrite bind_app. simpl. by rewrite app_nil_r.
Qed.

(** X21. With ['quiet'] set a batch whose set-up went through prints nothing;
    without it, it prints
    the line of each frame it logs as extracted, in the same order. *)
Theorem quiet_prints_nothing names parameters d s :
  reachable E names parameters d s ->
  printed (events s)
  = if par_quiet parameters then [] else extracted (events s).
Proof.
  intros Hr.
  destruct (reachable_setup _ _ _ _ Hr) as (ev & p & Hs).
  assert (Hq : par_quiet p = par_quiet parameters).
  { pose proof Hs as Hs'. unfold extract_multiframe_setup in Hs'.
    repeat (case_match; simplify_eq/=).
    match goal with
    | H : prepare _ _ _ _ _ = Ok _ |- _ =>
        by apply prepare_fields in H as (_ & _ & _ & _ & _ & ? & _)
    end. }
  rewrite <- Hq, <- (reachable_param _ _ _ _ _ _ Hs Hr).
  revert s Hr. apply reachable_ind.
  - intros ev' p' Hs'. simpl. rewrite (setup_ok_events _ _ _ _ _ _ Hs').
    by destruct (par_quiet p').
  - intros a s0 s1. apply step_printed.
Qed.

(** *** A batch that ends *)

Lemma run_app (sch1 sch2 : list action) (s : system) :
  run E (sch1 ++ sch2) s = run E sch1 s ≫= run E sch2.
Proof.
  revert s. induction sch1 as [|a sch1 IH]; intros s; simpl; [done|].
  by destruct (step E a s).
Qed.

(** The schedule in which the first thread takes every frame in turn. *)
Definition first_thread_only (names : list string) : list action :=
  replicate (S (length names)) Main
  ++ replicate (S (Nat.min nThreads (length names))) Main
  ++ (names ≫= fun _ => [Worker 0; Worker 0; Worker 0])
  ++ [Main].

(** What a frame needs for its pass to end without exception, on the files
    [fs]. *)
Definition ready (p : params) (fs : gmap string header) (filename : string) : Prop :=
  exists commandline c hdr obs midtimjd,
    commandline_of E p filename (ldacname_of filename) = Ok commandline
    /\ Popen_launches E commandline = true
    /\ sex_writes E commandline = Some c
    /\ fs !! filename = Some hdr
    /\ par_obsparam p = Some obs
    /\ midtimjd_of E obs hdr = Ok midtimjd.

Lemma run_cons (a : action) (sch : list action) (s : system) :
  run E (a :: sch) s = step E a s ≫= run E sch.
Proof. simpl. by destruct (step E a s). Qed.

Lemma populate_run names p d ev (rest q : list string) (n : nat) :
  Z.of_nat (length q + length rest) <= extractQueue_maxsize ->
  run E (replicate (S (length rest)) Main)
    {| extractQueue := q; unfinished_tasks := n; output := []; threads := [];
       main := C_populate rest; filenames := names; param := p; files := d;
       events := ev |}
  = Some {| extractQueue := q ++ rest; unfinished_tasks := n + length rest;
            output := []; threads := [];
            main := C_spawn (Nat.min nThreads (length names));
            filenames := names; param := p; files := d; events := ev |}.
Proof.
  revert q n. induction rest as [|f rest IH]; intros q n Hle.
  - change (replicate (S (length (@nil string))) Main) with [Main].
    rewrite run_cons. cbn [step]. unfold main_step, with_main. cbn.
    by rewrite app_nil_r, Nat.add_0_r.
  - change (replicate (S (length (f :: rest))) Main)
      with (Main :: replicate (S (length rest)) Main).
    rewrite run_cons. cbn [step]. unfold main_step.
    cbn [main extractQueue]. cbn [length] in Hle.
    rewrite (proj2 (Z.ltb_lt (Z.of_nat (length q)) extractQueue_maxsize)) by lia.
    unfold with_main, with_queue. cbn [mbind option_bind extractQueue unfinished_tasks
      output threads main filenames param files events].
    rewrite IH by (rewrite length_app; cbn [length]; lia).
    rewrite <- (assoc_L (++)). cbn [app length].
    by replace (S n + length rest)%nat with (n + S (length rest))%nat by lia.
Qed.

Lemma spawn_run names p d ev (q : list string) (n k : nat) (ts : list thread) :
  run E (replicate (S k) Main)
    {| extractQueue := q; unfinished_tasks := n; output := []; threads := ts;
       main := C_spawn k; filenames := names; param := p; files := d;
       events := ev |}
  = Some {| extractQueue := q; unfinished_tasks := n; output := [];
            threads := ts ++ replicate k (T_get None);
            main := C_join; filenames := names; param := p; files := d;
            events := ev |}.
Proof.
  revert ts. induction k as [|k IH]; intros ts.
  - change (replicate 1 Main) with [Main].
    rewrite run_cons. cbn [step]. unfold main_step, with_main. cbn.
    by rewrite app_nil_r.
  - change (replicate (S (S k)) Main) with (Main :: replicate (S k) Main).
    rewrite run_cons. cbn [step]. unfold main_step, with_main, with_threads.
    cbn [mbind option_bind extractQueue unfinished_tasks
      output threads main filenames param files events].
    rewrite IH. cbn [replicate]. by rewrite <- (assoc_L (++)).
Qed.

Lemma work_run names p aprads (q : list string) :
  aprad_string E (par_aprad p) = Ok aprads ->
  cards_accepted p aprads ->
  NoDup q ->
  forall sex ts o d ev,
    (forall filename, filename ∈ q -> ready p (fits_files d) filename) ->
    exists sex' o' d' ev',
      run E (q ≫= fun _ => [Worker 0; Worker 0; Worker 0])
        {| extractQueue := q; unfinished_tasks := length q; output := o;
           threads := T_get sex :: ts; main := C_join; filenames := names;
           param := p; files := d; events := ev |}
      = Some {| extractQueue := []; unfinished_tasks := 0; output := o';
                threads := T_get sex' :: ts; main := C_join; filenames := names;
                param := p; files := d'; events := ev' |}.
Proof.
  intros Ha Hcards. induction q as [|f q IH]; intros Hnd sex ts o d ev Hready.
  - by exists sex, o, d, ev.
  - apply NoDup_cons in Hnd as [Hf Hnd].
    destruct (Hready f) as (cmd & c & hdr & obs & m & Hcmd & Hl & Hw & Hhdr & Hobs & Hm);
      [set_solver|].
    destruct (process_succeeds p f
                {| job_out := ∅; job_sex := sex; job_files := d; job_events := ev |}
                cmd c hdr obs m aprads Hcmd Hl Hw Hhdr Hobs Hm Ha Hcards)
      as [st Hpr].
    destruct (process_ok _ _ _ _ Hpr)
      as (cmd' & c' & hdr' & obs' & m' & aprads' & _ & _ & _ & _ & _ & _ & _ & Hst).
    assert (Hthree :
      run E [Worker 0; Worker 0; Worker 0]
        {| extractQueue := f :: q; unfinished_tasks := length (f :: q); output := o;
           threads := T_get sex :: ts; main := C_join; filenames := names;
           param := p; files := d; events := ev |}
      = Some {| extractQueue := q; unfinished_tasks := length q;
                output := <[length o := job_out st]> (o ++ [∅]);
                threads := T_get (job_sex st) :: ts; main := C_join;
                filenames := names; param := p; files := job_files st;
                events := job_events st |}).
    { simpl. unfold worker_step. simpl.
      rewrite lookup_app_r by done. rewrite Nat.sub_diag. simpl.
      by rewrite Hpr. }
    assert (Hsch : ((f :: q) ≫= fun _ : string => [Worker 0; Worker 0; Worker 0])
                   = [Worker 0; Worker 0; Worker 0]
                     ++ (q ≫= fun _ : string => [Worker 0; Worker 0; Worker 0]))
      by reflexivity.
    rewrite Hsch, run_app, Hthree. cbn [mbind option_bind].
    apply (IH Hnd).
    intros g Hg.
    destruct (Hready g) as (cmdg & cg & hdrg & obsg & mg & ? & ? & ? & Hhg & ? & ?);
      [set_solver|].
    exists cmdg, cg, hdrg, obsg, mg. repeat split; try done.
    rewrite Hst. simpl. rewrite lookup_insert_ne; [done|]. by intros ->.
Qed.

(** X22. A batch ends when nothing stands in its way: if the set-up goes
    through, the batch has at most 10000 filenames, all different,
    ['aprad'] can be iterated, the header takes the three cards (the
    thresholds are finite), and for every frame the tool can be launched on
    the frame's command line and leaves a catalog, and the image is there
    with a mid-time that can be computed, then [extract_multiframe] can
    return its output list (for one, when the first thread takes every
    frame). *)
Theorem batch_returns names parameters d ev p aprads :
  extract_multiframe_setup E names parameters d = Setup_ok ev p ->
  Z.of_nat (length names) <= extractQueue_maxsize ->
  NoDup names ->
  aprad_string E (par_aprad p) = Ok aprads ->
  cards_accepted p aprads ->
  (forall filename, filename ∈ names -> ready p (fits_files d) filename) ->
  exists s,
    run E (first_thread_only names) (initial names p d ev) = Some s
    /\ main s = C_returned
    /\ returns E names parameters d (Ret_output (output s)).
Proof.
  intros Hs Hle Hnd Ha Hcards Hready.
  assert (Hrun : exists s,
             run E (first_thread_only names) (initial names p d ev) = Some s
             /\ main s = C_returned).
  { unfold first_thread_only, initial.
    destruct names as [|first rest]; [done|].
    set (names := first :: rest) in *.
    rewrite run_app, (populate_run names p d ev names [] 0) by exact Hle.
    cbn [mbind option_bind app Nat.add].
    rewrite run_app, spawn_run. cbn [mbind option_bind app].
    assert (Hts : replicate (Nat.min nThreads (length names)) (T_get None)
                  = T_get None
                    :: replicate (Nat.min nThreads (length names) - 1) (T_get None)).
    { destruct (Nat.min nThreads (length names)) as [|k] eqn:Hk.
      - unfold nThreads, names in Hk. cbn [length] in Hk. lia.
      - cbn [replicate]. by rewrite Nat.sub_1_r. }
    rewrite Hts.
    destruct (work_run names p aprads names Ha Hcards Hnd None
                (replicate (Nat.min nThreads (length names) - 1) (T_get None))
                [] d ev Hready) as (sex' & o' & d' & ev' & Hwork).
    rewrite run_app, Hwork. cbn [mbind option_bind].
    eexists. split; reflexivity. }
  destruct Hrun as (s & Hrun & Hret). exists s. split; [done|]. split; [done|].
  exists s. split; [|done].
  exists (initial names p d ev), (first_thread_only names).
  split; [|done]. unfold extract_multiframe_start. by rewrite Hs.
Qed.

(** ** The script run from the command line, lines 286-323 *)

(** What [parser.parse_args()] returns.  A value given on the command line
    is a string; [-snr] and [-minarea] default to the numbers [1.5] and
    [3], [-aprad] to the empty string. *)
Record arguments := {
  arg_snr : pyval;
  arg_minarea : pyval;
  arg_paramfile : option string;
  arg_aprad : string;
  arg_telescope : option string;
  arg_quiet : bool;
  arg_images : list string;
}.

(** Lines 307-320: the dictionary [parameters]. *)
Definition script_parameters (args : arguments) : res params :=
  try! sex_snr := py_float E (arg_snr args) in
  try! source_minarea := py_float E (arg_minarea args) in
  Ok {| par_telescope := PyStr <$> arg_telescope args;
        par_aprad := ApScalar (PyStr (arg_aprad args));
        par_sex_snr := sex_snr;
        par_source_minarea := source_minarea;
        par_quiet := arg_quiet args;
        par_paramfile := arg_paramfile args;
        par_obsparam := None;
        par_aperture_diam := None;
        par_mask_file := None |}.

(** Line 311 binds the module-level name [telescope]. *)
Definition script_environment (args : arguments) : environment :=
  {| telescope_parameters := telescope_parameters E;
     module_telescope := Some (arg_telescope args);
     dateobs_to_jd := dateobs_to_jd E;
     float_str := float_str E;
     float_int := float_int E;
     str_float := str_float E;
     format_f := format_f E;
     Popen_launches := Popen_launches E;
     sex_writes := sex_writes E;
     header_accepts := header_accepts E |}.

(** Lines 307-323, up to the point where [extract_multiframe] has
    prepared the batch. *)
Definition script (args : arguments) (d : disk) : res setup :=
  try! parameters := script_parameters args in
  Ok (extract_multiframe_setup (script_environment args) (arg_images args) parameters d).

(** X23. Run as a script, the batch gets past the set-up only with an
    [-aprad] that is one number [float] reads: the radius is then kept as
    the one-element list of that string and the diameter is [str] of twice
    its value.  With an [-aprad] that [float] does not read (the default,
    the empty string, or a comma separated list), a set-up that finds its
    first image and the telescope ends with the [ValueError] of [float]. *)
Theorem script_aprad args d :
  (forall ev p,
     script args d = Ok (Setup_ok ev p) ->
     exists r,
       float_str E (arg_aprad args) = Some r
       /\ par_aprad p = ApList [PyStr (arg_aprad args)]
       /\ par_aperture_diam p = Some (str_float E (r * 2)%float))
  /\ (forall parameters first rest hdr t obs,
        script_parameters args = Ok parameters ->
        arg_images args = first :: rest ->
        fits_files d !! first = Some hdr ->
        telescope_of parameters hdr = Some t ->
        lookup_telescope E t = Some obs ->
        float_str E (arg_aprad args) = None ->
        script args d
        = Ok (Setup_raise
                [Log_info_extract_sources (length (first :: rest)); Log_info_parameters]
                ValueError)).
Proof.
  assert (Hap : forall parameters,
             script_parameters args = Ok parameters ->
             par_aprad parameters = ApScalar (PyStr (arg_aprad args))).
  { intros parameters Hpar. unfold script_parameters in Hpar.
    destruct (py_float E (arg_snr args)); [|done]. simpl in Hpar.
    destruct (py_float E (arg_minarea args)); [|done]. simpl in Hpar.
    by simplify_eq. }
  split.
  - intros ev p H. unfold script in H.
    destruct (script_parameters args) as [parameters|] eqn:Hpar; [|done].
    simpl in H. injection H as H.
    unfold extract_multiframe_setup in H.
    repeat (case_match; simplify_eq/=).
    match goal with H : prepare _ _ _ _ _ = Ok _ |- _ =>
      apply prepare_aperture_diam in H as (a & diam & Hset & <- & ->) end.
    unfold set_aperture_diam in Hset. rewrite (Hap _ eq_refl) in Hset. simpl in Hset.
    destruct (float_str E (arg_aprad args)) as [r|]; [|done].
    simpl in Hset. simplify_eq. by exists r.
  - intros parameters first rest hdr t obs Hpar Himg Hhdr Ht Hobs Hnone.
    unfold script. rewrite Hpar. simpl.
    unfold extract_multiframe_setup. rewrite Himg, Hhdr, Ht.
    replace (lookup_telescope (script_environment args) t) with (lookup_telescope E t)
      by (by destruct t).
    rewrite Hobs. unfold prepare, set_aperture_diam.
    rewrite (Hap _ Hpar). simpl. by rewrite Hnone.
Qed.

(** X24. Run as a script, a telescope that is not in
    [_pp_conf.telescope_parameters] ends the call with [{}] and the two
    messages; they name the telescope given with [-telescope], that is
    [None] when the name that was looked up came from the image. *)
Theorem script_unknown_telescope args d parameters first rest hdr t :
  script_parameters args = Ok parameters ->
  arg_images args = first :: rest ->
  fits_files d !! first = Some hdr ->
  telescope_of parameters hdr = Some t ->
  lookup_telescope E t = None ->
  script args d
  = Ok (Setup_return_empty_dict
          [Log_info_extract_sources (length (first :: rest)); Log_info_parameters;
           Print_unknown_telescope (arg_telescope args);
           Log_critical_unknown_telescope (arg_telescope args)]).
Proof.
  intros Hpar Himg Hhdr Ht Hobs. unfold script. rewrite Hpar. simpl.
  unfold extract_multiframe_setup. rewrite Himg, Hhdr, Ht.
  replace (lookup_telescope (script_environment args) t) with (lookup_telescope E t)
    by (by destruct t).
  by rewrite Hobs.
Qed.

End Properties.

(** * The further properties on the concrete batches *)

Definition demo_obs1 : obsparam := demo_obs ("CCDBIN1", "CCDBIN2") "DATE-OBS".

Definition demo_obs3 : obsparam := demo_obs ("CCDSUM_blank0", "CCDSUM_blank1") "DATE|UT".

(** An image without the card of the first binning key. *)
Definition demo_disk_unbinned : disk :=
  {| fits_files := {[ "a.fits" := delete "CCDBIN1" demo_header ]};
     ldac_files := ∅ |}.

Definition demo_log (n : nat) : list event :=
  [Log_info_extract_sources n; Log_info_parameters].

Lemma ldacname_cut_at_first_fit_witness :
  PyString.contains ".fit" "image" = false
  /\ ldacname_of ("image" +:+ ".fit" +:+ "s.gz") = "image" +:+ ".ldac".
Proof.
  assert (H : PyString.contains ".fit" "image" = false) by reflexivity.
  split; [exact H|]. exact (ldacname_cut_at_first_fit "image" "s.gz" H).
Defined.

Lemma ldacname_without_fit_witness :
  PyString.contains ".fit" ("image.ft" +:+ "s") = false
  /\ ldacname_of ("image.ft" +:+ "s") = "image.ft" +:+ ".ldac".
Proof.
  assert (H : PyString.contains ".fit" ("image.ft" +:+ "s") = false) by reflexivity.
  split; [exact H|]. exact (ldacname_without_fit "image.ft" "s" H).
Defined.

Lemma setup_ok_parameters_witness :
  extract_multiframe_setup env_ok ["a.fits"; "b.fits"] demo_batch demo_disk
  = Setup_ok (demo_log 2) demo_prepared
  /\ par_telescope demo_prepared = Some (PyStr "DEMO")
  /\ par_obsparam demo_prepared = Some demo_obs1
  /\ exists first rest hdr name obs,
       ["a.fits"; "b.fits"] = first :: rest
       /\ fits_files demo_disk !! first = Some hdr
       /\ (par_telescope demo_batch = Some (PyStr name)
           \/ (par_telescope demo_batch = None
               /\ card_value <$> hdr !! "TEL_KEYW" = Some (PyStr name)))
       /\ telescope_parameters env_ok !! name = Some obs
       /\ par_telescope demo_prepared = Some (PyStr name)
       /\ par_obsparam demo_prepared = Some obs
       /\ is_Some (par_aperture_diam demo_prepared)
       /\ par_sex_snr demo_prepared = par_sex_snr demo_batch
       /\ par_source_minarea demo_prepared = par_source_minarea demo_batch
       /\ par_quiet demo_prepared = par_quiet demo_batch
       /\ par_paramfile demo_prepared = par_paramfile demo_batch.
Proof.
  assert (H : extract_multiframe_setup env_ok ["a.fits"; "b.fits"] demo_batch demo_disk
              = Setup_ok (demo_log 2) demo_prepared) by (vm_compute; reflexivity).
  split; [exact H|].
  split; [vm_compute; reflexivity|]. split; [vm_compute; reflexivity|].
  exact (setup_ok_parameters env_ok _ _ _ _ _ H).
Defined.

Lemma mask_file_for_binning_witness :
  PyString.contains "_" (fst (obs_binning demo_obs1)) = false
  /\ prepare env_ok demo_batch (PyStr "DEMO") demo_obs1 demo_header = Ok demo_prepared
  /\ par_mask_file demo_prepared
     = match obs_mask_file demo_obs1 !! (pretty 2%Z +:+ "," +:+ pretty 2%Z) with
       | Some mask_file => Some mask_file
       | None => par_mask_file demo_batch
       end
  /\ obs_mask_file demo_obs1 !! (pretty 2%Z +:+ "," +:+ pretty 2%Z)
     = Some "mask_2x2.fits".
Proof.
  assert (H1 : PyString.contains "_" (fst (obs_binning demo_obs1)) = false)
    by reflexivity.
  assert (H2 : prepare env_ok demo_batch (PyStr "DEMO") demo_obs1 demo_header
               = Ok demo_prepared) by (vm_compute; reflexivity).
  split; [exact H1|]. split; [exact H2|]. split; [|vm_compute; reflexivity].
  apply (mask_file_for_binning env_ok demo_batch (PyStr "DEMO") demo_obs1 demo_header
           demo_prepared (demo_card (PyInt 2)) (demo_card (PyInt 2)) 2 2 H1);
    [vm_compute; reflexivity|reflexivity|vm_compute; reflexivity|reflexivity|exact H2].
Defined.

Lemma blank_binning_reads_words_witness :
  obs_binning demo_obs3 = ("CCDSUM" +:+ "_" +:+ "blank0", "CCDSUM" +:+ "_" +:+ "blank1")
  /\ card_value <$> demo_header !! "CCDSUM" = Some (PyStr "2 2")
  /\ String.words "2 2" = ["2"; "2"]
  /\ read_binning env_ok demo_obs3 demo_header
     = Ok (Some (PyFloat 2, PyFloat 2)).
Proof.
  assert (H1 : obs_binning demo_obs3
               = ("CCDSUM" +:+ "_" +:+ "blank0", "CCDSUM" +:+ "_" +:+ "blank1"))
    by reflexivity.
  assert (H2 : card_value <$> demo_header !! "CCDSUM" = Some (PyStr "2 2"))
    by (vm_compute; reflexivity).
  split; [exact H1|]. split; [exact H2|]. split; [vm_compute; reflexivity|].
  apply (blank_binning_reads_words env_ok demo_obs3 demo_header
           "CCDSUM" "blank0" "CCDSUM" "blank1" "2 2" "2 2" "2" "2" 2%float 2%float H1);
    try exact H2; vm_compute; reflexivity.
Defined.

Lemma missing_binning_card_raises_witness :
  fits_files demo_disk_unbinned !! "a.fits" = Some (delete "CCDBIN1" demo_header)
  /\ delete "CCDBIN1" demo_header !! fst (obs_binning demo_obs1) = None
  /\ extract_multiframe_setup env_ok ["a.fits"] demo_batch demo_disk_unbinned
     = Setup_raise (demo_log 1) KeyError
  /\ extract_multiframe_start env_ok ["a.fits"] demo_batch demo_disk_unbinned = None.
Proof.
  assert (H1 : fits_files demo_disk_unbinned !! "a.fits"
               = Some (delete "CCDBIN1" demo_header)) by (vm_compute; reflexivity).
  assert (H2 : delete "CCDBIN1" demo_header !! fst (obs_binning demo_obs1) = None)
    by (vm_compute; reflexivity).
  split; [exact H1|]. split; [exact H2|].
  apply (missing_binning_card_raises env_ok "a.fits" [] demo_batch demo_disk_unbinned
           (delete "CCDBIN1" demo_header) (PyStr "DEMO") demo_obs1
           (ApList [PyFloat 3; PyFloat 5], "6.0,10.0") H1);
    [vm_compute; reflexivity|vm_compute; reflexivity|vm_compute; reflexivity
    |reflexivity|left; exact H2].
Defined.

Lemma unreadable_radius_raises_witness :
  mapM (py_float env_ok) [PyFloat 3] = Ok [3%float]
  /\ float_str env_ok "3,5" = None
  /\ set_aperture_diam env_ok (ApList ([PyFloat 3] ++ PyStr "3,5" :: [PyInt 4])) demo_obs1
     = Raise ValueError
  /\ prepare env_ok (demo_parameters None (ApList ([PyFloat 3] ++ PyStr "3,5" :: [PyInt 4])))
       (PyStr "DEMO") demo_obs1 demo_header
     = Raise ValueError.
Proof.
  assert (H1 : mapM (py_float env_ok) [PyFloat 3] = Ok [3%float]) by reflexivity.
  assert (H2 : float_str env_ok "3,5" = None) by (vm_compute; reflexivity).
  split; [exact H1|]. split; [exact H2|].
  exact (unreadable_radius_raises env_ok [PyFloat 3] [PyInt 4] "3,5" [3%float]
           (demo_parameters None (ApList ([PyFloat 3] ++ PyStr "3,5" :: [PyInt 4])))
           (PyStr "DEMO") demo_obs1 demo_header H1 H2 eq_refl).
Defined.

(** The pass of the loop on ["a.fits"], with the parameters of the set-up,
    and the same pass when the tool leaves no catalog. *)
Definition demo_pass : job_state * res unit :=
  process env_ok demo_prepared "a.fits" demo_job.

Definition demo_failed_pass : job_state * res unit :=
  process env_no_catalog demo_prepared "a.fits" demo_job.

Lemma demo_pass_ok : demo_pass = (fst demo_pass, Ok tt).
Proof. vm_compute. reflexivity. Qed.

Lemma processed_record_witness :
  demo_pass = (fst demo_pass, Ok tt)
  /\ job_out (fst demo_pass) !! "fits_filename" = Some (OStr "a.fits")
  /\ job_out (fst demo_pass) !! "ldac_filename" = Some (OStr "a.ldac")
  /\ exists c midtimjd hdr,
       job_out (fst demo_pass) !! "fits_filename" = Some (OStr "a.fits")
       /\ job_out (fst demo_pass) !! "ldac_filename" = Some (OStr (ldacname_of "a.fits"))
       /\ job_out (fst demo_pass) !! "parameters" = Some (OParameters demo_prepared)
       /\ job_out (fst demo_pass) !! "catalog_data" = Some (OCatalog c)
       /\ job_out (fst demo_pass) !! "time" = Some (OVal midtimjd)
       /\ job_out (fst demo_pass) !! "fits_header" = Some (OHeader hdr)
       /\ ldac_files (job_files (fst demo_pass)) !! ldacname_of "a.fits" = Some c
       /\ fits_files (job_files (fst demo_pass)) !! "a.fits" = Some hdr
       /\ forall k,
            k ∉ ["fits_filename"; "ldac_filename"; "parameters"; "catalog_data";
                 "time"; "fits_header"] ->
            job_out (fst demo_pass) !! k = job_out demo_job !! k.
Proof.
  pose proof demo_pass_ok as H.
  split; [exact H|].
  split; [vm_compute; reflexivity|]. split; [vm_compute; reflexivity|].
  exact (processed_record env_ok demo_prepared "a.fits" demo_job _ H).
Defined.

Lemma header_update_witness :
  demo_pass = (fst demo_pass, Ok tt)
  /\ aprad_string env_ok (par_aprad demo_prepared) = Ok "3.0,5.0"
  /\ exists hdr hdr' aprads,
       fits_files (job_files demo_job) !! "a.fits" = Some hdr
       /\ fits_files (job_files (fst demo_pass)) !! "a.fits" = Some hdr'
       /\ aprad_string env_ok (par_aprad demo_prepared) = Ok aprads
       /\ hdr' !! "APRAD"
          = Some {| card_value := PyStr aprads;
                    card_comment := "aperture phot radius (px)" |}
       /\ hdr' !! "SEXSNR"
          = Some {| card_value := PyFloat (par_sex_snr demo_prepared);
                    card_comment := "Sextractor detection SNR threshold" |}
       /\ hdr' !! "SEXAREA"
          = Some {| card_value := PyFloat (par_source_minarea demo_prepared);
                    card_comment := "Sextractor source area threshold (px)" |}
       /\ forall k, k <> "APRAD" -> k <> "SEXSNR" -> k <> "SEXAREA" ->
                    hdr' !! k = hdr !! k.
Proof.
  pose proof demo_pass_ok as H.
  split; [exact H|]. split; [vm_compute; reflexivity|].
  exact (header_update env_ok demo_prepared "a.fits" demo_job _ H).
Defined.

Lemma other_files_untouched_witness :
  demo_failed_pass = (fst demo_failed_pass, Raise IOError)
  /\ fits_files (job_files (fst demo_failed_pass)) !! "b.fits"
     = fits_files (job_files demo_job) !! "b.fits"
  /\ fits_files (job_files (fst demo_failed_pass)) = fits_files (job_files demo_job).
Proof.
  assert (H : demo_failed_pass = (fst demo_failed_pass, Raise IOError))
    by (vm_compute; reflexivity).
  destruct (other_files_untouched env_no_catalog demo_prepared "a.fits" demo_job _ _ H)
    as (Hf & _ & He).
  split; [exact H|]. split; [by apply Hf|by apply (He IOError)].
Defined.

Lemma catalog_is_fresh_witness :
  demo_pass = (fst demo_pass, Ok tt)
  /\ ldac_files (job_files (fst demo_pass)) !! ldacname_of "a.fits" = Some demo_catalog
  /\ exists commandline,
       commandline_of env_ok demo_prepared "a.fits" (ldacname_of "a.fits")
       = Ok commandline
       /\ Popen_launches env_ok commandline = true
       /\ sex_writes env_ok commandline = Some demo_catalog.
Proof.
  pose proof demo_pass_ok as H.
  assert (Hc : ldac_files (job_files (fst demo_pass)) !! ldacname_of "a.fits"
               = Some demo_catalog) by (vm_compute; reflexivity).
  split; [exact H|]. split; [exact Hc|].
  exact (catalog_is_fresh env_ok demo_prepared "a.fits" demo_job _ _ demo_catalog H
           (or_introl Hc)).
Defined.

Lemma frame_log_lines_witness :
  demo_pass = (fst demo_pass, Ok tt)
  /\ par_quiet demo_prepared = true
  /\ exists c,
       job_out (fst demo_pass) !! "catalog_data" = Some (OCatalog c)
       /\ job_events (fst demo_pass)
          = job_events demo_job
            ++ Log_info_extracted (length (data c)) "a.fits"
            :: (if par_quiet demo_prepared then []
                else [Print_extracted (length (data c)) "a.fits"]).
Proof.
  pose proof demo_pass_ok as H.
  split; [exact H|]. split; [vm_compute; reflexivity|].
  exact (frame_log_lines env_ok demo_prepared "a.fits" demo_job _ _ H).
Defined.

Lemma frame_succeeds_iff_witness :
  ((exists st', process env_ok demo_prepared "a.fits" demo_job = (st', Ok tt))
   <-> exists commandline c hdr obs midtimjd aprads,
         commandline_of env_ok demo_prepared "a.fits" (ldacname_of "a.fits")
         = Ok commandline
         /\ Popen_launches env_ok commandline = true
         /\ sex_writes env_ok commandline = Some c
         /\ fits_files (job_files demo_job) !! "a.fits" = Some hdr
         /\ par_obsparam demo_prepared = Some obs
         /\ midtimjd_of env_ok obs hdr = Ok midtimjd
         /\ aprad_string env_ok (par_aprad demo_prepared) = Ok aprads
         /\ cards_accepted env_ok demo_prepared aprads)
  /\ (exists st', process env_ok demo_prepared "a.fits" demo_job = (st', Ok tt))
  /\ cards_accepted env_ok demo_prepared "3.0,5.0".
Proof.
  split; [exact (frame_succeeds_iff env_ok demo_prepared "a.fits" demo_job)|].
  split; [exists (fst demo_pass); exact demo_pass_ok|].
  repeat split; vm_compute; reflexivity.
Defined.

Lemma returned_state_reachable :
  reachable env_ok ["a.fits"; "b.fits"] demo_batch demo_disk returned_state.
Proof.
  apply (demo_state_reachable _ _ (two_frames ++ [Main])). vm_compute. reflexivity.
Qed.

Lemma returned_state_returned : main returned_state = C_returned.
Proof. vm_compute. reflexivity. Qed.

Lemma demo_setup_two :
  extract_multiframe_setup env_ok ["a.fits"; "b.fits"] demo_batch demo_disk
  = Setup_ok (demo_log 2) demo_prepared.
Proof. vm_compute. reflexivity. Qed.

(** A state of any environment, batch and disk: the one reached from line
    246 by the steps of [schedule]. *)
Definition state_after (env : environment) (names : list string) (parameters : params)
  (d : disk) (schedule : list action) : option system :=
  extract_multiframe_start env names parameters d ≫= run env schedule.

Lemma state_after_reachable env names parameters d schedule s :
  state_after env names parameters d schedule = Some s ->
  reachable env names parameters d s.
Proof.
  unfold state_after, reachable. intros H.
  destruct (extract_multiframe_start env names parameters d) as [s0|]; [|done].
  by exists s0, schedule.
Qed.

Lemma thread_pool_size_witness :
  reachable env_ok ["a.fits"; "b.fits"] demo_batch demo_disk returned_state
  /\ length (threads returned_state) = 2%nat
  /\ (length (threads returned_state) <= Nat.min nThreads 2)%nat
  /\ (main returned_state = C_join \/ main returned_state = C_returned ->
      length (threads returned_state) = Nat.min nThreads 2).
Proof.
  pose proof returned_state_reachable as H.
  destruct (thread_pool_size env_ok _ _ _ _ H) as (Hle & Heq & _).
  split; [exact H|]. split; [vm_compute; reflexivity|]. split; [exact Hle|exact Heq].
Defined.

(** Three filenames are queued; [extract_multiframe] is still putting. *)
Definition filling_state : system :=
  the_state (state_after env_ok ["a.fits"; "b.fits"; "a.fits"] demo_batch demo_disk
               [Main; Main]).

Lemma queue_within_capacity_witness :
  reachable env_ok ["a.fits"; "b.fits"; "a.fits"] demo_batch demo_disk filling_state
  /\ main filling_state = C_populate ["a.fits"]
  /\ extractQueue filling_state = ["a.fits"; "b.fits"]
  /\ Z.of_nat (length (extractQueue filling_state)) <= extractQueue_maxsize
  /\ extractQueue filling_state ++ ["a.fits"] = ["a.fits"; "b.fits"; "a.fits"].
Proof.
  assert (H : reachable env_ok ["a.fits"; "b.fits"; "a.fits"] demo_batch demo_disk
                filling_state).
  { apply (state_after_reachable _ _ _ _ [Main; Main]). vm_compute. reflexivity. }
  assert (Hm : main filling_state = C_populate ["a.fits"]) by (vm_compute; reflexivity).
  destruct (queue_within_capacity env_ok _ _ _ _ H) as (Hle & Hq).
  split; [exact H|]. split; [exact Hm|]. split; [vm_compute; reflexivity|].
  split; [exact Hle|exact (Hq _ Hm)].
Defined.

(** One filename more than the queue has places. *)
Definition oversized_batch : list string :=
  replicate (Z.to_nat (extractQueue_maxsize + 1)) "a.fits".

Definition oversized_start : system :=
  initial oversized_batch demo_prepared demo_disk
    (demo_log (Z.to_nat (extractQueue_maxsize + 1))).

Lemma oversized_batch_never_starts_witness :
  extractQueue_maxsize < Z.of_nat (length oversized_batch)
  /\ reachable env_ok oversized_batch demo_batch demo_disk oversized_start
  /\ exists filename rest,
       main oversized_start = C_populate (filename :: rest)
       /\ threads oversized_start = [] /\ output oversized_start = []
       /\ extractQueue oversized_start ++ filename :: rest = oversized_batch.
Proof.
  assert (H1 : extractQueue_maxsize < Z.of_nat (length oversized_batch))
    by (vm_compute; reflexivity).
  assert (H2 : reachable env_ok oversized_batch demo_batch demo_disk oversized_start).
  { exists oversized_start, []. split; [vm_compute; reflexivity|reflexivity]. }
  split; [exact H1|]. split; [exact H2|].
  exact (oversized_batch_never_starts env_ok _ _ _ _ H1 H2).
Defined.

Lemma demo_catalog_paths : NoDup (ldacname_of <$> ["a.fits"; "b.fits"]).
Proof.
  change (NoDup ["a.ldac"; "b.ldac"]).
  apply NoDup_cons. split; [|apply NoDup_singleton].
  intros Hin%list_elem_of_singleton. discriminate Hin.
Qed.

Lemma returned_records_witness :
  NoDup (ldacname_of <$> ["a.fits"; "b.fits"])
  /\ reachable env_ok ["a.fits"; "b.fits"] demo_batch demo_disk returned_state
  /\ main returned_state = C_returned
  /\ output returned_state ≫= record_file = ["b.fits"; "a.fits"]
  /\ ldac_files (files returned_state) !! "b.ldac" = Some demo_catalog
  /\ exists ev p,
       extract_multiframe_setup env_ok ["a.fits"; "b.fits"] demo_batch demo_disk
       = Setup_ok ev p
       /\ Forall (complete env_ok p) (output returned_state)
       /\ output returned_state ≫= record_file ≡ₚ ["a.fits"; "b.fits"]
       /\ Forall (catalog_on_disk (files returned_state)) (output returned_state).
Proof.
  pose proof demo_catalog_paths as H0.
  pose proof returned_state_reachable as H1.
  pose proof returned_state_returned as H2.
  split; [exact H0|]. split; [exact H1|]. split; [exact H2|].
  split; [vm_compute; reflexivity|]. split; [vm_compute; reflexivity|].
  exact (returned_records env_ok _ _ _ _ H0 H1 H2).
Defined.


(** After the return, the first thread leaves its loop. *)
Definition after_return_state : system :=
  the_state (run env_ok [Worker 0] returned_state).

Lemma returned_is_final_witness :
  reachable env_ok ["a.fits"; "b.fits"] demo_batch demo_disk returned_state
  /\ main returned_state = C_returned
  /\ run env_ok [Worker 0] returned_state = Some after_return_state
  /\ threads after_return_state !! 0%nat = Some T_exited
  /\ main after_return_state = C_returned
  /\ output after_return_state = output returned_state
  /\ files after_return_state = files returned_state
  /\ events after_return_state = events returned_state
  /\ extractQueue after_return_state = []
  /\ length (threads after_return_state) = length (threads returned_state).
Proof.
  pose proof returned_state_reachable as H1.
  pose proof returned_state_returned as H2.
  assert (H3 : run env_ok [Worker 0] returned_state = Some after_return_state)
    by (vm_compute; reflexivity).
  split; [exact H1|]. split; [exact H2|]. split; [exact H3|].
  split; [vm_compute; reflexivity|].
  exact (returned_is_final env_ok _ _ _ _ _ _ H1 H2 H3).
Defined.

Lemma images_updated_at_return_witness :
  reachable env_ok ["a.fits"; "b.fits"] demo_batch demo_disk returned_state
  /\ main returned_state = C_returned
  /\ "b.fits" ∈ ["a.fits"; "b.fits"]
  /\ exists hdr,
       fits_files (files returned_state) !! "b.fits" = Some hdr
       /\ carries env_ok (param returned_state) hdr.
Proof.
  pose proof returned_state_reachable as H1.
  pose proof returned_state_returned as H2.
  assert (H3 : "b.fits" ∈ ["a.fits"; "b.fits"])
    by (apply list_elem_of_further, list_elem_of_here).
  split; [exact H1|]. split; [exact H2|]. split; [exact H3|].
  exact (images_updated_at_return env_ok _ _ _ _ _ H1 H2 H3).
Defined.

(** The batch whose ['aprad'] is the float zero, after both frames were
    taken. *)
Definition zero_aprad_batch : params := demo_parameters None (ApScalar (PyFloat 0)).

Definition zero_aprad_state : system :=
  the_state (state_after env_ok ["a.fits"; "b.fits"] zero_aprad_batch demo_disk
               two_frames).

Lemma float_zero_aprad_never_returns_witness :
  par_aprad zero_aprad_batch = ApScalar (PyFloat 0)
  /\ (0 =? 0)%float = true
  /\ reachable env_ok ["a.fits"; "b.fits"] zero_aprad_batch demo_disk zero_aprad_state
  /\ par_aperture_diam (param zero_aprad_state) = Some "10.0"
  /\ threads zero_aprad_state
     = [T_died "a.fits" 1 TypeError; T_died "b.fits" 0 TypeError]
  /\ par_aprad (param zero_aprad_state) = ApScalar (PyFloat 0)
  /\ extracted (events zero_aprad_state) = []
  /\ main zero_aprad_state <> C_returned.
Proof.
  assert (H1 : par_aprad zero_aprad_batch = ApScalar (PyFloat 0)) by reflexivity.
  assert (H2 : (0 =? 0)%float = true) by reflexivity.
  assert (H3 : reachable env_ok ["a.fits"; "b.fits"] zero_aprad_batch demo_disk
                 zero_aprad_state).
  { apply (state_after_reachable _ _ _ _ two_frames). vm_compute. reflexivity. }
  split; [exact H1|]. split; [exact H2|]. split; [exact H3|].
  split; [vm_compute; reflexivity|]. split; [vm_compute; reflexivity|].
  exact (float_zero_aprad_never_returns env_ok _ _ _ _ _ H1 H2 H3).
Defined.

(** The batch whose detection threshold is not a number, after both frames
    were taken. *)
Definition nan_batch : params :=
  {| par_telescope := None; par_aprad := ApList [PyFloat 3; PyFloat 5];
     par_sex_snr := nan; par_source_minarea := 3; par_quiet := true;
     par_paramfile := None; par_obsparam := None; par_aperture_diam := None;
     par_mask_file := None |}.

Definition nan_state : system :=
  the_state (state_after env_ok ["a.fits"; "b.fits"] nan_batch demo_disk two_frames).

Lemma refused_threshold_never_returns_witness :
  header_accepts env_ok (PyFloat (par_sex_snr nan_batch)) = false
  /\ reachable env_ok ["a.fits"; "b.fits"] nan_batch demo_disk nan_state
  /\ threads nan_state
     = [T_died "a.fits" 1 ValueError; T_died "b.fits" 0 ValueError]
  /\ extracted (events nan_state) = []
  /\ main nan_state <> C_returned
  /\ fits_files (files nan_state) = fits_files demo_disk.
Proof.
  assert (H1 : header_accepts env_ok (PyFloat (par_sex_snr nan_batch)) = false)
    by (vm_compute; reflexivity).
  assert (H2 : reachable env_ok ["a.fits"; "b.fits"] nan_batch demo_disk nan_state).
  { apply (state_after_reachable _ _ _ _ two_frames). vm_compute. reflexivity. }
  split; [exact H1|]. split; [exact H2|]. split; [vm_compute; reflexivity|].
  exact (refused_threshold_never_returns env_ok _ _ _ _ (or_introl H1) H2).
Defined.

Lemma quiet_prints_nothing_witness :
  reachable env_ok ["a.fits"; "b.fits"] demo_batch demo_disk returned_state
  /\ par_quiet demo_batch = true
  /\ extracted (events returned_state) = ["a.fits"; "b.fits"]
  /\ printed (events returned_state)
     = if par_quiet demo_batch then [] else extracted (events returned_state).
Proof.
  pose proof returned_state_reachable as H1.
  split; [exact H1|]. split; [reflexivity|]. split; [vm_compute; reflexivity|].
  exact (quiet_prints_nothing env_ok _ _ _ _ H1).
Defined.

Lemma batch_returns_witness :
  extract_multiframe_setup env_ok ["a.fits"; "b.fits"] demo_batch demo_disk
  = Setup_ok (demo_log 2) demo_prepared
  /\ NoDup ["a.fits"; "b.fits"]
  /\ cards_accepted env_ok demo_prepared "3.0,5.0"
  /\ exists s,
       run env_ok (first_thread_only ["a.fits"; "b.fits"])
         (initial ["a.fits"; "b.fits"] demo_prepared demo_disk (demo_log 2)) = Some s
       /\ main s = C_returned
       /\ returns env_ok ["a.fits"; "b.fits"] demo_batch demo_disk (Ret_output (output s)).
Proof.
  pose proof demo_setup_two as H1.
  assert (H2 : Z.of_nat (length ["a.fits"; "b.fits"]) <= extractQueue_maxsize)
    by (vm_compute; discriminate).
  assert (H3 : NoDup ["a.fits"; "b.fits"]).
  { apply NoDup_cons. split; [|apply NoDup_singleton].
    intros Hin%list_elem_of_singleton. discriminate Hin. }
  assert (H4 : aprad_string env_ok (par_aprad demo_prepared) = Ok "3.0,5.0")
    by (vm_compute; reflexivity).
  assert (H6 : cards_accepted env_ok demo_prepared "3.0,5.0")
    by (repeat split; vm_compute; reflexivity).
  assert (H5 : forall filename,
             filename ∈ ["a.fits"; "b.fits"] ->
             ready env_ok demo_prepared (fits_files demo_disk) filename).
  { intros filename [->|[->|[]%elem_of_nil]%elem_of_cons]%elem_of_cons;
      eexists _, demo_catalog, demo_header, demo_obs1, _;
      (split; [vm_compute; reflexivity|]);
      repeat split; vm_compute; reflexivity. }
  split; [exact H1|]. split; [exact H3|]. split; [exact H6|].
  exact (batch_returns env_ok _ _ _ _ _ _ H1 H2 H3 H4 H6 H5).
Defined.

(** The script called as [pp_extract.py -aprad 3 a.fits b.fits], and with
    a telescope that is not configured. *)
Definition demo_args (telescope : option string) : arguments :=
  {| arg_snr := PyFloat 1.5; arg_minarea := PyInt 3; arg_paramfile := None;
     arg_aprad := "3"; arg_telescope := telescope; arg_quiet := false;
     arg_images := ["a.fits"; "b.fits"] |}.

Definition script_prepared : params :=
  match script env_ok (demo_args None) demo_disk with
  | Ok (Setup_ok _ p) => p
  | _ => demo_batch
  end.

(** The script called as [pp_extract.py a.fits b.fits]: [-aprad] is the
    empty string. *)
Definition default_args : arguments :=
  {| arg_snr := PyFloat 1.5; arg_minarea := PyInt 3; arg_paramfile := None;
     arg_aprad := ""; arg_telescope := None; arg_quiet := false;
     arg_images := ["a.fits"; "b.fits"] |}.

Definition default_batch : params :=
  match script_parameters env_ok default_args with
  | Ok p => p
  | Raise _ => demo_batch
  end.

Lemma script_aprad_witness :
  script env_ok (demo_args None) demo_disk = Ok (Setup_ok (demo_log 2) script_prepared)
  /\ par_aperture_diam script_prepared = Some "6.0"
  /\ (exists r,
        float_str env_ok (arg_aprad (demo_args None)) = Some r
        /\ par_aprad script_prepared = ApList [PyStr (arg_aprad (demo_args None))]
        /\ par_aperture_diam script_prepared = Some (str_float env_ok (r * 2)%float))
  /\ float_str env_ok (arg_aprad default_args) = None
  /\ script env_ok default_args demo_disk = Ok (Setup_raise (demo_log 2) ValueError).
Proof.
  assert (H : script env_ok (demo_args None) demo_disk
              = Ok (Setup_ok (demo_log 2) script_prepared)) by (vm_compute; reflexivity).
  assert (H1 : script_parameters env_ok default_args = Ok default_batch)
    by (vm_compute; reflexivity).
  assert (H2 : float_str env_ok (arg_aprad default_args) = None)
    by (vm_compute; reflexivity).
  split; [exact H|]. split; [vm_compute; reflexivity|].
  split; [exact (proj1 (script_aprad env_ok (demo_args None) demo_disk) _ _ H)|].
  split; [exact H2|].
  apply (proj2 (script_aprad env_ok default_args demo_disk)
           default_batch "a.fits" ["b.fits"] demo_header (PyStr "DEMO") demo_obs1 H1);
    [reflexivity|vm_compute; reflexivity|vm_compute; reflexivity
    |vm_compute; reflexivity|exact H2].
Defined.

(** An image of a telescope that is not configured. *)
Definition foreign_header : header :=
  <["TEL_KEYW" := demo_card (PyStr "OTHER")]> demo_header.

Definition demo_disk_foreign : disk :=
  {| fits_files := {[ "a.fits" := foreign_header; "b.fits" := foreign_header ]};
     ldac_files := ∅ |}.

Definition script_batch : params :=
  match script_parameters env_ok (demo_args None) with
  | Ok p => p
  | Raise _ => demo_batch
  end.

Lemma script_unknown_telescope_witness :
  script_parameters env_ok (demo_args None) = Ok script_batch
  /\ telescope_of script_batch foreign_header = Some (PyStr "OTHER")
  /\ lookup_telescope env_ok (PyStr "OTHER") = None
  /\ script env_ok (demo_args None) demo_disk_foreign
     = Ok (Setup_return_empty_dict
             [Log_info_extract_sources 2; Log_info_parameters;
              Print_unknown_telescope None; Log_critical_unknown_telescope None]).
Proof.
  assert (H1 : script_parameters env_ok (demo_args None) = Ok script_batch)
    by (vm_compute; reflexivity).
  assert (H2 : telescope_of script_batch foreign_header = Some (PyStr "OTHER"))
    by (vm_compute; reflexivity).
  assert (H3 : lookup_telescope env_ok (PyStr "OTHER") = None)
    by (vm_compute; reflexivity).
  split; [exact H1|]. split; [exact H2|]. split; [exact H3|].
  apply (script_unknown_telescope env_ok (demo_args None) demo_disk_foreign
           script_batch "a.fits" ["b.fits"] foreign_header (PyStr "OTHER") H1);
    [reflexivity|vm_compute; reflexivity|exact H2|exact H3].
Defined.
